(** * Profile screening: the free-text section parser, the date normaliser
      and the education filter and ranking of [src/server.ts]

    A shallow embedding of the parsing code of [getProfileWithExa] and of the
    structured mapping in [app.post('/screen')], with the properties of the
    specification stated over it; then of the rest of the server (the check
    of the address, the session and its cache, the requests to the two
    providers, the handler) and of the experience line of the command-line
    variant, with what the code shows of them.

    Strings are Rocq strings, read as the UTF-8 bytes of the JavaScript
    string.  The embedding is exact on ASCII text; on other text it is exact
    as long as the text holds no white space or line separator outside ASCII
    and no character whose lower case is an ASCII letter. *)

From Stdlib Require Import String Ascii List ZArith NArith Bool Arith Lia.
From Stdlib Require Import Permutation Sorted.
Import ListNotations.
Open Scope string_scope.

(* ------------------------------------------------------------------ *)
(** ** JavaScript strings *)
(* ------------------------------------------------------------------ *)

Module JS.

Definition nl : ascii := "010"%char.
Definition cr : ascii := "013"%char.

Definition between (lo hi : N) (c : ascii) : bool :=
  (N.leb lo (N_of_ascii c) && N.leb (N_of_ascii c) hi)%bool.

(** [\n] and [\r]: the characters [.] refuses and after which [^] holds under
    the [m] flag. *)
Definition isLineTerminator (c : ascii) : bool :=
  ((c =? nl)%char || (c =? cr)%char)%bool.

(** [\s], and what [trim] removes, within ASCII: tab, line feed, vertical
    tab, form feed, carriage return, space.  JavaScript also takes the white
    space outside ASCII (U+00A0, U+1680, U+2000 to U+200A, U+2028, U+2029,
    U+202F, U+205F, U+3000, U+FEFF), which a text of bytes holds as two or
    three bytes each: the two agree on the texts without it ([narrow]). *)
Definition isSpace (c : ascii) : bool :=
  (between 9 13 c || (c =? " ")%char)%bool.

Definition isDigit : ascii -> bool := between 48 57.
Definition isUpper : ascii -> bool := between 65 90.
Definition isLower : ascii -> bool := between 97 122.
Definition dot (c : ascii) : bool := negb (isLineTerminator c).
Definition isNot (l : list ascii) (c : ascii) : bool :=
  negb (existsb (Ascii.eqb c) l).

Definition lowerChar (c : ascii) : ascii :=
  if isUpper c then ascii_of_N (N_of_ascii c + 32) else c.

Fixpoint toLowerCase (s : string) : string :=
  match s with
  | EmptyString => EmptyString
  | String c s' => String (lowerChar c) (toLowerCase s')
  end.

Fixpoint startsWith (p s : string) : bool :=
  match p, s with
  | EmptyString, _ => true
  | String a p', String b s' => ((a =? b)%char && startsWith p' s')%bool
  | String _ _, EmptyString => false
  end.

Fixpoint includes (sub s : string) : bool :=
  (startsWith sub s ||
   match s with
   | EmptyString => false
   | String _ s' => includes sub s'
   end)%bool.

Fixpoint trimStart (s : string) : string :=
  match s with
  | EmptyString => EmptyString
  | String c s' => if isSpace c then trimStart s' else s
  end.

Fixpoint trimEnd (s : string) : string :=
  match s with
  | EmptyString => EmptyString
  | String c s' =>
      match trimEnd s' with
      | EmptyString => if isSpace c then EmptyString else String c EmptyString
      | t => String c t
      end
  end.

Definition trim (s : string) : string := trimEnd (trimStart s).

(** [s.substring(0, n)] *)
Fixpoint take (n : nat) (s : string) : string :=
  match n, s with
  | S n', String c s' => String c (take n' s')
  | _, _ => EmptyString
  end.

(** A string is falsy exactly when it is empty. *)
Definition truthy (s : string) : bool :=
  match s with EmptyString => false | String _ _ => true end.

(** [s.split(c)] for a separator of one character. *)
Fixpoint splitChar (sep : ascii) (s : string) : list string :=
  match s with
  | EmptyString => [EmptyString]
  | String c s' =>
      if (c =? sep)%char then EmptyString :: splitChar sep s'
      else match splitChar sep s' with
           | [] => [String c EmptyString]
           | l :: ls => String c l :: ls
           end
  end.

(** [parseInt(s, 10)]: white space, an optional sign, then the longest run of
    digits; [None] is [NaN]. *)
Fixpoint digitsValue (acc : Z) (s : string) : Z :=
  match s with
  | String c s' =>
      if isDigit c
      then digitsValue (10 * acc + Z.of_N (N_of_ascii c - 48)) s'
      else acc
  | EmptyString => acc
  end.

Definition parseDigits (s : string) : option Z :=
  match s with
  | String c _ => if isDigit c then Some (digitsValue 0 s) else None
  | EmptyString => None
  end.

Definition parseInt (s : string) : option Z :=
  match trimStart s with
  | String "-" s' => option_map Z.opp (parseDigits s')
  | String "+" s' => parseDigits s'
  | s' => parseDigits s'
  end.

(** [!n] on a number or [null]: [null], [NaN] and [0] are falsy. *)
Definition falsyNumber (n : option Z) : bool :=
  match n with
  | None => true
  | Some z => (z =? 0)%Z
  end.

(* ------------------------------------------------------------------ *)
(** *** Regular expressions, as a backtracking matcher *)

(** The fragment the parser uses.  [Star true r] is [r*], [Star false r] is
    [r*?]; [Grp n r] is the [n]-th capturing group; [Bol] is [^] under the
    [m] flag; [Eps] is the empty pattern.  No group of these patterns stands
    under a quantifier, so the reset of captures at each iteration is left
    out. *)
Inductive regex : Type :=
| Eps
| Chr (c : ascii)
| Cls (p : ascii -> bool)
| Seq (r1 r2 : regex)
| Alt (r1 r2 : regex)
| Star (greedy : bool) (r : regex)
| Grp (n : nat) (r : regex)
| Bol.

Definition Plus (greedy : bool) (r : regex) : regex := Seq r (Star greedy r).

Fixpoint Lit (s : string) : regex :=
  match s with
  | EmptyString => Eps
  | String c s' => Seq (Chr c) (Lit s')
  end.

(** Where the matcher stands: [idx] characters after the place the attempt
    started, [prev] the character just before, [rest] what is left. *)
Record cursor : Type :=
  { idx : nat; prev : option ascii; rest : string }.

Definition captures : Type := list (nat * string).
Definition outcome : Type := option (cursor * captures).
Definition cont : Type := cursor -> captures -> outcome.
Definition matcher : Type := cursor -> captures -> cont -> outcome.

Definition step (c : ascii) (s : string) (x : cursor) : cursor :=
  {| idx := S (idx x); prev := Some c; rest := s |}.

Fixpoint cap (n : nat) (caps : captures) : option string :=
  match caps with
  | [] => None
  | (m, s) :: tl => if Nat.eqb m n then Some s else cap n tl
  end.

(** One quantified atom.  An iteration that consumes nothing is refused, so
    at most [length (rest x)] iterations can follow: with the counter at [0]
    nothing is left to consume and only the continuation remains (a larger
    counter changes nothing, [repeatMatcher_enough] below). *)
Fixpoint repeatMatcher (greedy : bool) (mr : matcher) (n : nat)
         (x : cursor) (caps : captures) (k : cont) : outcome :=
  match n with
  | 0 => k x caps
  | S n' =>
      let d : cont := fun y caps' =>
        if Nat.eqb (idx y) (idx x) then None
        else repeatMatcher greedy mr n' y caps' k in
      if greedy
      then match mr x caps d with
           | Some z => Some z
           | None => k x caps
           end
      else match k x caps with
           | Some z => Some z
           | None => mr x caps d
           end
  end.

Fixpoint rmatch (r : regex) : matcher :=
  match r with
  | Eps => fun x caps k => k x caps
  | Chr c => fun x caps k =>
      match rest x with
      | String a s => if (a =? c)%char then k (step a s x) caps else None
      | EmptyString => None
      end
  | Cls p => fun x caps k =>
      match rest x with
      | String a s => if p a then k (step a s x) caps else None
      | EmptyString => None
      end
  | Seq r1 r2 => fun x caps k =>
      rmatch r1 x caps (fun y caps' => rmatch r2 y caps' k)
  | Alt r1 r2 => fun x caps k =>
      match rmatch r1 x caps k with
      | Some z => Some z
      | None => rmatch r2 x caps k
      end
  | Star g r' => fun x caps k =>
      repeatMatcher g (rmatch r') (String.length (rest x)) x caps k
  | Grp n r' => fun x caps k =>
      rmatch r' x caps (fun y caps' =>
        k y ((n, take (idx y - idx x) (rest x)) :: caps'))
  | Bol => fun x caps k =>
      match prev x with
      | None => k x caps
      | Some c => if isLineTerminator c then k x caps else None
      end
  end.

Definition accept : cont := fun y caps => Some (y, caps).

(** One attempt, at the head of [s], [p] being the character before. *)
Definition exec (r : regex) (p : option ascii) (s : string) : outcome :=
  rmatch r {| idx := 0; prev := p; rest := s |} [] accept.

(** The result of [s.match(r)] for a pattern without the [g] flag: the
    leftmost match, its groups, and the text around it. *)
Record found : Type :=
  { before : string; whole : string; groups : captures; after : string }.

Definition shift (c : ascii) (f : found) : found :=
  {| before := String c (before f); whole := whole f;
     groups := groups f; after := after f |}.

Fixpoint searchFrom (r : regex) (p : option ascii) (s : string) : option found :=
  match exec r p s with
  | Some (y, caps) =>
      Some {| before := EmptyString; whole := take (idx y) s;
              groups := caps; after := rest y |}
  | None =>
      match s with
      | EmptyString => None
      | String c s' => option_map (shift c) (searchFrom r (Some c) s')
      end
  end.

Definition search (r : regex) (s : string) : option found := searchFrom r None s.

Definition test (r : regex) (s : string) : bool :=
  match search r s with Some _ => true | None => false end.

Definition group (n : nat) (f : found) : option string := cap n (groups f).

(** [s.replace(r, f)] for a pattern with the [g] flag; [skip] counts the
    characters of the last match still to pass. *)
Fixpoint replaceFrom (r : regex) (f : captures -> string) (skip : nat)
         (p : option ascii) (s : string) : string :=
  match s with
  | EmptyString =>
      match skip with
      | 0 => match exec r p EmptyString with
             | Some (_, caps) => f caps
             | None => EmptyString
             end
      | S _ => EmptyString
      end
  | String c s' =>
      match skip with
      | S n => replaceFrom r f n (Some c) s'
      | 0 =>
          match exec r p s with
          | Some (y, caps) =>
              f caps ++
              match idx y with
              | 0 => String c (replaceFrom r f 0 (Some c) s')
              | S n => replaceFrom r f n (Some c) s'
              end
          | None => String c (replaceFrom r f 0 (Some c) s')
          end
      end
  end.

Definition replaceAll (r : regex) (f : captures -> string) (s : string) : string :=
  replaceFrom r f 0 None s.

(** [s.split(r)]: [cur] is the piece being read.  A match that consumes
    nothing where the piece is still empty is passed over. *)
Fixpoint splitFrom (r : regex) (skip : nat) (p : option ascii)
         (cur : string) (s : string) : list string :=
  match s with
  | EmptyString => [cur]
  | String c s' =>
      match skip with
      | S n => splitFrom r n (Some c) cur s'
      | 0 =>
          match exec r p s with
          | Some (y, _) =>
              match idx y with
              | 0 =>
                  match cur with
                  | EmptyString => splitFrom r 0 (Some c) (String c EmptyString) s'
                  | _ => cur :: splitFrom r 0 (Some c) (String c EmptyString) s'
                  end
              | S n => cur :: splitFrom r n (Some c) EmptyString s'
              end
          | None => splitFrom r 0 (Some c) (cur ++ String c EmptyString) s'
          end
      end
  end.

Definition split (r : regex) (s : string) : list string :=
  match s with
  | EmptyString =>
      match exec r None EmptyString with
      | Some _ => []
      | None => [EmptyString]
      end
  | _ => splitFrom r 0 None EmptyString s
  end.

Declare Scope regex_scope.
Delimit Scope regex_scope with re.
Bind Scope regex_scope with regex.
Infix ">>" := Seq (at level 61, right associativity) : regex_scope.

End JS.

Import JS.

(* ------------------------------------------------------------------ *)
(** ** The output records of [server.ts] *)
(* ------------------------------------------------------------------ *)

(** [interface Education]; [start] and [end] are [estart] and [eend]. *)
Record Education : Type :=
  { school : option string;
    degree : option string;
    field : option string;
    estart : option Z;
    eend : option Z }.

(** [interface Experience]; [end] is [end_]. *)
Record Experience : Type :=
  { company : option string;
    title : option string;
    start : option Z;
    end_ : option Z;
    current : bool }.

(** The value of [position_start]. *)
Record DateObj : Type :=
  { year : option Z; month : option Z }.

(** What a piece of the code leaves behind: a value, or an uncaught
    [TypeError] (a method called on [undefined]). *)
Inductive completion (A : Type) : Type :=
| Normal (a : A)
| TypeError.
Arguments Normal {A} a.
Arguments TypeError {A}.

Definition bind {A B : Type} (c : completion A) (f : A -> completion B) : completion B :=
  match c with
  | Normal a => f a
  | TypeError => TypeError
  end.

Notation "x <- c ;; k" := (bind c (fun x => k))
  (at level 61, c at next level, right associativity).

(** [m[n]] used as a string: [undefined] makes the method call throw. *)
Definition defined {A : Type} (o : option A) : completion A :=
  match o with
  | Some a => Normal a
  | None => TypeError
  end.

(** [x || ''] on a string or [null]. *)
Definition orEmpty (o : option string) : string :=
  match o with
  | Some s => s
  | None => EmptyString
  end.

(** [!x] on a string or [null]. *)
Definition falsyString (o : option string) : bool := negb (truthy (orEmpty o)).

(* ------------------------------------------------------------------ *)
(** ** Education filter and ranking (both paths) *)
(* ------------------------------------------------------------------ *)

(** [Array.prototype.sort] with a comparator is a stable sort; for a
    comparator that comes from a rank the stable result is unique, and
    insertion from the right computes it. *)
Section Sort.
Variable A : Type.
Variable cmp : A -> A -> Z.

Fixpoint insertBy (x : A) (l : list A) : list A :=
  match l with
  | [] => [x]
  | y :: l' => if (cmp x y <=? 0)%Z then x :: l else y :: insertBy x l'
  end.

Definition sortBy (l : list A) : list A := fold_right insertBy [] l.
End Sort.
Arguments insertBy {A} cmp x l.
Arguments sortBy {A} cmp l.

Definition anyIncludes (keys : list string) (s : string) : bool :=
  existsb (fun k => includes k s) keys.

Section Ranking.
(** The two copies of [isHighSchool] differ in the degree keywords only. *)
Variable degreeKeywords : list string.

Definition schoolKeywords : list string :=
  ["high school"; "secondary school"; "preparatory"; "prep school";
   "uwc "; "uwc south"; "uwc east"; "international school"; "sixth form";
   "college preparatory"].

Definition isHighSchool (edu : Education) : bool :=
  let schoolName := toLowerCase (orEmpty (school edu)) in
  let degreeName := toLowerCase (orEmpty (degree edu)) in
  if anyIncludes schoolKeywords schoolName then true
  else if (anyIncludes degreeKeywords degreeName
           || (degreeName =? "—") || (degreeName =? ""))%bool then true
  else false.

Definition getEducationRank (edu : Education) : Z :=
  let degreeName := toLowerCase (orEmpty (degree edu)) in
  if anyIncludes ["phd"; "ph.d"; "doctorate"] degreeName then 5
  else if anyIncludes ["master"; "mba"; "ms"; "ma"] degreeName then 4
  else if anyIncludes ["bachelor"; "bs"; "ba"; "b.tech"; "btech"] degreeName then 3
  else if anyIncludes ["associate"; "diploma"] degreeName then 2
  else if isHighSchool edu then 0
  else 1.

Definition collegeEducation (all : list Education) : list Education :=
  filter (fun edu => negb (isHighSchool edu)) all.

(** [collegeEducation.length > 0 ? collegeEducation : education] *)
Definition filteredEducation (all : list Education) : list Education :=
  if (0 <? List.length (collegeEducation all))%nat
  then collegeEducation all else all.

Definition rankCompare (a b : Education) : Z :=
  (getEducationRank b - getEducationRank a)%Z.

Definition rankEducation (all : list Education) : list Education :=
  sortBy rankCompare (filteredEducation all).
End Ranking.

Definition degreeKeywordsVoyager : list string :=
  ["high school"; "ib diploma"; "international baccalaureate"; "a-level";
   "a level"; "gcse"; "o-level"; "cbse"; "icse"; "grade 12";
   "secondary education"].

(** The free-text path adds ["noc "] and ["batch "]. *)
Definition degreeKeywordsExa : list string :=
  degreeKeywordsVoyager ++ ["noc "; "batch "].

(* ------------------------------------------------------------------ *)
(** ** The free-text section parser of [getProfileWithExa] *)
(* ------------------------------------------------------------------ *)

Module Exa.

Definition ws : regex := Cls isSpace.
Definition digit4 : regex :=
  (Cls isDigit >> Cls isDigit >> Cls isDigit >> Cls isDigit)%re.
Definition monthWord : regex := (Cls isUpper >> Plus true (Cls isLower))%re.

(** [/^## /m] *)
Definition sectionRe : regex := (Bol >> Lit "## ")%re.

(** [/###\s*(.+?)\s+at\s+(.+)/] *)
Definition eduLineRe : regex :=
  (Lit "###" >> Star true ws >> Grp 1 (Plus false (Cls dot)) >>
   Plus true ws >> Lit "at" >> Plus true ws >> Grp 2 (Plus true (Cls dot)))%re.

(** [/\[([^\]]+)\]<web_link>/g] *)
Definition linkRe : regex :=
  (Chr "[" >> Grp 1 (Plus true (Cls (isNot ["]"%char]))) >> Lit "]<web_link>")%re.

(** [/\n###\s+/] *)
Definition blockRe : regex := (Chr nl >> Lit "###" >> Plus true ws)%re.

(** [/(.+?)\s+at\s+\[(.+?)\]/] *)
Definition titleBracketRe : regex :=
  (Grp 1 (Plus false (Cls dot)) >> Plus true ws >> Lit "at" >> Plus true ws >>
   Chr "[" >> Grp 2 (Plus false (Cls dot)) >> Chr "]")%re.

(** [/<web_link>/g] *)
Definition webLinkRe : regex := Lit "<web_link>".

(** [/(.+?)\s+at\s+([^(\n]+)/] *)
Definition titleSimpleRe : regex :=
  (Grp 1 (Plus false (Cls dot)) >> Plus true ws >> Lit "at" >> Plus true ws >>
   Grp 2 (Plus true (Cls (isNot ["("%char; nl]))))%re.

(** [/[A-Z][a-z]+\s+\d{4}\s*-\s*(Present|[A-Z][a-z]+\s+\d{4})/] *)
Definition dateTestRe : regex :=
  (monthWord >> Plus true ws >> digit4 >> Star true ws >> Chr "-" >>
   Star true ws >>
   Grp 1 (Alt (Lit "Present") (monthWord >> Plus true ws >> digit4)))%re.

(** [/([A-Z][a-z]+)\s+(\d{4})\s*-\s*(Present|([A-Z][a-z]+)\s+(\d{4}))/] *)
Definition dateRe : regex :=
  (Grp 1 monthWord >> Plus true ws >> Grp 2 digit4 >> Star true ws >>
   Chr "-" >> Star true ws >>
   Grp 3 (Alt (Lit "Present")
              (Grp 4 monthWord >> Plus true ws >> Grp 5 digit4)))%re.

(** [text.split(/^## /m)] *)
Definition sections (text : string) : list string := split sectionRe text.

(** [sections.find(s => s.startsWith(name)) || ''] *)
Definition findSection (name : string) (secs : list string) : string :=
  orEmpty (find (startsWith name) secs).

(** *** Education *)

(** [educationSection.split('\n').filter(l => l.trim().startsWith('###'))] *)
Definition eduLines (educationSection : string) : list string :=
  filter (fun l => startsWith "###" (trim l)) (splitChar nl educationSection).

(** The body of the loop over [eduLines]: the entry to push, if any. *)
Definition parseEducationLine (line : string) : completion (option Education) :=
  match search eduLineRe line with
  | Some m =>
      m1 <- defined (group 1 m) ;;
      m2 <- defined (group 2 m) ;;
      let degree := trim m1 in
      let school := trim m2 in
      let school := replaceAll linkRe (fun caps => orEmpty (cap 1 caps)) school in
      Normal (Some {| school := Some school; degree := Some degree;
                      field := None; estart := None; eend := None |})
  | None => Normal None
  end.

Fixpoint parseEducationLines (lines : list string) (education : list Education)
  : completion (list Education) :=
  match lines with
  | [] => Normal education
  | line :: lines' =>
      r <- parseEducationLine line ;;
      parseEducationLines lines'
        (match r with Some e => (education ++ [e])%list | None => education end)
  end.

Definition parseEducation (secs : list string) : completion (list Education) :=
  parseEducationLines (eduLines (findSection "Education" secs)) [].

(** *** Experience *)

(** [experienceSection.split(/\n###\s+/)
       .filter(b => b.trim() && !b.startsWith('Experience'))] *)
Definition expBlocks (experienceSection : string) : list string :=
  filter (fun b => (truthy (trim b) && negb (startsWith "Experience" b))%bool)
         (split blockRe experienceSection).

(** [block.split('\n').filter(l => l.trim())] *)
Definition blockLines (block : string) : list string :=
  filter (fun l => truthy (trim l)) (splitChar nl block).

(** The two title patterns, the bracketed one first: [(title, company)]. *)
Definition parseTitle (firstLine : string) : completion (option (string * string)) :=
  match search titleBracketRe firstLine with
  | Some titleMatch =>
      m1 <- defined (group 1 titleMatch) ;;
      m2 <- defined (group 2 titleMatch) ;;
      let title := trim m1 in
      let company := trim m2 in
      let company := replaceAll webLinkRe (fun _ => EmptyString) company in
      Normal (Some (title, company))
  | None =>
      match search titleSimpleRe firstLine with
      | None => Normal None
      | Some simpleMatch =>
          m1 <- defined (group 1 simpleMatch) ;;
          m2 <- defined (group 2 simpleMatch) ;;
          Normal (Some (trim m1, trim m2))
      end
  end.

(** [lines.find(l => /.../.test(l))] *)
Definition findDateLine (lines : list string) : option string :=
  find (test dateTestRe) lines.

Definition monthMap (name : string) : option Z :=
  if name =? "Jan" then Some 1%Z else if name =? "Feb" then Some 2%Z
  else if name =? "Mar" then Some 3%Z else if name =? "Apr" then Some 4%Z
  else if name =? "May" then Some 5%Z else if name =? "Jun" then Some 6%Z
  else if name =? "Jul" then Some 7%Z else if name =? "Aug" then Some 8%Z
  else if name =? "Sep" then Some 9%Z else if name =? "Oct" then Some 10%Z
  else if name =? "Nov" then Some 11%Z else if name =? "Dec" then Some 12%Z
  else None.

(** What one block contributes: the entry pushed, and the start of the
    position in case the entry becomes the current company. *)
Record contribution : Type :=
  { entry : Experience; entryStart : DateObj }.

(** The body of the loop over [expBlocks], up to the push; [None] is a block
    that pushes nothing ([continue], or a date line that is missing).  The
    groups of [dateMatch] are only compared, parsed and looked up, and for
    these uses [undefined] and the empty string are the same. *)
Definition parseBlock (block : string) : completion (option contribution) :=
  let lines := blockLines block in
  if (List.length lines <? 2)%nat then Normal None
  else
    let firstLine := hd EmptyString lines in
    t <- parseTitle firstLine ;;
    match t with
    | None => Normal None
    | Some (title, company) =>
        let isCurrent := includes "(Current)" firstLine in
        match findDateLine lines with
        | None => Normal None
        | Some dateInfo =>
            if negb (truthy dateInfo) then Normal None
            else
              match search dateRe dateInfo with
              | None => Normal None
              | Some dateMatch =>
                  let startMonth := orEmpty (group 1 dateMatch) in
                  let startYear := parseInt (orEmpty (group 2 dateMatch)) in
                  let endInfo := orEmpty (group 3 dateMatch) in
                  let endYear :=
                    if endInfo =? "Present" then None
                    else if truthy (orEmpty (group 5 dateMatch))
                         then parseInt (orEmpty (group 5 dateMatch))
                         else None in
                  let isActuallyCurrent :=
                    (isCurrent || (endInfo =? "Present") || falsyNumber endYear)%bool in
                  Normal (Some
                    {| entry := {| company := Some company; title := Some title;
                                   start := startYear; end_ := endYear;
                                   current := isActuallyCurrent |};
                       entryStart := {| year := startYear;
                                        month := monthMap startMonth |} |})
              end
        end
    end.

(** The variables the loop updates. *)
Record expState : Type :=
  { experiences : list Experience;
    currentCompany : option string;
    currentPositionStart : option DateObj }.

Definition expInit : expState :=
  {| experiences := []; currentCompany := None; currentPositionStart := None |}.

Definition pushContribution (st : expState) (c : contribution) : expState :=
  let exps := (experiences st ++ [entry c])%list in
  if (current (entry c) && falsyString (currentCompany st))%bool
  then {| experiences := exps;
          currentCompany := company (entry c);
          currentPositionStart := Some (entryStart c) |}
  else {| experiences := exps;
          currentCompany := currentCompany st;
          currentPositionStart := currentPositionStart st |}.

Fixpoint parseBlocks (blocks : list string) (st : expState) : completion expState :=
  match blocks with
  | [] => Normal st
  | block :: blocks' =>
      r <- parseBlock block ;;
      parseBlocks blocks'
        (match r with Some c => pushContribution st c | None => st end)
  end.

Definition parseExperience (secs : list string) : completion expState :=
  parseBlocks (expBlocks (findSection "Experience" secs)) expInit.

(** *** The parsed part of the response *)

(** [name], [headline] and [location] come from the title of the page and
    from the text before the sections, and the company details are [null]
    on this path; they are left out. *)
Record profile : Type :=
  { education : list Education;
    profile_experiences : list Experience;
    current_company_name : option string;
    position_start : option DateObj }.

Definition parseProfile (text : string) : completion profile :=
  let secs := sections text in
  edu <- parseEducation secs ;;
  st <- parseExperience secs ;;
  Normal {| education := rankEducation degreeKeywordsExa edu;
            profile_experiences := experiences st;
            current_company_name := currentCompany st;
            position_start := currentPositionStart st |}.

End Exa.

(* ------------------------------------------------------------------ *)
(** ** The structured mapping of [app.post('/screen')] *)
(* ------------------------------------------------------------------ *)

(** [a ?? b] *)
Definition nullish {A : Type} (a b : option A) : option A :=
  match a with
  | Some v => Some v
  | None => b
  end.

(** [a?.f] *)
Definition chain {A B : Type} (a : option A) (f : A -> option B) : option B :=
  match a with
  | Some v => f v
  | None => None
  end.

(** [!o] on an object or [undefined]: an object is never falsy. *)
Definition absent {A : Type} (o : option A) : bool :=
  match o with
  | Some _ => false
  | None => true
  end.

Module Voyager.

(** [interface TimePeriod]; [start] and [end] are [tstart] and [tend]. *)
Record TimePeriod : Type :=
  { startDate : option DateObj;
    endDate : option DateObj;
    tstart : option DateObj;
    tend : option DateObj }.

Record MiniCompany : Type := { miniUniversalName : option string }.

Record Company : Type :=
  { universalName : option string; miniCompany : option MiniCompany }.

(** [interface LinkedInPosition]; [title] is [positionTitle]. *)
Record LinkedInPosition : Type :=
  { companyName : option string;
    positionTitle : option string;
    timePeriod : option TimePeriod;
    dateRange : option TimePeriod;
    positionCompany : option Company }.

(** [{}] *)
Definition noPeriod : TimePeriod :=
  {| startDate := None; endDate := None; tstart := None; tend := None |}.

(** [entry.timePeriod ?? entry.dateRange ?? {}] *)
Definition periodOf (entry : LinkedInPosition) : TimePeriod :=
  match nullish (timePeriod entry) (dateRange entry) with
  | Some tp => tp
  | None => noPeriod
  end.

Record dates : Type :=
  { startYear : option Z; endYear : option Z; isCurrent : bool }.

(** The body of [parseDates], on the period [tp]. *)
Definition datesOf (tp : TimePeriod) : dates :=
  {| startYear := nullish (chain (startDate tp) year) (chain (tstart tp) year);
     endYear := nullish (chain (endDate tp) year) (chain (tend tp) year);
     isCurrent := (absent (endDate tp) && absent (tend tp))%bool |}.

Definition parseDates (entry : LinkedInPosition) : dates :=
  datesOf (periodOf entry).

(** The variables the loop over [positions] updates. *)
Record expState : Type :=
  { experiences : list Experience;
    currentCompany : option string;
    currentCompanyUniversalName : option string;
    currentPositionStart : option DateObj }.

Definition expInit : expState :=
  {| experiences := []; currentCompany := None;
     currentCompanyUniversalName := None; currentPositionStart := None |}.

(** What the loop pushes for [exp]. *)
Definition experienceOf (exp : LinkedInPosition) : Experience :=
  let d := parseDates exp in
  {| company := companyName exp;
     title := positionTitle exp;
     start := startYear d;
     end_ := if isCurrent d then None else endYear d;
     current := isCurrent d |}.

(** One turn of the loop. *)
Definition pushPosition (st : expState) (exp : LinkedInPosition) : expState :=
  let d := parseDates exp in
  let tp := periodOf exp in
  let exps := (experiences st ++ [experienceOf exp])%list in
  if (isCurrent d && falsyString (currentCompany st))%bool
  then {| experiences := exps;
          currentCompany := companyName exp;
          currentCompanyUniversalName :=
            nullish (chain (positionCompany exp) universalName)
                    (chain (chain (positionCompany exp) miniCompany)
                           miniUniversalName);
          currentPositionStart := nullish (startDate tp) (tstart tp) |}
  else {| experiences := exps;
          currentCompany := currentCompany st;
          currentCompanyUniversalName := currentCompanyUniversalName st;
          currentPositionStart := currentPositionStart st |}.

Definition mapPositions (positions : list LinkedInPosition) : expState :=
  fold_left pushPosition positions expInit.

End Voyager.

(* ------------------------------------------------------------------ *)
(** ** The command-line variant ([main]) *)
(* ------------------------------------------------------------------ *)

Module Cli.

Record Period : Type :=
  { startDate : option DateObj; endDate : option DateObj }.

Record Experience : Type :=
  { companyName : option string;
    title : option string;
    timePeriod : option Period }.

(** [experiences.find((e) => !e.timePeriod?.endDate)] *)
Definition current (experiences : list Experience) : option Experience :=
  find (fun e => absent (chain (timePeriod e) endDate)) experiences.

End Cli.

(* ------------------------------------------------------------------ *)
(** ** More of JavaScript: numbers as text, anchored patterns, errors *)
(* ------------------------------------------------------------------ *)

Module Values.

(** The double quote. *)
Definition dq : ascii := "034"%char.


(** [String(n)] for a safe integer [n]: its decimal digits, after the sign.
    Beyond the safe integers [String] rounds to the digits that tell the
    double from its neighbours, and from [10^21] it turns to the exponent
    form; what is stated of the text of a number holds where the number is a
    safe integer.  The digits are produced from the last one; the counter
    bounds their number. *)
Fixpoint digitsFrom (count : nat) (n : N) (acc : string) : string :=
  match count with
  | 0 => acc
  | S count' =>
      let acc' := String (ascii_of_N (48 + n mod 10)) acc in
      if (n / 10 =? 0)%N then acc' else digitsFrom count' (n / 10) acc'
  end.

Definition naturalToString (n : N) : string :=
  digitsFrom (S (N.to_nat (N.log2 n))) n EmptyString.

Definition numberToString (z : Z) : string :=
  match z with
  | Z0 => naturalToString 0
  | Zpos p => naturalToString (Npos p)
  | Zneg p => String "-" (naturalToString (Npos p))
  end.

(** [a.pop()] on an array no one else holds: its last element. *)
Fixpoint pop (l : list string) : option string :=
  match l with
  | [] => None
  | [x] => Some x
  | _ :: l' => pop l'
  end.

(** A pattern that ends in [$], without the [m] flag: the continuation
    accepts at the end of the text only. *)
Definition atEnd : cont := fun y caps =>
  match rest y with
  | EmptyString => Some (y, caps)
  | String _ _ => None
  end.

Definition execEnd (r : regex) (p : option ascii) (s : string) : outcome :=
  rmatch r {| idx := 0; prev := p; rest := s |} [] atEnd.

(** [/^r$/.test(s)]: one attempt, at the start. *)
Definition testWhole (r : regex) (s : string) : bool :=
  match execEnd r None s with Some _ => true | None => false end.

(** [s.replace(/r$/, rep)]: the leftmost match ends the text, and [rep]
    stands for all of it. *)
Fixpoint replaceEnd (r : regex) (rep : string) (p : option ascii) (s : string)
  : string :=
  match execEnd r p s with
  | Some _ => rep
  | None =>
      match s with
      | EmptyString => EmptyString
      | String c s' => String c (replaceEnd r rep (Some c) s')
      end
  end.

(** [r?] *)
Definition Opt (r : regex) : regex := Alt r Eps.

(** [.] under the [s] flag. *)
Definition anyChar : regex := Cls (fun _ => true).

(** What is thrown: [new Error(message)] (and any error that is not of
    axios), or an error of axios, with the status of its response if it has
    one. *)
Inductive error : Type :=
| Error (message : string)
| AxiosError (status : option Z) (message : string).

(** [e.message] *)
Definition messageOf (e : error) : string :=
  match e with
  | Error m => m
  | AxiosError _ m => m
  end.

Inductive result (A : Type) : Type :=
| Ok (a : A)
| Thrown (e : error).
Arguments Ok {A} a.
Arguments Thrown {A} e.

(** The text of a [TypeError]: of a method called on [undefined], or of a
    method of texts called on what is no text.  The engine words it by what
    was read; one text stands here for all. *)
Definition typeErrorMessage : string :=
  "Cannot read properties of undefined".

Definition thrown {A : Type} (c : completion A) : result A :=
  match c with
  | Normal a => Ok a
  | TypeError => Thrown (Error typeErrorMessage)
  end.

(** What a key of a JSON body holds where the code expects a text: the
    text, or a number, a boolean, an object or an array, of which the code
    sees only whether it is truthy and, in a template, its text.  [null] and
    a missing key are the [None] of an option. *)
Inductive value : Type :=
| Text (s : string)
| Other (truth : bool) (shown : string).

(** [!!v] *)
Definition truthyValue (v : option value) : bool :=
  match v with
  | Some (Text s) => truthy s
  | Some (Other truth _) => truth
  | None => false
  end.

(** The receiver of [v.trim()] and of [v.toLowerCase()]: only a text has
    these methods, and the call on anything else is a [TypeError]. *)
Definition textOf (v : option value) : completion string :=
  match v with
  | Some (Text s) => Normal s
  | _ => TypeError
  end.

(** [`${v}`] *)
Definition shownValue (v : value) : string :=
  match v with
  | Text s => s
  | Other _ shown => shown
  end.

(** [t !== v] for a text [t]: a value of another type is never the same. *)
Definition sameText (t : string) (v : value) : bool :=
  match v with
  | Text s => (t =? s)%string
  | Other _ _ => false
  end.

(** [l.map(f)] and [l.filter(f)] for an [f] that can throw: the first throw
    ends the loop. *)
Fixpoint mapAll {A B : Type} (f : A -> completion B) (l : list A)
  : completion (list B) :=
  match l with
  | [] => Normal []
  | a :: l' => b <- f a ;; bs <- mapAll f l' ;; Normal (b :: bs)
  end.

End Values.

(* ------------------------------------------------------------------ *)
(** ** The address of the profile *)
(* ------------------------------------------------------------------ *)

Module Url.
Import Values.

(** [validateLinkedInUrl]; [url.length] counts bytes here, which is the
    count of JavaScript on ASCII text. *)
Definition validateLinkedInUrl (url : string) : bool :=
  if (negb (truthy url) || (500 <? String.length url)%nat)%bool then false
  else if (negb (includes "linkedin.com/in/" url) &&
           negb (includes "linkedin.com/company/" url))%bool then false
  else if (negb (startsWith "http://" url) &&
           negb (startsWith "https://" url))%bool then false
  else true.

(** [/\/$/] *)
Definition trailingSlash : regex := Chr "/".

(** [url.replace(/\/$/, '').split('/').pop()?.split('?')[0] ?? ''] *)
Definition extractPublicId (url : string) : string :=
  orEmpty
    (chain (pop (splitChar "/" (replaceEnd trailingSlash EmptyString None url)))
           (fun last => nth_error (splitChar "?" last) 0)).

End Url.

(* ------------------------------------------------------------------ *)
(** ** What the providers send *)
(* ------------------------------------------------------------------ *)

Module Wire.

(** The [location] of a profile. *)
Record Location : Type := { defaultLocalizedName : option string }.

(** [interface LinkedInProfile] *)
Record LinkedInProfile : Type :=
  { firstName : option string;
    lastName : option string;
    headline : option string;
    geoLocationName : option string;
    locationName : option string;
    location : option Location }.

(** [{}] *)
Definition noProfile : LinkedInProfile :=
  {| firstName := None; lastName := None; headline := None;
     geoLocationName := None; locationName := None; location := None |}.

(** The [school] of an education. *)
Record School : Type := { nestedSchoolName : option string }.

(** [interface LinkedInEducation], the keys the mapping reads, for an
    education that is as the interface declares it: every text is a text or
    is missing. *)
Record LinkedInEducation : Type :=
  { schoolName : option string;
    school : option School;
    degreeName : option string;
    degree : option string;
    fieldOfStudy : option string;
    timePeriod : option Voyager.TimePeriod;
    dateRange : option Voyager.TimePeriod }.

(** An education as it arrives: the entities of [included] are cast to the
    interface without a check ([as LinkedInEducation[]]), and a key declared
    a text can hold any value. *)
Module Untyped.

Record School : Type := { nestedSchoolName : option Values.value }.

Record LinkedInEducation : Type :=
  { schoolName : option Values.value;
    school : option School;
    degreeName : option Values.value;
    degree : option Values.value;
    fieldOfStudy : option Values.value;
    timePeriod : option Voyager.TimePeriod;
    dateRange : option Voyager.TimePeriod }.

End Untyped.

Record Founded : Type := { foundedYear : option Z }.
Record Industry : Type := { localizedName : option string }.

(** [interface CompanyData] *)
Record CompanyData : Type :=
  { foundedOn : option Founded;
    staffCount : option Z;
    companyIndustries : option (list Industry) }.

(** An entity of [included]: its [$type], and the object as each of the
    three interfaces reads it; as an education, with the values it holds. *)
Record Entity : Type :=
  { etype : option string;
    asProfile : LinkedInProfile;
    asPosition : Voyager.LinkedInPosition;
    asEducation : Untyped.LinkedInEducation }.

(** [interface LinkedInProfileData] *)
Record LinkedInProfileData : Type :=
  { profile : LinkedInProfile;
    positions : list Voyager.LinkedInPosition;
    educations : list Untyped.LinkedInEducation }.

(** One result of [exaClient.getContents]. *)
Record ExaContent : Type :=
  { title : option string; text : option string }.

(** What comes back for [/voyager/api/me]: a response, with its
    [set-cookie] header, or none, with the message of the failure. *)
Inductive reply : Type :=
| Reply (status : Z) (setCookie : option (list string))
| NoReply (message : string).

End Wire.

(* ------------------------------------------------------------------ *)
(** ** What the handler answers *)
(* ------------------------------------------------------------------ *)

Module Api.

(** [interface CurrentCompany]; a [NaN] in [age_years] goes out as [null],
    and is [None] here. *)
Record CurrentCompany : Type :=
  { companyName : option string;
    founded : option Z;
    age_years : option Z;
    size : option string;
    industry : option string;
    position_start : option DateObj }.

(** [interface ProfileResponse] *)
Record ProfileResponse : Type :=
  { name : string;
    headline : option string;
    location : option string;
    education : list Education;
    experiences : list Experience;
    current_company : CurrentCompany;
    source : option string }.

(** The body: [{ error }], or a profile.  A profile of the structured path
    whose education has a school or a field that is no text is
    [UntypedProfileBody]: what it holds is not described. *)
Inductive Body : Type :=
| ErrorBody (error : string)
| ProfileBody (profile : ProfileResponse)
| UntypedProfileBody.

(** [res.status(n).json(body)]; [res.json(body)] has status 200. *)
Record Response : Type := { status : nat; body : Body }.

End Api.

(* ------------------------------------------------------------------ *)
(** ** The session of the structured path *)
(* ------------------------------------------------------------------ *)

Module Session.
Import Values.

(** What [axios.create] is given that depends on the cookie: the [Cookie]
    and [Csrf-Token] headers. *)
Record Client : Type := { cookieHeader : string; csrfToken : string }.

(** [/JSESSIONID=(Q?[^;,]+)/], where [Q] is the double quote. *)
Definition jsessionRe : regex :=
  (Lit "JSESSIONID=" >>
   Grp 1 (Opt (Chr dq) >> Plus true (Cls (isNot [";"%char; ","%char]))))%re.

(** [/Q/g] *)
Definition quoteRe : regex := Chr dq.

(** The token after a response: from [let jsession = 'ajax:0'] to
    [if (match) jsession = match[1].replace(/Q/g, '')]. *)
Definition sessionToken (setCookie : option (list string)) : completion string :=
  let setCookies := match setCookie with Some l => l | None => [] end in
  let jsessionRaw := find (includes "JSESSIONID") setCookies in
  match chain jsessionRaw (search jsessionRe) with
  | Some m =>
      m1 <- defined (group 1 m) ;;
      Normal (replaceAll quoteRe (fun _ => EmptyString) m1)
  | None => Normal "ajax:0"
  end.

Definition clientOf (liAt jsession : string) : Client :=
  {| cookieHeader :=
       "li_at=" ++ liAt ++ "; JSESSIONID=" ++ String dq (jsession ++ String dq EmptyString);
     csrfToken := jsession |}.

(** [validateStatus: (status) => status >= 200 && status < 400] *)
Definition validateStatus (status : Z) : bool :=
  ((200 <=? status)%Z && (status <? 400)%Z)%bool.

(** What [axios.get] makes of a reply: a status that [validate] refuses is an
    error with the response attached. *)
Definition settle (validate : Z -> bool) (r : Wire.reply)
  : result (Z * option (list string)) :=
  match r with
  | Wire.Reply status setCookie =>
      if validate status then Ok (status, setCookie)
      else Thrown (AxiosError (Some status)
                     ("Request failed with status code " ++ numberToString status))
  | Wire.NoReply message => Thrown (AxiosError None message)
  end.

Definition redirected : string :=
  "LinkedIn cookie expired or invalid. Please update your li_at cookie.".

Definition forbidden : string :=
  "LinkedIn cookie rejected (403 Forbidden). Your li_at cookie may be expired, invalid, or LinkedIn detected automated access. " ++
  "Get a fresh cookie: 1) Go to linkedin.com while logged in, 2) Open DevTools (F12), 3) Application → Cookies → linkedin.com, " ++
  "4) Copy the " ++ String dq ("li_at" ++ String dq " value, 5) Update your .env file").

Definition unauthorized : string :=
  "LinkedIn cookie unauthorized (401). Your cookie has expired. Get a fresh li_at cookie from linkedin.com.".

Definition tooManyRedirects : string :=
  "LinkedIn cookie expired or invalid. Please get a fresh li_at cookie from linkedin.com.".

(** The [try] block of [buildSession], once the reply is there. *)
Definition readReply (r : Wire.reply) : result string :=
  match settle validateStatus r with
  | Ok (status, setCookie) =>
      if ((status =? 302)%Z || (status =? 301)%Z)%bool
      then Thrown (Error redirected)
      else thrown (sessionToken setCookie)
  | Thrown e => Thrown e
  end.

(** The [catch] block of [buildSession]: what is thrown in place of [e]. *)
Definition rethrow (e : error) : error :=
  match e with
  | AxiosError status message =>
      if match status with Some s => (s =? 403)%Z | None => false end
      then Error forbidden
      else if match status with Some s => (s =? 401)%Z | None => false end
      then Error unauthorized
      else if includes "redirects" message then Error tooManyRedirects
      else e
  | Error _ => e
  end.

(** [sessionCache], a [Map] from cookies to clients. *)
Definition Cache : Type := list (string * Client).

Fixpoint cacheGet (liAt : string) (cache : Cache) : option Client :=
  match cache with
  | [] => None
  | (k, v) :: cache' => if k =? liAt then Some v else cacheGet liAt cache'
  end.

Fixpoint cacheSet (liAt : string) (client : Client) (cache : Cache) : Cache :=
  match cache with
  | [] => [(liAt, client)]
  | (k, v) :: cache' =>
      if k =? liAt then (k, client) :: cache'
      else (k, v) :: cacheSet liAt client cache'
  end.

End Session.

(* ------------------------------------------------------------------ *)
(** ** Requests, and the state they go through *)
(* ------------------------------------------------------------------ *)

Module Effects.
Import Values.

(** A request that leaves the server. *)
Inductive call : Type :=
| ExaGetContents (url : string)
| GetMe (liAt : string)
| GetProfile (client : Session.Client) (publicId : string)
| GetCompany (client : Session.Client) (universalName : string).

(** The outside: what each request is answered, and the year of
    [new Date().getFullYear()].  [None] for [profiles] and [companies] is a
    body without [included] or [elements]; for [getContents], a body
    without [results].  The bodies are as the interfaces of the code declare
    them, but for the texts of an education, which can hold any value: they
    are what the handler calls a method of texts on outside every [try]. *)
Record World : Type :=
  { getContents : string -> result (option (list Wire.ExaContent));
    me : string -> Wire.reply;
    profiles : Session.Client -> string -> result (option (list Wire.Entity));
    companies : Session.Client -> string -> result (option (list Wire.CompanyData));
    getFullYear : Z }.

(** What the process keeps between requests, and the requests made so far
    (the latest last). *)
Record Store : Type :=
  { sessionCache : Session.Cache; calls : list call }.

(** An [async] function: it reads and writes the store, and returns or
    throws. *)
Definition M (A : Type) : Type := Store -> result A * Store.

Definition ret {A : Type} (a : A) : M A := fun st => (Ok a, st).

Definition throw {A : Type} (e : error) : M A := fun st => (Thrown e, st).

Definition bindM {A B : Type} (m : M A) (f : A -> M B) : M B := fun st =>
  match m st with
  | (Ok a, st') => f a st'
  | (Thrown e, st') => (Thrown e, st')
  end.

(** [try { m } catch (e) { h e }] *)
Definition catch {A : Type} (m : M A) (h : error -> M A) : M A := fun st =>
  match m st with
  | (Ok a, st') => (Ok a, st')
  | (Thrown e, st') => h e st'
  end.

(** [await] of a request [c] that is answered [r]. *)
Definition request {A : Type} (c : call) (r : result A) : M A := fun st =>
  (r, {| sessionCache := sessionCache st; calls := (calls st ++ [c])%list |}).

Definition lift {A : Type} (r : result A) : M A := fun st => (r, st).

Definition getCached (liAt : string) : M (option Session.Client) := fun st =>
  (Ok (Session.cacheGet liAt (sessionCache st)), st).

Definition setCached (liAt : string) (client : Session.Client) : M unit := fun st =>
  (Ok tt, {| sessionCache := Session.cacheSet liAt client (sessionCache st);
             calls := calls st |}).

Notation "x <~ c ;; k" := (bindM c (fun x => k))
  (at level 61, c at next level, right associativity).

End Effects.

(* ------------------------------------------------------------------ *)
(** ** The server: [buildSession], the two providers and [/screen] *)
(* ------------------------------------------------------------------ *)

Module Server.
Import Values Effects.

(** [process.env.LI_AT_COOKIE || ''] and [process.env.EXA_API_KEY || ''] *)
Record Config : Type := { LI_AT_ENV : string; EXA_API_KEY : string }.

(** *** The education of the structured path *)

(** [/^[\d.]+$/] *)
Definition gradeChar (c : ascii) : bool := (isDigit c || (c =? ".")%char)%bool.
Definition gradeRe : regex := Plus true (Cls gradeChar).

(** [entry.timePeriod ?? entry.dateRange ?? {}], for an education. *)
Definition periodOfEducation (edu : Wire.LinkedInEducation) : Voyager.TimePeriod :=
  match nullish (Wire.timePeriod edu) (Wire.dateRange edu) with
  | Some tp => tp
  | None => Voyager.noPeriod
  end.

(** The body of [educations.map((edu) => ...)] on an education that is as
    the interface declares it; [Untyped.educationOf] below is the body on an
    education as it arrives. *)
Definition educationOf (edu : Wire.LinkedInEducation) : Education :=
  let d := Voyager.datesOf (periodOfEducation edu) in
  let degreeName := nullish (Wire.degreeName edu) (Wire.degree edu) in
  let fieldOfStudy := Wire.fieldOfStudy edu in
  let degreeName :=
    if (negb (falsyString degreeName) &&
        testWhole gradeRe (trim (orEmpty degreeName)))%bool
    then None else degreeName in
  let degreeName :=
    if (falsyString degreeName && negb (falsyString fieldOfStudy))%bool
    then fieldOfStudy
    else if (negb (falsyString degreeName) && negb (falsyString fieldOfStudy) &&
             negb (orEmpty degreeName =? orEmpty fieldOfStudy))%bool
    then Some (orEmpty degreeName ++ ", " ++ orEmpty fieldOfStudy)
    else degreeName in
  let degreeName :=
    if falsyString degreeName then Some "—" else degreeName in
  {| school := nullish (Wire.schoolName edu)
                       (chain (Wire.school edu) Wire.nestedSchoolName);
     degree := degreeName;
     field := fieldOfStudy;
     estart := Voyager.startYear d;
     eend := Voyager.endYear d |}.

(** *** The education as it arrives *)

Module Untyped.

(** An entry of [allEducation]: the school and the field are passed on as
    they are. *)
Record Education : Type :=
  { school : option value;
    degree : option value;
    field : option value;
    estart : option Z;
    eend : option Z }.

(** [entry.timePeriod ?? entry.dateRange ?? {}] *)
Definition periodOfEducation (edu : Wire.Untyped.LinkedInEducation)
  : Voyager.TimePeriod :=
  match nullish (Wire.Untyped.timePeriod edu) (Wire.Untyped.dateRange edu) with
  | Some tp => tp
  | None => Voyager.noPeriod
  end.

(** The body of [educations.map((edu) => ...)].  The test of the grade,
    [degreeName && /^[\d.]+$/.test(degreeName.trim())], calls [trim] on any
    truthy [degreeName]: past it [kept] is the text of a truthy [degreeName]
    that is no grade, and [None] for a grade and for anything falsy, which
    the lines that follow treat alike. *)
Definition educationOf (edu : Wire.Untyped.LinkedInEducation)
  : completion Education :=
  let d := Voyager.datesOf (periodOfEducation edu) in
  let degreeName :=
    nullish (Wire.Untyped.degreeName edu) (Wire.Untyped.degree edu) in
  let fieldOfStudy := Wire.Untyped.fieldOfStudy edu in
  kept <- (if truthyValue degreeName
           then t <- textOf degreeName ;;
                Normal (if testWhole gradeRe (trim t) then None else Some t)
           else Normal None) ;;
  let degreeName :=
    match kept, fieldOfStudy with
    | None, Some f => if truthyValue fieldOfStudy then f else Text "—"
    | None, None => Text "—"
    | Some t, Some f =>
        if (truthyValue fieldOfStudy && negb (sameText t f))%bool
        then Text (t ++ ", " ++ shownValue f)
        else Text t
    | Some t, None => Text t
    end in
  Normal {| school := nullish (Wire.Untyped.schoolName edu)
                              (chain (Wire.Untyped.school edu)
                                     Wire.Untyped.nestedSchoolName);
            degree := Some degreeName;
            field := fieldOfStudy;
            estart := Voyager.startYear d;
            eend := Voyager.endYear d |}.

(** [(v || '').toLowerCase()] *)
Definition lowerOf (v : option value) : completion string :=
  t <- textOf (if truthyValue v then v else Some (Text "")) ;;
  Normal (toLowerCase t).

(** The head of [isHighSchool], where it can throw: the two texts that its
    tests read. *)
Definition isHighSchool (edu : Education) : completion (string * string) :=
  schoolName <- lowerOf (school edu) ;;
  degreeName <- lowerOf (degree edu) ;;
  Normal (schoolName, degreeName).

End Untyped.

(** A key that holds a text or is missing, as the interface declares it. *)
Definition typedText (v : option value) : option (option string) :=
  match v with
  | Some (Text s) => Some (Some s)
  | Some (Other _ _) => None
  | None => Some None
  end.

(** The entry as an [Education], when its school, degree and field are
    texts or missing. *)
Definition typedEducation (edu : Untyped.Education) : option Education :=
  match typedText (Untyped.school edu), typedText (Untyped.degree edu),
        typedText (Untyped.field edu) with
  | Some s, Some d, Some f =>
      Some {| school := s; degree := d; field := f;
              estart := Untyped.estart edu; eend := Untyped.eend edu |}
  | _, _, _ => None
  end.

(** All the entries, when all are so. *)
Fixpoint typedAll (l : list Untyped.Education) : option (list Education) :=
  match l with
  | [] => Some []
  | e :: l' =>
      match typedEducation e, typedAll l' with
      | Some t, Some ts => Some (t :: ts)
      | _, _ => None
      end
  end.

(** *** The details of the current company *)

(** [foundedOn?.year ?? null], [staffCount != null ? String(staffCount) : null]
    and the first industry, or [null] three times without [companyData]. *)
Definition foundedOf (companyData : option Wire.CompanyData) : option Z :=
  chain (chain companyData Wire.foundedOn) Wire.foundedYear.

Definition sizeOf (companyData : option Wire.CompanyData) : option string :=
  option_map numberToString (chain companyData Wire.staffCount).

Definition industryOf (companyData : option Wire.CompanyData) : option string :=
  match companyData with
  | Some d =>
      match Wire.companyIndustries d with
      | Some (i :: _) => Wire.localizedName i
      | _ => None
      end
  | None => None
  end.

(** [if (companyFounded)
       companyAge = new Date().getFullYear()
                    - parseInt(String(companyFounded).slice(0, 4), 10)] *)
Definition companyAge (thisYear : Z) (companyFounded : option Z) : option Z :=
  if falsyNumber companyFounded then None
  else
    match companyFounded with
    | Some f => option_map (fun y => (thisYear - y)%Z)
                           (parseInt (take 4 (numberToString f)))
    | None => None
    end.

(** *** The free-text path: name, headline and location *)

Definition upperWord : regex := (Cls isUpper >> Plus true (Cls isLower))%re.
Definition restOfLine : regex := Plus true (Cls (isNot [nl])).

(** The end of both location patterns: [\s*\n.*?connections], [s] flag. *)
Definition beforeConnections : regex :=
  (Star true Exa.ws >> Chr nl >> Star false anyChar >> Lit "connections")%re.

(** [/\n([^\n]+,\s*[A-Z][a-z]+(?:,\s*[^\n]+)?)\s*\n.*?connections/s] *)
Definition cityStateRe : regex :=
  (Chr nl >>
   Grp 1 (restOfLine >> Chr "," >> Star true Exa.ws >> upperWord >>
          Opt (Chr "," >> Star true Exa.ws >> restOfLine)) >>
   beforeConnections)%re.

(** [/\n([A-Z][a-z]+(?:\s+[A-Z][a-z]+)*(?:\s*\([A-Z]{2}\))?)\s*\n.*?connections/s] *)
Definition cityRe : regex :=
  (Chr nl >>
   Grp 1 (upperWord >> Star true (Plus true Exa.ws >> upperWord) >>
          Opt (Star true Exa.ws >> Chr "(" >> Cls isUpper >> Cls isUpper >>
               Chr ")")) >>
   beforeConnections)%re.

(** [locationMatch ? locationMatch[1].trim() : null] *)
Definition locationOf (text : string) : completion (option string) :=
  let locationMatch :=
    match search cityStateRe text with
    | Some m => Some m
    | None => search cityRe text
    end in
  match locationMatch with
  | Some m => m1 <- defined (group 1 m) ;; Normal (Some (trim m1))
  | None => Normal None
  end.

(** [(content.title || 'Unknown').split('|')[0].trim()] *)
Definition nameOf (title : option string) : completion string :=
  let t := if falsyString title then "Unknown" else orEmpty title in
  first <- defined (nth_error (splitChar "|" t) 0) ;;
  Normal (trim first).

(** [content.title?.split('|')[1]?.trim() || null] *)
Definition headlineOf (title : option string) : option string :=
  let h := chain (chain title (fun t => nth_error (splitChar "|" t) 1))
                 (fun s => Some (trim s)) in
  if falsyString h then None else h.

(** The body of [try] in [getProfileWithExa], after the check of the
    results. *)
Definition profileOfContent (content : Wire.ExaContent)
  : completion Api.ProfileResponse :=
  let text := orEmpty (Wire.text content) in
  name <- nameOf (Wire.title content) ;;
  location <- locationOf text ;;
  p <- Exa.parseProfile text ;;
  Normal {| Api.name := name;
            Api.headline := headlineOf (Wire.title content);
            Api.location := location;
            Api.education := Exa.education p;
            Api.experiences := Exa.profile_experiences p;
            Api.current_company :=
              {| Api.companyName := Exa.current_company_name p;
                 Api.founded := None; Api.age_years := None;
                 Api.size := None; Api.industry := None;
                 Api.position_start := Exa.position_start p |};
            Api.source := Some "exa" |}.

(** *** The structured path: what is read from the profile *)

(** The end of [getLinkedInProfile]: the entities of [included], by the
    text their [$type] holds. *)
Definition dataOf (included : list Wire.Entity) : Wire.LinkedInProfileData :=
  let find := fun type =>
    filter (fun e => includes type (orEmpty (Wire.etype e))) included in
  {| Wire.profile :=
       match find "identity.profile.Profile" with
       | e :: _ => Wire.asProfile e
       | [] => Wire.noProfile
       end;
     Wire.positions := map Wire.asPosition (find "identity.profile.Position");
     Wire.educations := map Wire.asEducation (find "identity.profile.Education") |}.

(** [currentCompanyUniversalName] after the loop over the positions. *)
Definition universalNameOf (data : Wire.LinkedInProfileData) : option string :=
  Voyager.currentCompanyUniversalName (Voyager.mapPositions (Wire.positions data)).

(** The object of the last [res.json] of [/screen], for entries of
    [allEducation] that are as [interface Education] declares them. *)
Definition answerOf (thisYear : Z) (data : Wire.LinkedInProfileData)
           (allEducation : list Education)
           (companyData : option Wire.CompanyData) : Api.ProfileResponse :=
  let profile := Wire.profile data in
  let education := rankEducation degreeKeywordsVoyager allEducation in
  let st := Voyager.mapPositions (Wire.positions data) in
  let companyFounded := foundedOf companyData in
  {| Api.name := trim (orEmpty (Wire.firstName profile) ++ " " ++
                       orEmpty (Wire.lastName profile));
     Api.headline := Wire.headline profile;
     Api.location :=
       nullish (Wire.geoLocationName profile)
         (nullish (Wire.locationName profile)
                  (chain (Wire.location profile) Wire.defaultLocalizedName));
     Api.education := education;
     Api.experiences := Voyager.experiences st;
     Api.current_company :=
       {| Api.companyName := Voyager.currentCompany st;
          Api.founded := companyFounded;
          Api.age_years := companyAge thisYear companyFounded;
          Api.size := sizeOf companyData;
          Api.industry := industryOf companyData;
          Api.position_start := Voyager.currentPositionStart st |};
     Api.source := None |}.

(** The body of the last [res.json]. *)
Definition bodyOf (thisYear : Z) (data : Wire.LinkedInProfileData)
           (allEducation : list Untyped.Education)
           (companyData : option Wire.CompanyData) : Api.Body :=
  match typedAll allEducation with
  | Some all => Api.ProfileBody (answerOf thisYear data all companyData)
  | None => Api.UntypedProfileBody
  end.

Section Handlers.
Variable cfg : Config.
Variable world : World.

(** [let exaClient = null; if (EXA_API_KEY) exaClient = new Exa(EXA_API_KEY)] *)
Definition exaClient : option string :=
  if truthy (EXA_API_KEY cfg) then Some (EXA_API_KEY cfg) else None.

Definition buildSession (liAt : string) : M Session.Client :=
  cached <~ getCached liAt ;;
  match cached with
  | Some client => ret client
  | None =>
      jsession <~ catch (resp <~ request (GetMe liAt) (Ok (me world liAt)) ;;
                         lift (Session.readReply resp))
                        (fun e => throw (Session.rethrow e)) ;;
      let client := Session.clientOf liAt jsession in
      _ <~ setCached liAt client ;;
      ret client
  end.

Definition getLinkedInProfile (linkedinUrl : string) (client : Session.Client)
  : M Wire.LinkedInProfileData :=
  let publicId := Url.extractPublicId linkedinUrl in
  resp <~ request (GetProfile client publicId) (profiles world client publicId) ;;
  let included := match resp with Some l => l | None => [] end in
  ret (dataOf included).

Definition getCompanyDetails (universalName : string) (client : Session.Client)
  : M (option Wire.CompanyData) :=
  if negb (truthy universalName) then ret None
  else
    catch (resp <~ request (GetCompany client universalName)
                           (companies world client universalName) ;;
           let elements := match resp with Some l => l | None => [] end in
           ret (nth_error elements 0))
          (fun _ => ret None).

Definition getProfileWithExa (linkedinUrl : string) : M Api.ProfileResponse :=
  match exaClient with
  | None => throw (Error "Exa API key not configured")
  | Some _ =>
      catch (results <~ request (ExaGetContents linkedinUrl)
                                (getContents world linkedinUrl) ;;
             match results with
             | Some (content :: _) => lift (thrown (profileOfContent content))
             | _ => throw (Error "No results from Exa - profile may be private or unavailable")
             end)
            (fun e => throw e)
  end.

Definition respond (status : nat) (body : Api.Body) : Api.Response :=
  {| Api.status := status; Api.body := body |}.

(** [/screen], from [buildSession] on.  The mapping of the education and
    the filter of high school stand outside every [try], before the lookup
    of the company: what they throw leaves the handler. *)
Definition screenWithCookie (linkedinUrl : string) : M Api.Response :=
  let liAt := LI_AT_ENV cfg in
  session <~ catch (client <~ buildSession liAt ;; ret (inl client))
                   (fun e => ret (inr (respond 500 (Api.ErrorBody
                      ("Failed to initialize LinkedIn session: " ++ messageOf e))))) ;;
  match session with
  | inr response => ret response
  | inl client =>
      fetched <~ catch (data <~ getLinkedInProfile linkedinUrl client ;; ret (inl data))
                       (fun e => ret (inr (respond 500 (Api.ErrorBody
                          ("Failed to fetch LinkedIn profile: " ++ messageOf e))))) ;;
      match fetched with
      | inr response => ret response
      | inl data =>
          allEducation <~
            lift (thrown (mapAll Untyped.educationOf (Wire.educations data))) ;;
          _ <~ lift (thrown (mapAll Untyped.isHighSchool allEducation)) ;;
          companyData <~
            (if falsyString (universalNameOf data) then ret None
             else getCompanyDetails (orEmpty (universalNameOf data)) client) ;;
          ret (respond 200
                 (bodyOf (getFullYear world) data allEducation companyData))
      end
  end.

(** [app.post('/screen', ...)] from the first test of the address on. *)
Definition screenAt (linkedinUrl : string) : M Api.Response :=
  if negb (truthy linkedinUrl)
  then ret (respond 400 (Api.ErrorBody "No LinkedIn URL provided"))
  else if negb (Url.validateLinkedInUrl linkedinUrl)
  then ret (respond 400 (Api.ErrorBody
         "Invalid LinkedIn URL. Must be a valid LinkedIn profile URL"))
  else
    viaExa <~
      (if (truthy (EXA_API_KEY cfg) && negb (absent exaClient))%bool
       then catch (result <~ getProfileWithExa linkedinUrl ;;
                   ret (Some (respond 200 (Api.ProfileBody result))))
                  (fun e =>
                     if negb (truthy (LI_AT_ENV cfg))
                     then ret (Some (respond 500 (Api.ErrorBody
                            ("Exa AI failed: " ++ messageOf e ++
                             ". No LinkedIn cookie configured as fallback."))))
                     else ret None)
       else ret None) ;;
    match viaExa with
    | Some response => ret response
    | None =>
        if negb (truthy (LI_AT_ENV cfg))
        then ret (respond 500 (Api.ErrorBody
               "Server not configured. Need either EXA_API_KEY or LI_AT_COOKIE in .env file."))
        else screenWithCookie linkedinUrl
    end.

(** [app.post('/screen', ...)]; [url] is [req.body?.url], whatever the body
    holds there.  [(req.body?.url ?? '').trim()] stands outside every [try]:
    for a [url] that is no text it throws. *)
Definition screen (url : option value) : M Api.Response :=
  linkedinUrl <~
    lift (thrown (t <- textOf (nullish url (Some (Text ""))) ;; Normal (trim t))) ;;
  screenAt linkedinUrl.

End Handlers.

End Server.

(* ------------------------------------------------------------------ *)
(** ** The command-line variant: the lines of [main] *)
(* ------------------------------------------------------------------ *)

Module CliLines.
Import Values.

(** [date?.year ? String(date.year) : null] *)
Definition formatYear (date : option DateObj) : option string :=
  if falsyNumber (chain date year) then None
  else option_map numberToString (chain date year).

(** [x || d] on a string or [undefined]. *)
Definition orElse (x : option string) (d : string) : string :=
  if falsyString x then d else orEmpty x.

(** [x] in a template: [null] is spelled out. *)
Definition shown (x : option string) : string :=
  match x with
  | Some s => s
  | None => "null"
  end.

(** The line that the loop over [experiences] prints. *)
Definition experienceLine (exp : Cli.Experience) : string :=
  let co := orElse (Cli.companyName exp) "—" in
  let title := orElse (Cli.title exp) "—" in
  let startY := formatYear (chain (Cli.timePeriod exp) Cli.startDate) in
  let endDate := chain (Cli.timePeriod exp) Cli.endDate in
  let endY :=
    match endDate with
    | Some d => formatYear (Some d)
    | None => Some "present"
    end in
  let years :=
    if falsyString startY then orElse endY EmptyString
    else shown startY ++ " – " ++ shown endY in
  let tag := if absent endDate then " ← current" else EmptyString in
  "  • " ++ title ++ " @ " ++ co ++ "  [" ++ years ++ "]" ++ tag.

End CliLines.

(* ------------------------------------------------------------------ *)
(** ** Notions used in the statements *)
(* ------------------------------------------------------------------ *)

(** *** About the matcher *)

(** The groups every successful match of [r] goes through. *)
Fixpoint binds (r : regex) : list nat :=
  match r with
  | Seq r1 r2 => binds r1 ++ binds r2
  | Grp n r' => n :: binds r'
  | _ => []
  end.

(** Every group captured in [caps] is captured in [caps']. *)
Definition keeps (caps caps' : captures) : Prop :=
  forall n, cap n caps <> None -> cap n caps' <> None.

(** [y] is [x] moved on in the same text. *)
Definition advanced (x y : cursor) : Prop :=
  (idx y + String.length (rest y) = idx x + String.length (rest x))%nat /\
  (idx x <= idx y)%nat.

(** A match of [mr] that succeeds has gone on to the continuation, further
    on in the text, with the groups of [must] captured. *)
Definition reaches (mr : matcher) (must : list nat) : Prop :=
  forall x caps k z, mr x caps k = Some z ->
    exists y caps', k y caps' = Some z /\ advanced x y /\ keeps caps caps' /\
                    (forall n, In n must -> cap n caps' <> None).

(** The result of [mr] depends on the continuation further on only. *)
Definition local (mr : matcher) : Prop :=
  forall x caps k k',
    (forall y c, advanced x y -> k y c = k' y c) ->
    mr x caps k = mr x caps k'.

(** [r] without its groups. *)
Fixpoint strip (r : regex) : regex :=
  match r with
  | Seq r1 r2 => Seq (strip r1) (strip r2)
  | Alt r1 r2 => Alt (strip r1) (strip r2)
  | Star g r' => Star g (strip r')
  | Grp _ r' => strip r'
  | _ => r
  end.

(** Two continuations, or two matchers, that fail on the same inputs. *)
Definition failed (o : outcome) : bool :=
  match o with
  | None => true
  | Some _ => false
  end.

Definition agree (k k' : cont) : Prop :=
  forall y c c', failed (k y c) = failed (k' y c').

Definition agreeing (mr mr' : matcher) : Prop :=
  forall x c c' k k', agree k k' -> failed (mr x c k) = failed (mr' x c' k').

(** The cursor at index [i], after [p], before [s]. *)
Definition at_ (i : nat) (p : option ascii) (s : string) : cursor :=
  {| idx := i; prev := p; rest := s |}.

(** The character before the place reached by reading [w]. *)
Fixpoint lastChar (p : option ascii) (w : string) : option ascii :=
  match w with
  | EmptyString => p
  | String c w' => lastChar (Some c) w'
  end.

(** Every character of [s] satisfies [p]. *)
Fixpoint allChars (p : ascii -> bool) (s : string) : bool :=
  match s with
  | EmptyString => true
  | String c s' => (p c && allChars p s')%bool
  end.

(** [s] does not go on with a character that satisfies [p]. *)
Definition stops (p : ascii -> bool) (s : string) : bool :=
  match s with
  | EmptyString => true
  | String c _ => negb (p c)
  end.

(** *** About texts *)

(** The first character is there and is not white space. *)
Definition startsSolid (s : string) : bool :=
  match s with
  | EmptyString => false
  | String c _ => negb (isSpace c)
  end.

(** The last character is there and is not white space. *)
Fixpoint endsSolid (s : string) : bool :=
  match s with
  | EmptyString => false
  | String c EmptyString => negb (isSpace c)
  | String _ s' => endsSolid s'
  end.

(** [s] begins with the word "at": the two letters, then white space or
    the end of [s]. *)
Definition atWord (s : string) : bool :=
  (startsWith "at" s &&
   match s with
   | String _ (String _ (String c _)) => isSpace c
   | _ => true
   end)%bool.

(** No white space of [s] is followed by the word "at": [s] holds nothing
    that the pattern of an education line takes for the separator of degree
    and school. *)
Fixpoint unbroken (s : string) : bool :=
  match s with
  | EmptyString => true
  | String c s' => (negb (isSpace c && atWord s') && unbroken s')%bool
  end.

(** White space within a line: any white space but the line feed. *)
Definition gapChar (c : ascii) : bool := (isSpace c && negb (c =? nl)%char)%bool.

(** White space within a line, and not empty. *)
Definition blank (s : string) : bool := (truthy s && allChars gapChar s)%bool.

(** The white space of JavaScript outside ASCII, in UTF-8: U+00A0, U+1680,
    U+2000 to U+200A, U+2028, U+2029, U+202F, U+205F, U+3000 and U+FEFF. *)
Definition utf8 (l : list N) : string :=
  fold_right (fun n s => String (ascii_of_N n) s) EmptyString l.

Definition wideSpaces : list string :=
  map utf8
    [[194; 160]; [225; 154; 128];
     [226; 128; 128]; [226; 128; 129]; [226; 128; 130]; [226; 128; 131];
     [226; 128; 132]; [226; 128; 133]; [226; 128; 134]; [226; 128; 135];
     [226; 128; 136]; [226; 128; 137]; [226; 128; 138];
     [226; 128; 168]; [226; 128; 169]; [226; 128; 175]; [226; 129; 159];
     [227; 128; 128]; [239; 187; 191]]%N.

(** [s] holds none of them: its white space and its line breaks are those
    of [isSpace] and [isLineTerminator], and on [s] the patterns and [trim]
    of this file are those of JavaScript. *)
Definition narrow (s : string) : bool :=
  forallb (fun w => negb (includes w s)) wideSpaces.

(** A text that can stand for a degree or a school: on one line, neither
    empty nor bounded by white space. *)
Definition plain (s : string) : bool :=
  (allChars dot s && startsSolid s && endsSolid s)%bool.

(** A line break, and any character but it. *)
Definition newline : string := String nl EmptyString.

Definition notNl (c : ascii) : bool := negb (c =? nl)%char.

(** [^] under the [m] flag holds at [p]. *)
Definition bol (p : option ascii) : bool :=
  match p with None => true | Some c => isLineTerminator c end.

(** The text [s], which comes after [p], has a header line ["## name..."]. *)
Fixpoint hasHeader (name : string) (p : option ascii) (s : string) : bool :=
  ((bol p && startsWith ("## " ++ name) s) ||
   match s with
   | EmptyString => false
   | String c s' => hasHeader name (Some c) s'
   end)%bool.

(** *** About experience blocks *)

(** What [parseBlock] computes once the title and the date line are there. *)
Definition entryOf (firstLine title company : string) (dateMatch : found)
  : Experience :=
  let endInfo := orEmpty (group 3 dateMatch) in
  let endYear :=
    if endInfo =? "Present" then None
    else if truthy (orEmpty (group 5 dateMatch))
         then parseInt (orEmpty (group 5 dateMatch)) else None in
  {| company := Some company; title := Some title;
     start := parseInt (orEmpty (group 2 dateMatch));
     end_ := endYear;
     current := (includes "(Current)" firstLine || (endInfo =? "Present")
                 || falsyNumber endYear)%bool |}.

(** The date match of a block: the leftmost match in its first line that
    holds a date range. *)
Definition matchedDate (block : string) : option found :=
  match Exa.findDateLine (Exa.blockLines block) with
  | Some dateInfo => search Exa.dateRe dateInfo
  | None => None
  end.

(** *** About education lines *)

(** What a line adds to the list of the education. *)
Definition recorded (line : string) : list Education :=
  match Exa.parseEducationLine line with
  | Normal (Some e) => [e]
  | _ => []
  end.

(** The line is one that the loop over the education reads: it begins, white
    space apart, with the mark of an entry. *)
Definition headed (line : string) : bool := startsWith "###" (trim line).

(** Lines put together to a text, a line feed between two of them. *)
Fixpoint joinLines (lines : list string) : string :=
  match lines with
  | [] => EmptyString
  | [l] => l
  | l :: ls => l ++ String nl (joinLines ls)
  end.

(** A line of a text split at the line feeds, with no white space outside
    ASCII. *)
Definition oneLine (l : string) : bool := (allChars notNl l && narrow l)%bool.

(** [$1], the replacement of the link markup. *)
Definition firstGroup (caps : captures) : string := orEmpty (cap 1 caps).

(** The line of an entry: the mark, the degree, the word "at" between two
    gaps, the school. *)
Definition educationLine (degree gap1 gap2 school : string) : string :=
  "### " ++ degree ++ gap1 ++ "at" ++ gap2 ++ school.

(** *** Inputs *)

(** An entry of the free-text path. *)
Definition edu (s d : string) : Education :=
  {| school := Some s; degree := Some d; field := None;
     estart := None; eend := None |}.

(** An Education section whose one line has the word "at" twice. *)
Definition scholarText : string :=
  "## Education
### Scholar at Large at MIT
".

(** An Education section with two entries, a line that does not begin with
    the mark, and a line with the mark that the pattern does not match. *)
Definition educationText : string :=
  "## Education
### Diploma in atmospheric science at [MIT]<web_link>
Studied clouds ### for a year
### Physics, 2019
### MBA at Stanford University
## Experience
".

(** A position dated under the [start]/[end] naming, with no end. *)
Definition position2019 : Voyager.LinkedInPosition :=
  {| Voyager.companyName := Some "Acme"; Voyager.positionTitle := Some "Engineer";
     Voyager.timePeriod := None;
     Voyager.dateRange := Some {| Voyager.startDate := None; Voyager.endDate := None;
                          Voyager.tstart := Some {| year := Some 2019%Z; month := Some 3%Z |};
                          Voyager.tend := None |};
     Voyager.positionCompany := None |}.

(** The marker with a closed date range: an input of the free-text path on
    which the entry is current and keeps its end year. *)
Definition markedClosedRange : string :=
  "## Experience
### Engineer at Acme (Current)
Jan 2018 - Dec 2020
".

(** A first position that is current and has no company name, then a
    second current position at Acme. *)
Definition founderThenAcme : list Voyager.LinkedInPosition :=
  [ {| Voyager.companyName := None;
       Voyager.positionTitle := Some "Founder";
       Voyager.timePeriod :=
         Some {| Voyager.startDate := Some {| year := Some 2022%Z; month := Some 1%Z |};
                 Voyager.endDate := None;
                 Voyager.tstart := None; Voyager.tend := None |};
       Voyager.dateRange := None;
       Voyager.positionCompany := None |};
    {| Voyager.companyName := Some "Acme";
       Voyager.positionTitle := Some "Engineer";
       Voyager.timePeriod :=
         Some {| Voyager.startDate := Some {| year := Some 2021%Z; month := Some 6%Z |};
                 Voyager.endDate := None;
                 Voyager.tstart := None; Voyager.tend := None |};
       Voyager.dateRange := None;
       Voyager.positionCompany := None |} ].

(** The same two positions as free text; the company of the first is an
    empty pair of brackets. *)
Definition founderThenAcmeText : string :=
  "## Experience
### Founder at [ ] (Current)
Jan 2022 - Present
### Engineer at Acme (Current)
Jun 2021 - Present
".

(** And as the command-line variant receives them. *)
Definition founderThenAcmeCli : list Cli.Experience :=
  [ {| Cli.companyName := None; Cli.title := Some "Founder";
       Cli.timePeriod :=
         Some {| Cli.startDate := Some {| year := Some 2022%Z; month := Some 1%Z |};
                 Cli.endDate := None |} |};
    {| Cli.companyName := Some "Acme"; Cli.title := Some "Engineer";
       Cli.timePeriod :=
         Some {| Cli.startDate := Some {| year := Some 2021%Z; month := Some 6%Z |};
                 Cli.endDate := None |} |} ].

(** *** About the rest of the server *)

(** Every character that [r] can consume satisfies [P]. *)
Fixpoint within (P : ascii -> bool) (r : regex) : Prop :=
  match r with
  | Chr c => P c = true
  | Cls p => forall c, p c = true -> P c = true
  | Seq r1 r2 => within P r1 /\ within P r2
  | Alt r1 r2 => within P r1 /\ within P r2
  | Star _ r' => within P r'
  | Grp _ r' => within P r'
  | Eps => True
  | Bol => True
  end.

(** A match of [mr] that succeeds has consumed a text [w] of characters
    that satisfy [P], and has gone on to the continuation after it. *)
Definition spans (P : ascii -> bool) (mr : matcher) : Prop :=
  forall x caps k z, mr x caps k = Some z ->
    exists w y caps', k y caps' = Some z /\ rest x = w ++ rest y /\
                      idx y = (idx x + String.length w)%nat /\
                      allChars P w = true.

(** [s] without the character [c]. *)
Fixpoint discard (c : ascii) (s : string) : string :=
  match s with
  | EmptyString => EmptyString
  | String a s' => if (a =? c)%char then discard c s' else String a (discard c s')
  end.

(** What the value of the session cookie is made of. *)
Definition tokenChar : ascii -> bool := isNot [";"%char; ","%char].

(** The store before any request. *)
Definition freshStore : Effects.Store :=
  {| Effects.sessionCache := []; Effects.calls := [] |}.

(** The store after the request [c]. *)
Definition afterCall (st : Effects.Store) (c : Effects.call) : Effects.Store :=
  {| Effects.sessionCache := Effects.sessionCache st;
     Effects.calls := (Effects.calls st ++ [c])%list |}.

(** The address [/screen] works with. *)
Definition addressOf (url : option string) : string := trim (orEmpty url).

(** What the free-text provider has failed with, if it has: the message of
    its error, or of the error for an answer without results. *)
Definition exaFailure (answer : Values.result (option (list Wire.ExaContent)))
  : option string :=
  match answer with
  | Values.Ok (Some (_ :: _)) => None
  | Values.Ok _ =>
      Some "No results from Exa - profile may be private or unavailable"
  | Values.Thrown e => Some (Values.messageOf e)
  end.

(** A server with the cookie of [cfg] and no key for the free-text
    provider. *)
Definition withoutExa (cfg : Server.Config) : Server.Config :=
  {| Server.LI_AT_ENV := Server.LI_AT_ENV cfg; Server.EXA_API_KEY := EmptyString |}.

(** The company details of a profile are all [null]. *)
Definition noDetails (c : Api.CurrentCompany) : Prop :=
  Api.founded c = None /\ Api.age_years c = None /\
  Api.size c = None /\ Api.industry c = None.

(** A request to LinkedIn. *)
Definition toLinkedIn (c : Effects.call) : bool :=
  match c with
  | Effects.ExaGetContents _ => false
  | _ => true
  end.

(** What the lookup of the current company of [data] gives [/screen]. *)
Definition lookedUp (world : Effects.World) (client : Session.Client)
           (data : Wire.LinkedInProfileData) : option Wire.CompanyData :=
  match Server.universalNameOf data with
  | Some universalName =>
      match Effects.companies world client universalName with
      | Values.Ok (Some (d :: _)) =>
          if truthy universalName then Some d else None
      | _ => None
      end
  | None => None
  end.

(** The answer has a profile and status 200, or a message and status 400
    or 500. *)
Definition wellFormed (r : Api.Response) : Prop :=
  match Api.body r with
  | Api.ProfileBody _ => Api.status r = 200
  | Api.UntypedProfileBody => Api.status r = 200
  | Api.ErrorBody _ => Api.status r = 400 \/ Api.status r = 500
  end.

(** The key [url] of a body that holds a text there, or nothing. *)
Definition sent (url : option string) : option Values.value :=
  option_map Values.Text url.

(** The value is a text, or is missing. *)
Definition isText (v : option Values.value) : bool :=
  match v with
  | Some (Values.Other _ _) => false
  | _ => true
  end.

(** The value is truthy and no text: a method of texts called on it
    throws, and [v || ''] is the value itself. *)
Definition unfit (v : option Values.value) : bool :=
  (Values.truthyValue v && negb (isText v))%bool.

(** The degree sent is taken for a grade. *)
Definition gradeSent (v : option Values.value) : bool :=
  match v with
  | Some (Values.Text t) => Values.testWhole Server.gradeRe (trim t)
  | _ => false
  end.

(** An education that the handler reads without an error: the degree sent
    and the school are not truthy values that are no text, and neither is
    the field of study where it stands for the degree, which is where no
    degree is sent or a grade is. *)
Definition readable (edu : Wire.Untyped.LinkedInEducation) : bool :=
  let degreeName :=
    nullish (Wire.Untyped.degreeName edu) (Wire.Untyped.degree edu) in
  let schoolName :=
    nullish (Wire.Untyped.schoolName edu)
            (chain (Wire.Untyped.school edu) Wire.Untyped.nestedSchoolName) in
  (negb (unfit degreeName) && negb (unfit schoolName) &&
   negb ((negb (Values.truthyValue degreeName) || gradeSent degreeName) &&
         unfit (Wire.Untyped.fieldOfStudy edu)))%bool.

(** An education that is as the interface declares it, as it arrives. *)
Definition untyped (edu : Wire.LinkedInEducation) : Wire.Untyped.LinkedInEducation :=
  {| Wire.Untyped.schoolName := option_map Values.Text (Wire.schoolName edu);
     Wire.Untyped.school :=
       option_map (fun s => {| Wire.Untyped.nestedSchoolName :=
                                 option_map Values.Text (Wire.nestedSchoolName s) |})
                  (Wire.school edu);
     Wire.Untyped.degreeName := option_map Values.Text (Wire.degreeName edu);
     Wire.Untyped.degree := option_map Values.Text (Wire.degree edu);
     Wire.Untyped.fieldOfStudy := option_map Values.Text (Wire.fieldOfStudy edu);
     Wire.Untyped.timePeriod := Wire.timePeriod edu;
     Wire.Untyped.dateRange := Wire.dateRange edu |}.

(** Every education that the world sends for a profile is readable. *)
Definition readableWorld (world : Effects.World) : Prop :=
  forall client publicId included,
    Effects.profiles world client publicId = Values.Ok (Some included) ->
    forallb readable (Wire.educations (Server.dataOf included)) = true.

(** What the handler leaves behind: an answer that is well formed, or a
    [TypeError]. *)
Definition answeredOrTypeError (r : Values.result Api.Response) : Prop :=
  match r with
  | Values.Ok response => wellFormed response
  | Values.Thrown e => e = Values.Error Values.typeErrorMessage
  end.


(** An education without a key. *)
Definition noEducation : Wire.Untyped.LinkedInEducation :=
  {| Wire.Untyped.schoolName := None; Wire.Untyped.school := None;
     Wire.Untyped.degreeName := None; Wire.Untyped.degree := None;
     Wire.Untyped.fieldOfStudy := None;
     Wire.Untyped.timePeriod := None; Wire.Untyped.dateRange := None |}.




(** The statuses of [/voyager/api/me] that [buildSession] words itself, and
    the words. *)
Definition refusalMessage (status : Z) : option string :=
  if ((status =? 301) || (status =? 302))%Z%bool then Some Session.redirected
  else if (status =? 401)%Z then Some Session.unauthorized
  else if (status =? 403)%Z then Some Session.forbidden
  else None.

(* ------------------------------------------------------------------ *)
(** ** The matcher: what a successful match has captured *)
(* ------------------------------------------------------------------ *)

Lemma keeps_refl caps : keeps caps caps.
Proof. intros n H; exact H. Qed.

Lemma keeps_trans a b c : keeps a b -> keeps b c -> keeps a c.
Proof. intros H1 H2 n H; apply H2, H1, H. Qed.

Lemma keeps_cons n s caps : keeps caps ((n, s) :: caps).
Proof.
  intros m H; simpl. destruct (Nat.eqb n m); [discriminate | exact H].
Qed.

Lemma cap_head n s caps : cap n ((n, s) :: caps) <> None.
Proof. simpl. rewrite Nat.eqb_refl. discriminate. Qed.

Lemma advanced_refl x : advanced x x.
Proof. split; reflexivity. Qed.

Lemma advanced_trans x y z : advanced x y -> advanced y z -> advanced x z.
Proof. unfold advanced. intros [H1 H2] [H3 H4]. split; lia. Qed.

Lemma advanced_step x a s : rest x = String a s -> advanced x (step a s x).
Proof. unfold advanced, step. intros ->. simpl. split; lia. Qed.

Create HintDb reach.
#[local] Hint Resolve keeps_refl keeps_trans advanced_refl advanced_trans
  advanced_step : reach.

Ltac reached y c :=
  exists y, c; split; [|split; [|split]]; eauto with reach;
  try (intros ? []).

Lemma repeatMatcher_reaches g mr :
  reaches mr [] -> forall n, reaches (repeatMatcher g mr n) [].
Proof.
  intros Hmr n; induction n as [|n IH]; intros x caps k z H; simpl in H.
  - reached x caps.
  - assert (Again : forall z', mr x caps
        (fun y caps' => if Nat.eqb (idx y) (idx x) then None
                        else repeatMatcher g mr n y caps' k) = Some z' ->
        exists y caps', k y caps' = Some z' /\ advanced x y /\
                        keeps caps caps' /\
                        (forall n, In n [] -> cap n caps' <> None)).
    { intros z' E. apply Hmr in E. destruct E as (y & c1 & E & A1 & K1 & _).
      destruct (Nat.eqb (idx y) (idx x)); [discriminate|].
      apply IH in E. destruct E as (y' & c2 & E & A2 & K2 & _).
      reached y' c2. }
    destruct g.
    + destruct (mr x caps _) as [z'|] eqn:E.
      * injection H as <-. apply Again. reflexivity.
      * reached x caps.
    + destruct (k x caps) as [z'|] eqn:E.
      * injection H as <-. reached x caps.
      * apply Again, H.
Qed.

Lemma reaches_weaken mr must : reaches mr must -> reaches mr [].
Proof.
  intros H x caps k z E. apply H in E. destruct E as (y & c & E & A & K & _).
  reached y c.
Qed.

Lemma rmatch_reaches r : reaches (rmatch r) (binds r).
Proof.
  induction r as [ |c|p|r1 IH1 r2 IH2|r1 IH1 r2 IH2|g r IH|n r IH| ];
    intros x caps k z H; simpl in H.
  - reached x caps.
  - destruct (rest x) as [|a s] eqn:R; [discriminate|].
    destruct (a =? c)%char; [|discriminate].
    reached (step a s x) caps.
  - destruct (rest x) as [|a s] eqn:R; [discriminate|].
    destruct (p a); [|discriminate].
    reached (step a s x) caps.
  - apply IH1 in H. destruct H as (y & c1 & H & A1 & K1 & M1).
    apply IH2 in H. destruct H as (y' & c2 & H & A2 & K2 & M2).
    exists y', c2; split; [|split; [|split]]; eauto with reach.
    simpl. intros n Hn. apply in_app_or in Hn. destruct Hn; auto.
  - destruct (rmatch r1 x caps k) as [z'|] eqn:E.
    + injection H as <-. apply (reaches_weaken _ _ IH1) in E. exact E.
    + apply (reaches_weaken _ _ IH2) in H. exact H.
  - apply (repeatMatcher_reaches g _ (reaches_weaken _ _ IH)) in H. exact H.
  - apply IH in H. destruct H as (y & c1 & H & A & K & M).
    eexists y, (_ :: c1); split; [|split; [|split]]; [exact H | exact A | |].
    + eapply keeps_trans; [exact K | apply keeps_cons].
    + simpl. intros m [<- | Hm]; [apply cap_head | apply keeps_cons, M, Hm].
  - destruct (prev x) as [c|].
    + destruct (isLineTerminator c); [|discriminate]. reached x caps.
    + reached x caps.
Qed.

(** *** The counter of a quantifier is large enough *)

Lemma repeatMatcher_local g mr :
  local mr -> forall n, local (repeatMatcher g mr n).
Proof.
  intros Hmr n; induction n as [|n IH]; intros x caps k k' H; simpl.
  - apply H, advanced_refl.
  - rewrite (H x caps (advanced_refl x)).
    rewrite (Hmr x caps _
      (fun y caps' => if Nat.eqb (idx y) (idx x) then None
                      else repeatMatcher g mr n y caps' k')); [reflexivity|].
    intros y c A. destruct (Nat.eqb (idx y) (idx x)); [reflexivity|].
    apply IH. intros y' c' A'. apply H. eauto with reach.
Qed.

Lemma rmatch_local r : local (rmatch r).
Proof.
  induction r as [ |c|p|r1 IH1 r2 IH2|r1 IH1 r2 IH2|g r IH|n r IH| ];
    intros x caps k k' H; simpl.
  - apply H, advanced_refl.
  - destruct (rest x) as [|a s] eqn:R; [reflexivity|].
    destruct (a =? c)%char; [|reflexivity]. apply H, advanced_step, R.
  - destruct (rest x) as [|a s] eqn:R; [reflexivity|].
    destruct (p a); [|reflexivity]. apply H, advanced_step, R.
  - apply IH1. intros y c A. apply IH2. intros y' c' A'.
    apply H. eauto with reach.
  - rewrite (IH1 x caps k k' H), (IH2 x caps k k' H). reflexivity.
  - apply repeatMatcher_local; assumption.
  - apply IH. intros y c A. apply H, A.
  - rewrite (H x caps (advanced_refl x)). reflexivity.
Qed.

(** Any counter at or above the length of the rest gives the result of the
    next one: the quantifier never runs out of iterations. *)
Lemma repeatMatcher_enough g r k n : forall x caps,
  (String.length (rest x) <= n)%nat ->
  repeatMatcher g (rmatch r) n x caps k =
  repeatMatcher g (rmatch r) (S n) x caps k.
Proof.
  induction n as [|n IH]; intros x caps L.
  - assert (N : rmatch r x caps
        (fun y caps' => if Nat.eqb (idx y) (idx x) then None
                        else repeatMatcher g (rmatch r) 0 y caps' k) = None).
    { destruct (rmatch r x caps _) as [z|] eqn:E; [|reflexivity].
      apply (reaches_weaken _ _ (rmatch_reaches r)) in E.
      destruct E as (y & c & E & [A1 A2] & _).
      replace (Nat.eqb (idx y) (idx x)) with true in E; [discriminate|].
      symmetry. apply Nat.eqb_eq. lia. }
    cbn [repeatMatcher] in *. rewrite N.
    destruct g; destruct (k x caps); reflexivity.
  - change (repeatMatcher g (rmatch r) (S (S n)) x caps k)
      with (let d : cont := fun y caps' =>
              if Nat.eqb (idx y) (idx x) then None
              else repeatMatcher g (rmatch r) (S n) y caps' k in
            if g then match rmatch r x caps d with
                      | Some z => Some z | None => k x caps end
            else match k x caps with
                 | Some z => Some z | None => rmatch r x caps d end).
    cbn [repeatMatcher]. cbv zeta.
    rewrite (rmatch_local r x caps _
      (fun y caps' => if Nat.eqb (idx y) (idx x) then None
                      else repeatMatcher g (rmatch r) (S n) y caps' k));
      [reflexivity|].
    intros y c [A1 A2]. destruct (Nat.eqb (idx y) (idx x)) eqn:E;
      [reflexivity|].
    apply Nat.eqb_neq in E. apply IH. lia.
Qed.

Lemma rmatch_Star_counter g r k x caps n :
  (String.length (rest x) <= n)%nat ->
  repeatMatcher g (rmatch r) n x caps k = rmatch (Star g r) x caps k.
Proof.
  intros L. simpl. induction L as [|n L IH]; [reflexivity|].
  rewrite <- IH. symmetry. apply repeatMatcher_enough. exact L.
Qed.

Lemma exec_binds r p s y caps n :
  exec r p s = Some (y, caps) -> In n (binds r) -> cap n caps <> None.
Proof.
  unfold exec; intros H Hn. apply rmatch_reaches in H.
  destruct H as (y' & c & H & _ & _ & M). unfold accept in H.
  injection H as -> ->. auto.
Qed.

Lemma searchFrom_binds r n : In n (binds r) ->
  forall s p m, searchFrom r p s = Some m -> group n m <> None.
Proof.
  intros Hn s; induction s as [|c s IH]; intros p m H; simpl in H.
  - destruct (exec r p "") as [[y caps]|] eqn:E; [|discriminate].
    injection H as <-. unfold group; simpl. eapply exec_binds; eauto.
  - destruct (exec r p (String c s)) as [[y caps]|] eqn:E.
    + injection H as <-. unfold group; simpl. eapply exec_binds; eauto.
    + destruct (searchFrom r (Some c) s) as [m'|] eqn:E'; [|discriminate].
      injection H as <-. unfold group; simpl. apply (IH _ _ E').
Qed.

Lemma search_binds r n s m :
  In n (binds r) -> search r s = Some m -> exists t, group n m = Some t.
Proof.
  intros Hn H. pose proof (searchFrom_binds r n Hn _ _ _ H) as D.
  destruct (group n m) as [t|]; [eauto | congruence].
Qed.

(* ------------------------------------------------------------------ *)
(** ** The free-text parser never throws *)
(* ------------------------------------------------------------------ *)

Module ExaTotal.
Import Exa.

Ltac bound m n :=
  let t := fresh "g" in
  let E := fresh "E" in
  match goal with
  | H : search ?r _ = Some m |- _ =>
      destruct (search_binds r n _ m ltac:(simpl; tauto) H) as [t E];
      rewrite E; simpl
  end.

Lemma parseEducationLine_total line :
  exists r, parseEducationLine line = Normal r.
Proof.
  unfold parseEducationLine.
  destruct (search eduLineRe line) as [m|] eqn:H; [|eauto].
  bound m 1. bound m 2. eauto.
Qed.

Lemma parseEducationLines_total lines :
  forall acc, exists r, parseEducationLines lines acc = Normal r.
Proof.
  induction lines as [|l ls IH]; intros acc; simpl; [eauto|].
  destruct (parseEducationLine_total l) as [r ->]. simpl. apply IH.
Qed.

Lemma parseTitle_total firstLine :
  exists r, parseTitle firstLine = Normal r.
Proof.
  unfold parseTitle.
  destruct (search titleBracketRe firstLine) as [m|] eqn:H.
  - bound m 1. bound m 2. eauto.
  - destruct (search titleSimpleRe firstLine) as [m|] eqn:H'; [|eauto].
    bound m 1. bound m 2. eauto.
Qed.

Lemma parseBlock_total block :
  exists r, parseBlock block = Normal r.
Proof.
  unfold parseBlock.
  destruct (List.length (blockLines block) <? 2)%nat; [eauto|].
  destruct (parseTitle_total (hd "" (blockLines block))) as [[[t c]|] ->];
    simpl; [|eauto].
  destruct (findDateLine (blockLines block)) as [d|]; [|eauto].
  destruct (negb (truthy d)); [eauto|].
  destruct (search dateRe d) as [m|]; eauto.
Qed.

Lemma parseBlocks_total blocks :
  forall st, exists r, parseBlocks blocks st = Normal r.
Proof.
  induction blocks as [|b bs IH]; intros st; simpl; [eauto|].
  destruct (parseBlock_total b) as [r ->]. simpl. apply IH.
Qed.

Lemma parseProfile_total text :
  exists p, parseProfile text = Normal p.
Proof.
  unfold parseProfile, parseEducation, parseExperience.
  destruct (parseEducationLines_total
              (eduLines (findSection "Education" (sections text))) []) as [e ->].
  destruct (parseBlocks_total
              (expBlocks (findSection "Experience" (sections text))) expInit)
    as [st ->].
  simpl. eauto.
Qed.

End ExaTotal.

(* ------------------------------------------------------------------ *)
(** ** Sorting by a rank, highest first *)
(* ------------------------------------------------------------------ *)

Section SortByRank.
Variable A : Type.
Variable rk : A -> Z.

Let cmp (a b : A) : Z := (rk b - rk a)%Z.
Let above (a b : A) : Prop := (rk b <= rk a)%Z.
Let ranked (r : Z) (a : A) : bool := (rk a =? r)%Z.

Lemma insertBy_perm x l : Permutation (x :: l) (insertBy cmp x l).
Proof.
  induction l as [|y l IH]; simpl; [apply Permutation_refl|].
  destruct (cmp x y <=? 0)%Z; [apply Permutation_refl|].
  eapply perm_trans; [apply perm_swap | apply perm_skip, IH].
Qed.

Lemma sortBy_perm l : Permutation l (sortBy cmp l).
Proof.
  induction l as [|x l IH]; simpl; [constructor|].
  eapply perm_trans; [apply perm_skip, IH | apply insertBy_perm].
Qed.

Lemma insertBy_sorted x l :
  StronglySorted above l -> StronglySorted above (insertBy cmp x l).
Proof.
  induction 1 as [|y l Hl IH Hy]; simpl.
  - repeat constructor.
  - destruct (cmp x y <=? 0)%Z eqn:E.
    + apply Z.leb_le in E. unfold cmp in E.
      constructor; [constructor; assumption|].
      constructor; [unfold above; lia|].
      eapply Forall_impl; [|exact Hy]. unfold above; intros; lia.
    + apply Z.leb_gt in E. unfold cmp in E.
      constructor; [exact IH|].
      eapply Permutation_Forall; [apply insertBy_perm|].
      constructor; [unfold above; lia | exact Hy].
Qed.

Lemma sortBy_sorted l : StronglySorted above (sortBy cmp l).
Proof.
  induction l as [|x l IH]; simpl; [constructor | apply insertBy_sorted, IH].
Qed.

Lemma insertBy_above x l : Forall (above x) l -> insertBy cmp x l = x :: l.
Proof.
  destruct 1 as [|y l Hy _]; simpl; [reflexivity|].
  unfold above in Hy. replace (cmp x y <=? 0)%Z with true; [reflexivity|].
  symmetry; apply Z.leb_le; unfold cmp; lia.
Qed.

Lemma sortBy_of_sorted l : StronglySorted above l -> sortBy cmp l = l.
Proof.
  induction 1 as [|x l Hl IH Hx]; simpl; [reflexivity|].
  rewrite IH. apply insertBy_above, Hx.
Qed.

Lemma sortBy_idempotent l : sortBy cmp (sortBy cmp l) = sortBy cmp l.
Proof. apply sortBy_of_sorted, sortBy_sorted. Qed.

Lemma insertBy_stable r x l :
  filter (ranked r) (insertBy cmp x l) = filter (ranked r) (x :: l).
Proof.
  induction l as [|y l IH]; [reflexivity|].
  simpl insertBy. destruct (cmp x y <=? 0)%Z eqn:E; [reflexivity|].
  apply Z.leb_gt in E. unfold cmp in E.
  change (filter (ranked r) (y :: insertBy cmp x l))
    with (if ranked r y then y :: filter (ranked r) (insertBy cmp x l)
          else filter (ranked r) (insertBy cmp x l)).
  rewrite IH. simpl. unfold ranked.
  destruct (rk y =? r)%Z eqn:Ey, (rk x =? r)%Z eqn:Ex; try reflexivity.
  apply Z.eqb_eq in Ey, Ex. lia.
Qed.

Lemma sortBy_stable r l :
  filter (ranked r) (sortBy cmp l) = filter (ranked r) l.
Proof.
  induction l as [|x l IH]; [reflexivity|].
  simpl sortBy. rewrite insertBy_stable. simpl. rewrite IH. reflexivity.
Qed.
End SortByRank.

(* ------------------------------------------------------------------ *)
(** ** The education filter *)
(* ------------------------------------------------------------------ *)

Section FilterFacts.
Variable kw : list string.

Lemma collegeEducation_all all :
  Forall (fun e => isHighSchool kw e = true) all -> collegeEducation kw all = [].
Proof.
  induction 1 as [|e l He _ IH]; [reflexivity|].
  unfold collegeEducation in *. simpl. rewrite He. simpl. exact IH.
Qed.

Lemma collegeEducation_some all :
  Exists (fun e => isHighSchool kw e = false) all ->
  (0 <? List.length (collegeEducation kw all))%nat = true.
Proof.
  induction 1 as [e l He | e l _ IH]; unfold collegeEducation in *; simpl.
  - rewrite He. reflexivity.
  - destruct (negb (isHighSchool kw e)); [reflexivity | exact IH].
Qed.

Lemma collegeEducation_fixed all :
  collegeEducation kw (collegeEducation kw all) = collegeEducation kw all.
Proof.
  unfold collegeEducation. induction all as [|e l IH]; [reflexivity|].
  simpl. destruct (negb (isHighSchool kw e)) eqn:E; simpl; rewrite ?E, IH;
    reflexivity.
Qed.

Lemma filteredEducation_cases all :
  (filteredEducation kw all = collegeEducation kw all /\
   Exists (fun e => isHighSchool kw e = false) all) \/
  (filteredEducation kw all = all /\
   Forall (fun e => isHighSchool kw e = true) all).
Proof.
  destruct (Forall_Exists_dec (fun e => isHighSchool kw e = true)
              (fun e => bool_dec (isHighSchool kw e) true) all) as [F|E].
  - right. split; [|exact F]. unfold filteredEducation.
    rewrite (collegeEducation_all _ F). reflexivity.
  - assert (E' : Exists (fun e => isHighSchool kw e = false) all).
    { eapply Exists_impl; [|exact E]. intros e He.
      apply not_true_is_false, He. }
    left. split; [|exact E']. unfold filteredEducation.
    rewrite (collegeEducation_some _ E'). reflexivity.
Qed.
End FilterFacts.

(* ------------------------------------------------------------------ *)
(** ** The date normaliser *)
(* ------------------------------------------------------------------ *)

Module VoyagerFacts.
Import Voyager.

(** C6.  For every entry, [parseDates] reads its period under both key
    namings: the year under [startDate] (resp. [endDate]) wins when it is
    there, otherwise the year under [start] (resp. [end]) is returned, and
    the year is absent when neither naming gives one; [isCurrent] is true
    exactly when no end value is present under either naming. *)
Theorem parseDates_both_namings (entry : LinkedInPosition) :
  let tp := periodOf entry in
  let d := parseDates entry in
  (forall y, chain (startDate tp) year = Some y -> startYear d = Some y) /\
  (chain (startDate tp) year = None -> startYear d = chain (tstart tp) year) /\
  (forall y, chain (endDate tp) year = Some y -> endYear d = Some y) /\
  (chain (endDate tp) year = None -> endYear d = chain (tend tp) year) /\
  (isCurrent d = true <-> endDate tp = None /\ tend tp = None).
Proof.
  intros tp d. subst d. unfold parseDates, datesOf. fold tp. simpl.
  repeat split.
  - intros y ->. reflexivity.
  - intros ->. reflexivity.
  - intros y ->. reflexivity.
  - intros ->. reflexivity.
  - destruct (endDate tp); [discriminate | reflexivity].
  - destruct (endDate tp); [discriminate|].
    destruct (tend tp); [discriminate | reflexivity].
  - intros [-> ->]. reflexivity.
Qed.

Lemma parseDates_both_namings_witness :
  startYear (parseDates position2019) = Some 2019%Z /\
  isCurrent (parseDates position2019) = true.
Proof.
  destruct (parseDates_both_namings position2019) as (_ & H2 & _ & _ & H5).
  split.
  - rewrite H2; reflexivity.
  - apply H5. split; reflexivity.
Defined.

(** *** The loop over [positions] *)

Lemma experiences_fold positions : forall st,
  experiences (fold_left pushPosition positions st) =
  (experiences st ++ map experienceOf positions)%list.
Proof.
  induction positions as [|p ps IH]; intros st; simpl.
  - rewrite app_nil_r. reflexivity.
  - rewrite IH. unfold pushPosition.
    destruct (isCurrent (parseDates p) && falsyString (currentCompany st))%bool;
      simpl; rewrite <- app_assoc; reflexivity.
Qed.

(** The structured mapping clears the end year of a current entry. *)
Lemma current_entry_has_no_end positions e :
  In e (experiences (mapPositions positions)) ->
  current e = true -> end_ e = None.
Proof.
  unfold mapPositions. rewrite experiences_fold. simpl.
  intros H. apply in_map_iff in H. destruct H as (p & <- & _).
  unfold experienceOf; simpl. intros ->. reflexivity.
Qed.

(** Once a company with a name is designated, nothing replaces it. *)
Lemma designated_stays positions : forall st name,
  currentCompany st = Some name -> truthy name = true ->
  currentCompany (fold_left pushPosition positions st) = Some name /\
  currentPositionStart (fold_left pushPosition positions st) =
    currentPositionStart st.
Proof.
  induction positions as [|p ps IH]; intros st name Hc Ht; simpl; [auto|].
  assert (E : pushPosition st p =
              {| experiences := (experiences st ++ [experienceOf p])%list;
                 currentCompany := currentCompany st;
                 currentCompanyUniversalName := currentCompanyUniversalName st;
                 currentPositionStart := currentPositionStart st |}).
  { unfold pushPosition, falsyString. rewrite Hc. simpl. rewrite Ht.
    rewrite andb_false_r. reflexivity. }
  rewrite E.
  match goal with |- context [fold_left pushPosition ps ?s] =>
    exact (IH s name Hc Ht) end.
Qed.

(** Entries that are not current leave the designation as it is. *)
Lemma past_positions_skip positions : forall st,
  Forall (fun p => isCurrent (parseDates p) = false) positions ->
  currentCompany (fold_left pushPosition positions st) = currentCompany st /\
  currentPositionStart (fold_left pushPosition positions st) =
    currentPositionStart st.
Proof.
  induction positions as [|p ps IH]; intros st H; simpl; [auto|].
  inversion H as [|? ? Hp Hps]; subst.
  destruct (IH (pushPosition st p) Hps) as [-> ->].
  unfold pushPosition. rewrite Hp. simpl. auto.
Qed.

(** The first current entry is designated when its company has a name. *)
Lemma first_named_current_wins pre p post name :
  Forall (fun q => isCurrent (parseDates q) = false) pre ->
  isCurrent (parseDates p) = true ->
  companyName p = Some name -> truthy name = true ->
  let st := mapPositions (pre ++ p :: post) in
  currentCompany st = Some name /\
  currentPositionStart st =
    nullish (startDate (periodOf p)) (tstart (periodOf p)).
Proof.
  intros Hpre Hp Hn Ht. unfold mapPositions.
  rewrite fold_left_app. simpl.
  destruct (past_positions_skip _ expInit Hpre) as [Ec Es].
  set (st0 := fold_left pushPosition pre expInit) in *.
  assert (E : currentCompany (pushPosition st0 p) = Some name /\
              currentPositionStart (pushPosition st0 p) =
                nullish (startDate (periodOf p)) (tstart (periodOf p))).
  { unfold pushPosition. rewrite Hp, Ec. simpl. auto. }
  destruct E as [E1 E2].
  destruct (designated_stays post (pushPosition st0 p) name E1 Ht) as [-> ->].
  auto.
Qed.

End VoyagerFacts.

(* ------------------------------------------------------------------ *)
(** ** Education filter and ranking: the properties *)
(* ------------------------------------------------------------------ *)

(** C7.  When at least one entry is not classified as high school, the
    filter returns exactly the entries that are not (in their order, the
    high-school ones all gone); when every entry is classified as high
    school, the filter returns the list as it is.  The ranking only
    reorders what the filter returns. *)
Theorem education_filter_partition (kw : list string) (all : list Education) :
  (Exists (fun e => isHighSchool kw e = false) all ->
     filteredEducation kw all = filter (fun e => negb (isHighSchool kw e)) all /\
     (forall e, In e (filteredEducation kw all) <->
                In e all /\ isHighSchool kw e = false)) /\
  (Forall (fun e => isHighSchool kw e = true) all ->
     filteredEducation kw all = all) /\
  Permutation (filteredEducation kw all) (rankEducation kw all).
Proof.
  split; [|split].
  - intros E. unfold filteredEducation. rewrite (collegeEducation_some kw _ E).
    split; [reflexivity|].
    intros e. unfold collegeEducation. rewrite filter_In.
    destruct (isHighSchool kw e); simpl; intuition congruence.
  - intros F. unfold filteredEducation. rewrite (collegeEducation_all kw _ F).
    reflexivity.
  - apply sortBy_perm.
Qed.

Lemma education_filter_partition_witness :
  let mixed := [edu "Raffles High School" "A-Level"; edu "MIT" "BSc"] in
  let school := [edu "Raffles High School" "A-Level";
                 edu "UWC East" "IB Diploma"] in
  (Exists (fun e => isHighSchool degreeKeywordsVoyager e = false) mixed /\
   filteredEducation degreeKeywordsVoyager mixed =
     filter (fun e => negb (isHighSchool degreeKeywordsVoyager e)) mixed) /\
  (Forall (fun e => isHighSchool degreeKeywordsExa e = true) school /\
   filteredEducation degreeKeywordsExa school = school).
Proof.
  intros mixed school.
  assert (X : Exists (fun e => isHighSchool degreeKeywordsVoyager e = false) mixed).
  { apply Exists_cons_tl, Exists_cons_hd. vm_compute. reflexivity. }
  assert (F : Forall (fun e => isHighSchool degreeKeywordsExa e = true) school).
  { repeat constructor; vm_compute; reflexivity. }
  split; split; [exact X | | exact F |].
  - exact (proj1 (proj1 (education_filter_partition _ mixed) X)).
  - exact (proj1 (proj2 (education_filter_partition _ school)) F).
Defined.

Lemma filteredEducation_fixed kw all :
  filteredEducation kw (filteredEducation kw all) = filteredEducation kw all.
Proof.
  destruct (filteredEducation_cases kw all) as [[E X]|[E F]]; rewrite E.
  - unfold filteredEducation. rewrite collegeEducation_fixed.
    rewrite (collegeEducation_some kw _ X). reflexivity.
  - unfold filteredEducation. rewrite (collegeEducation_all kw _ F). reflexivity.
Qed.

Lemma filteredEducation_perm kw l l' :
  Permutation l l' ->
  filteredEducation kw l = l ->
  filteredEducation kw l' = l'.
Proof.
  intros P E.
  destruct (filteredEducation_cases kw l) as [[E1 X]|[E1 F]].
  - assert (F : Forall (fun e => isHighSchool kw e = false) l).
    { rewrite <- E, E1. apply Forall_forall. intros e He.
      unfold collegeEducation in He. apply filter_In in He.
      destruct He as [_ He]. destruct (isHighSchool kw e); [discriminate|reflexivity]. }
    assert (F' : Forall (fun e => isHighSchool kw e = false) l')
      by (eapply Permutation_Forall; eauto).
    assert (C : collegeEducation kw l' = l').
    { unfold collegeEducation. clear -F'. induction F' as [|e t He _ IH];
        [reflexivity|]. simpl. rewrite He. simpl. rewrite IH. reflexivity. }
    unfold filteredEducation. rewrite C. destruct l'; reflexivity.
  - assert (F' : Forall (fun e => isHighSchool kw e = true) l')
      by (eapply Permutation_Forall; eauto).
    unfold filteredEducation. rewrite (collegeEducation_all kw _ F'). reflexivity.
Qed.

(** C8.  The ranking puts the entries in descending order of
    [getEducationRank] and keeps all of them; the entries of any one rank
    stand in the order they had in the input; ranking a ranked list changes
    nothing, for the sort alone and for the filter followed by the sort; and
    the degrees PhD, BA, MBA come out as PhD, MBA, BA on both paths. *)
Theorem education_ranking_stable (kw : list string) (l : list Education) :
  let rank := getEducationRank kw in
  let sorted := sortBy (rankCompare kw) l in
  let phd := {| school := None; degree := Some "PhD"; field := None;
                estart := None; eend := None |} in
  let ba := {| school := None; degree := Some "BA"; field := None;
               estart := None; eend := None |} in
  let mba := {| school := None; degree := Some "MBA"; field := None;
                estart := None; eend := None |} in
  StronglySorted (fun a b => (rank b <= rank a)%Z) sorted /\
  Permutation l sorted /\
  (forall r, filter (fun e => (rank e =? r)%Z) sorted =
             filter (fun e => (rank e =? r)%Z) l) /\
  sortBy (rankCompare kw) sorted = sorted /\
  rankEducation kw (rankEducation kw l) = rankEducation kw l /\
  rankEducation degreeKeywordsExa [phd; ba; mba] = [phd; mba; ba] /\
  rankEducation degreeKeywordsVoyager [phd; ba; mba] = [phd; mba; ba].
Proof.
  intros rank sorted phd ba mba. subst sorted rank.
  unfold rankCompare.
  split; [apply (sortBy_sorted _ (getEducationRank kw))|].
  split; [apply (sortBy_perm _ (getEducationRank kw))|].
  split; [intros r; apply (sortBy_stable _ (getEducationRank kw))|].
  split; [apply (sortBy_idempotent _ (getEducationRank kw))|].
  split; [|split; reflexivity].
  unfold rankEducation.
  rewrite (filteredEducation_perm kw (filteredEducation kw l)).
  - apply (sortBy_idempotent _ (getEducationRank kw)).
  - apply (sortBy_perm _ (getEducationRank kw)).
  - apply filteredEducation_fixed.
Qed.

(* ------------------------------------------------------------------ *)
(** ** The matcher: groups do not change what matches *)
(* ------------------------------------------------------------------ *)

Lemma failed_orelse (a b : outcome) :
  failed (match a with Some z => Some z | None => b end) =
  (failed a && failed b)%bool.
Proof. destruct a; reflexivity. Qed.

Lemma repeatMatcher_agreeing g mr mr' :
  agreeing mr mr' ->
  forall n, agreeing (repeatMatcher g mr n) (repeatMatcher g mr' n).
Proof.
  intros Hm n; induction n as [|n IH]; intros x c c' k k' Hk; simpl.
  - apply Hk.
  - assert (Hd : agree
      (fun y c1 => if Nat.eqb (idx y) (idx x) then None
                   else repeatMatcher g mr n y c1 k)
      (fun y c1 => if Nat.eqb (idx y) (idx x) then None
                   else repeatMatcher g mr' n y c1 k')).
    { intros y c1 c1'. destruct (Nat.eqb (idx y) (idx x)); [reflexivity|].
      apply IH, Hk. }
    destruct g; rewrite !failed_orelse, (Hm x c c' _ _ Hd), (Hk x c c');
      reflexivity.
Qed.

Lemma rmatch_strip r : agreeing (rmatch r) (rmatch (strip r)).
Proof.
  induction r as [ |a|p|r1 IH1 r2 IH2|r1 IH1 r2 IH2|g r IH|n r IH| ];
    intros x c c' k k' Hk; simpl.
  - apply Hk.
  - destruct (rest x) as [|b s]; [reflexivity|].
    destruct (b =? a)%char; [apply Hk | reflexivity].
  - destruct (rest x) as [|b s]; [reflexivity|].
    destruct (p b); [apply Hk | reflexivity].
  - apply IH1. intros y c1 c1'. apply IH2, Hk.
  - rewrite !failed_orelse, (IH1 x c c' _ _ Hk), (IH2 x c c' _ _ Hk).
    reflexivity.
  - apply repeatMatcher_agreeing; [exact IH | exact Hk].
  - apply IH. intros y c1 c1'. apply Hk.
  - destruct (prev x) as [a|]; [|apply Hk].
    destruct (isLineTerminator a); [apply Hk | reflexivity].
Qed.

Lemma exec_strip r p s : failed (exec r p s) = failed (exec (strip r) p s).
Proof. unfold exec. apply rmatch_strip. intros y c c'. reflexivity. Qed.

Lemma searchFrom_strip r s : forall p,
  searchFrom r p s = None <-> searchFrom (strip r) p s = None.
Proof.
  induction s as [|a s IH]; intros p; simpl;
    pose proof (exec_strip r p) as E.
  - specialize (E ""). destruct (exec r p "") as [[? ?]|],
      (exec (strip r) p "") as [[? ?]|]; try discriminate E;
      split; congruence.
  - specialize (E (String a s)). specialize (IH (Some a)).
    destruct (exec r p (String a s)) as [[? ?]|],
             (exec (strip r) p (String a s)) as [[? ?]|]; try discriminate E;
      [split; discriminate|].
    destruct (searchFrom r (Some a) s), (searchFrom (strip r) (Some a) s);
      simpl; split; intros H; try discriminate H; try reflexivity;
      destruct IH as [I1 I2]; (discriminate (I1 eq_refl) || discriminate (I2 eq_refl)).
Qed.

Lemma test_strip r s : test r s = test (strip r) s.
Proof.
  unfold test, search. pose proof (searchFrom_strip r s None) as [H1 H2].
  destruct (searchFrom r None s), (searchFrom (strip r) None s);
    try reflexivity;
    [discriminate (H2 eq_refl) | discriminate (H1 eq_refl)].
Qed.

Lemma test_search r s : test r s = true <-> exists m, search r s = Some m.
Proof.
  unfold test. destruct (search r s) as [m|]; split; eauto; try discriminate.
  intros [m H]; discriminate.
Qed.

(* ------------------------------------------------------------------ *)
(** ** Experience blocks *)
(* ------------------------------------------------------------------ *)

Module ExaBlocks.
Import Exa ExaTotal.

Lemma trim_truthy l : truthy (trim l) = true -> truthy l = true.
Proof. destruct l; [discriminate | reflexivity]. Qed.

Lemma blockLines_truthy block l : In l (blockLines block) -> truthy l = true.
Proof.
  unfold blockLines. intros H. apply filter_In in H. apply trim_truthy, H.
Qed.

(** The title is read exactly when one of the two patterns matches. *)
Lemma parseTitle_matches firstLine :
  (test titleBracketRe firstLine = true \/ test titleSimpleRe firstLine = true) ->
  exists t, parseTitle firstLine = Normal (Some t).
Proof.
  intros H. unfold parseTitle. unfold test in H.
  destruct (search titleBracketRe firstLine) as [m|] eqn:Hb.
  - bound m 1. bound m 2. eauto.
  - destruct (search titleSimpleRe firstLine) as [m|] eqn:Hs.
    + bound m 1. bound m 2. eauto.
    + destruct H; discriminate.
Qed.

Lemma parseTitle_fails firstLine :
  test titleBracketRe firstLine = false ->
  test titleSimpleRe firstLine = false ->
  parseTitle firstLine = Normal None.
Proof.
  unfold parseTitle, test. intros Hb Hs.
  destruct (search titleBracketRe firstLine); [discriminate|].
  destruct (search titleSimpleRe firstLine); [discriminate|reflexivity].
Qed.

Lemma parseTitle_some firstLine t :
  parseTitle firstLine = Normal (Some t) ->
  test titleBracketRe firstLine = true \/ test titleSimpleRe firstLine = true.
Proof.
  intros H.
  destruct (test titleBracketRe firstLine) eqn:Hb; [auto|].
  destruct (test titleSimpleRe firstLine) eqn:Hs; [auto|].
  rewrite (parseTitle_fails _ Hb Hs) in H. discriminate.
Qed.

(** The pattern that finds the date line and the one that reads it differ
    in their groups only. *)
Lemma dateRe_same : strip dateTestRe = strip dateRe.
Proof. reflexivity. Qed.

Lemma dateLine_read l :
  test dateTestRe l = true -> exists m, search dateRe l = Some m.
Proof.
  rewrite test_strip, dateRe_same, <- test_strip. apply test_search.
Qed.

Lemma parseBlock_found block title company dateInfo dateMatch :
  (2 <= List.length (blockLines block))%nat ->
  parseTitle (hd "" (blockLines block)) = Normal (Some (title, company)) ->
  findDateLine (blockLines block) = Some dateInfo ->
  search dateRe dateInfo = Some dateMatch ->
  parseBlock block = Normal (Some
    {| entry := entryOf (hd "" (blockLines block)) title company dateMatch;
       entryStart :=
         {| year := parseInt (orEmpty (group 2 dateMatch));
            month := monthMap (orEmpty (group 1 dateMatch)) |} |}).
Proof.
  intros Hlen Ht Hd Hm. unfold parseBlock.
  replace (List.length (blockLines block) <? 2)%nat with false
    by (symmetry; apply Nat.ltb_ge; exact Hlen).
  rewrite Ht. simpl. rewrite Hd.
  assert (Hin : In dateInfo (blockLines block))
    by (apply (find_some _ _ Hd)).
  rewrite (blockLines_truthy _ _ Hin). simpl. rewrite Hm.
  reflexivity.
Qed.

Lemma parseBlock_some block c :
  parseBlock block = Normal (Some c) ->
  (2 <= List.length (blockLines block))%nat /\
  exists title company dateInfo dateMatch,
    parseTitle (hd "" (blockLines block)) = Normal (Some (title, company)) /\
    findDateLine (blockLines block) = Some dateInfo /\
    search dateRe dateInfo = Some dateMatch.
Proof.
  unfold parseBlock.
  destruct (List.length (blockLines block) <? 2)%nat eqn:L; [discriminate|].
  apply Nat.ltb_ge in L.
  destruct (parseTitle (hd "" (blockLines block))) as [[[t co]|]|] eqn:T;
    simpl; try discriminate.
  destruct (findDateLine (blockLines block)) as [d|] eqn:D; [|discriminate].
  destruct (negb (truthy d)); [discriminate|].
  destruct (search dateRe d) as [m|] eqn:M; [|discriminate].
  intros _. split; [exact L|]. exists t, co, d, m. auto.
Qed.

End ExaBlocks.

Module ExaClaims.
Import Exa ExaTotal ExaBlocks.

Lemma find_exists (A : Type) (f : A -> bool) (l : list A) :
  Exists (fun a => f a = true) l -> exists a, find f l = Some a.
Proof.
  induction 1 as [a l Ha | a l _ IH]; simpl.
  - rewrite Ha. eauto.
  - destruct (f a); eauto.
Qed.

(** C10.  A block pushes an entry exactly when it has at least two lines
    that are not blank, its first line matches one of the two title
    patterns, and one of its lines matches the date-range pattern; any other
    block, one with a title but no date line or with fewer than two lines
    among them, pushes nothing and raises nothing. *)
Theorem block_contributes_exactly_when (block : string) :
  let lines := blockLines block in
  let firstLine := hd "" lines in
  let complete :=
    (2 <= List.length lines)%nat /\
    (test titleBracketRe firstLine = true \/ test titleSimpleRe firstLine = true) /\
    Exists (fun l => test dateTestRe l = true) lines in
  ((exists c, parseBlock block = Normal (Some c)) <-> complete) /\
  (~ complete -> parseBlock block = Normal None).
Proof.
  intros lines firstLine complete.
  assert (Hiff : (exists c, parseBlock block = Normal (Some c)) <-> complete).
  { split.
    - intros [c H]. apply parseBlock_some in H.
      destruct H as (L & t & co & d & m & T & D & M).
      split; [exact L|]. split; [eapply parseTitle_some; exact T|].
      apply Exists_exists. exists d. apply (find_some _ _ D).
    - intros (L & T & D).
      destruct (parseTitle_matches _ T) as [[t co] Ht].
      destruct (find_exists _ _ _ D) as [d Hd].
      destruct (dateLine_read d) as [m Hm]; [apply (find_some _ _ Hd)|].
      eexists. apply (parseBlock_found block _ _ _ _ L Ht Hd Hm). }
  split; [exact Hiff|].
  intros N. destruct (parseBlock_total block) as [[c|] E]; [|exact E].
  exfalso. apply N, Hiff. eauto.
Qed.

Lemma block_contributes_exactly_when_witness :
  (exists c, parseBlock "Engineer at Acme
Jun 2021 - Present" = Normal (Some c)) /\
  parseBlock "Engineer at Acme
Full-time" = Normal None.
Proof.
  assert (E1 : blockLines "Engineer at Acme
Jun 2021 - Present" = ["Engineer at Acme"; "Jun 2021 - Present"])
    by (vm_compute; reflexivity).
  assert (E2 : blockLines "Engineer at Acme
Full-time" = ["Engineer at Acme"; "Full-time"])
    by (vm_compute; reflexivity).
  split.
  - apply (proj1 (block_contributes_exactly_when _)).
    rewrite E1. split; [apply le_n|].
    split; [right; vm_compute; reflexivity|].
    apply Exists_cons_tl, Exists_cons_hd. vm_compute. reflexivity.
  - apply (proj2 (block_contributes_exactly_when _)).
    rewrite E2. intros (_ & _ & X).
    apply Exists_cons in X. destruct X as [X | X];
      [vm_compute in X; discriminate X|].
    apply Exists_cons in X. destruct X as [X | X];
      [vm_compute in X; discriminate X|].
    apply Exists_nil in X. exact X.
Defined.

(** C2.  For every block that pushes an entry, the entry is current when the
    first line holds the marker, or the end of the matched date range is
    Present, or no end year was read; and when the matched range ends in
    Present, or its end-year group is absent, the entry is current and its
    end year is null, with the marker or without it. *)
Theorem present_end_is_current
  (block : string) (c : contribution) (dateMatch : found) (endInfo : string) :
  parseBlock block = Normal (Some c) ->
  matchedDate block = Some dateMatch ->
  group 3 dateMatch = Some endInfo ->
  current (entry c) =
    (includes "(Current)" (hd "" (blockLines block)) || (endInfo =? "Present")
     || falsyNumber (end_ (entry c)))%bool /\
  (endInfo = "Present" \/ group 5 dateMatch = None ->
   current (entry c) = true /\ end_ (entry c) = None).
Proof.
  intros H M G. pose proof (parseBlock_some _ _ H) as (L & t & co & d & m & T & D & S).
  rewrite (parseBlock_found block _ _ _ _ L T D S) in H. injection H as <-.
  unfold matchedDate in M. rewrite D, S in M. injection M as ->.
  simpl. rewrite G. simpl. split; [reflexivity|].
  intros [-> | G5].
  - simpl. rewrite orb_true_r. auto.
  - rewrite G5. simpl. destruct (endInfo =? "Present"); simpl;
      rewrite ?orb_true_r; auto.
Qed.

Lemma present_end_is_current_witness :
  (exists c, parseBlock "Engineer at Acme
Jun 2021 - Present" = Normal (Some c) /\
             current (entry c) = true /\ end_ (entry c) = None) /\
  (exists c, parseBlock "Engineer at Acme (Current)
Jun 2021 - Present" = Normal (Some c) /\
             current (entry c) = true /\ end_ (entry c) = None).
Proof.
  split; eexists; (split; [vm_compute; reflexivity|]).
  - refine (proj2 (present_end_is_current "Engineer at Acme
Jun 2021 - Present" _ _ "Present" _ _ _) (or_introl eq_refl));
      vm_compute; reflexivity.
  - refine (proj2 (present_end_is_current "Engineer at Acme (Current)
Jun 2021 - Present" _ _ "Present" _ _ _) (or_introl eq_refl));
      vm_compute; reflexivity.
Defined.

(** C1, on the free-text path: the text [markedClosedRange] gives an entry
    with [current = true] and [end = 2020]. *)
Theorem exa_current_entry_keeps_end_year :
  parseProfile markedClosedRange =
  Normal {| education := [];
            profile_experiences :=
              [{| company := Some "Acme"; title := Some "Engineer";
                  start := Some 2018%Z; end_ := Some 2020%Z; current := true |}];
            current_company_name := Some "Acme";
            position_start :=
              Some {| year := Some 2018%Z; month := Some 1%Z |} |}.
Proof. vm_compute. reflexivity. Qed.

(** A closed range whose end year reads as [0] is current as well, and
    keeps the [0]. *)
Lemma exa_zero_end_year :
  parseBlock "Engineer at Acme
Jan 2018 - Dec 0000" =
  Normal (Some {| entry := {| company := Some "Acme"; title := Some "Engineer";
                              start := Some 2018%Z; end_ := Some 0%Z;
                              current := true |};
                  entryStart := {| year := Some 2018%Z; month := Some 1%Z |} |}).
Proof. vm_compute. reflexivity. Qed.

(** On the free-text path these are the only two ways: a current entry
    that keeps an end year has the marker in its first line, or its end year
    is [0]. *)
Lemma exa_current_with_end block c y :
  parseBlock block = Normal (Some c) ->
  current (entry c) = true -> end_ (entry c) = Some y ->
  includes "(Current)" (hd "" (blockLines block)) = true \/ y = 0%Z.
Proof.
  intros H. pose proof (parseBlock_some _ _ H) as (L & t & co & d & m & T & D & S).
  rewrite (parseBlock_found block _ _ _ _ L T D S) in H. injection H as <-.
  unfold entryOf. cbn [entry current end_].
  destruct (orEmpty (group 3 m) =? "Present"); [discriminate 2|].
  intros C E. rewrite E in C. rewrite orb_false_r in C.
  apply orb_true_iff in C. destruct C as [C | C]; [left; exact C|].
  right. apply Z.eqb_eq. exact C.
Qed.

(** C3 as stated fails: a block that contains the range and has the marker
    in its first line gives a current entry. *)
Lemma marked_block_with_closed_range :
  let block := "Engineer at Acme (Current)
Jan 2018 - Dec 2020" in
  includes "Jan 2018 - Dec 2020" block = true /\
  exists c, parseBlock block = Normal (Some c) /\
            start (entry c) = Some 2018%Z /\ end_ (entry c) = Some 2020%Z /\
            current (entry c) = true.
Proof.
  split; [vm_compute; reflexivity|].
  eexists. split; [vm_compute; reflexivity|]. simpl. auto.
Qed.

End ExaClaims.

Module ExaRanges.
Import Exa ExaTotal ExaBlocks.

Lemma take_prefix n : forall s, exists t, s = take n s ++ t.
Proof.
  induction n as [|n IH]; intros s.
  - exists s. reflexivity.
  - destruct s as [|c s]; [exists ""; reflexivity|].
    destruct (IH s) as [t E]. exists t. simpl. rewrite <- E. reflexivity.
Qed.

(** A match found by [search] is a match of one attempt, at some place. *)
Lemma searchFrom_exec r s : forall p m,
  searchFrom r p s = Some m ->
  exists p' s' y, exec r p' s' = Some (y, groups m) /\
                  whole m = take (idx y) s'.
Proof.
  induction s as [|c s IH]; intros p m H; simpl in H.
  - destruct (exec r p "") as [[y caps]|] eqn:E; [|discriminate].
    injection H as <-. exists p, "", y. auto.
  - destruct (exec r p (String c s)) as [[y caps]|] eqn:E.
    + injection H as <-. exists p, (String c s), y. auto.
    + destruct (searchFrom r (Some c) s) as [m'|] eqn:E'; [|discriminate].
      injection H as <-. simpl. eauto.
Qed.

Lemma dateRe_closed_range p t :
  exec dateRe p ("Jan 2018 - Dec 2020" ++ t) =
  Some ({| idx := 19; prev := Some "0"%char; rest := t |},
        [(3, "Dec 2020"); (5, "2020"); (4, "Dec"); (2, "2018"); (1, "Jan")]).
Proof. vm_compute. reflexivity. Qed.

Lemma dateRe_present p t :
  exec dateRe p ("Jun 2021 - Present" ++ t) =
  Some ({| idx := 18; prev := Some "t"%char; rest := t |},
        [(3, "Present"); (2, "2021"); (1, "Jun")]).
Proof. vm_compute. reflexivity. Qed.

(** The groups of a date match are fixed by the text it matched. *)
Lemma groups_of_whole (range : string) (caps : captures) (y0 : string -> cursor) :
  (forall p t, exec dateRe p (range ++ t) = Some (y0 t, caps)) ->
  forall s m, search dateRe s = Some m -> whole m = range -> groups m = caps.
Proof.
  intros Hx s m H W. apply searchFrom_exec in H.
  destruct H as (p' & s' & y & E & W'). rewrite W in W'.
  destruct (take_prefix (idx y) s') as [t Ht]. rewrite <- W' in Ht.
  rewrite Ht, Hx in E. injection E as _ E. symmetry. exact E.
Qed.

(** C3, amended.  For every block that pushes an entry, whose first line
    does not hold the marker and whose matched date range, the leftmost one
    of its first line that has one, is "Jan 2018 - Dec 2020": the entry
    starts in 2018, ends in 2020 and is not current. *)
Theorem closed_range_without_marker
  (block : string) (c : contribution) (dateMatch : found) :
  parseBlock block = Normal (Some c) ->
  includes "(Current)" (hd "" (blockLines block)) = false ->
  matchedDate block = Some dateMatch ->
  whole dateMatch = "Jan 2018 - Dec 2020" ->
  start (entry c) = Some 2018%Z /\ end_ (entry c) = Some 2020%Z /\
  current (entry c) = false.
Proof.
  intros H Mk M W.
  pose proof (parseBlock_some _ _ H) as (L & t & co & d & m & T & D & S).
  rewrite (parseBlock_found block _ _ _ _ L T D S) in H. injection H as <-.
  unfold matchedDate in M. rewrite D, S in M. injection M as ->.
  pose proof (groups_of_whole _ _ _ dateRe_closed_range _ _ S W) as G.
  unfold entryOf, group. rewrite G, Mk. simpl. auto.
Qed.

Lemma closed_range_without_marker_witness :
  exists c, parseBlock "Intern at Globex
Jan 2018 - Dec 2020 (3 yrs)" = Normal (Some c) /\
            start (entry c) = Some 2018%Z /\ end_ (entry c) = Some 2020%Z /\
            current (entry c) = false.
Proof.
  eexists. split; [vm_compute; reflexivity|].
  refine (closed_range_without_marker "Intern at Globex
Jan 2018 - Dec 2020 (3 yrs)" _ _ _ _ _ _); vm_compute; reflexivity.
Defined.

(** Every block whose matched date range is "Jun 2021 - Present" pushes a
    current entry without an end year, with the marker or without it. *)
Lemma open_range_is_current
  (block : string) (c : contribution) (dateMatch : found) :
  parseBlock block = Normal (Some c) ->
  matchedDate block = Some dateMatch ->
  whole dateMatch = "Jun 2021 - Present" ->
  start (entry c) = Some 2021%Z /\ end_ (entry c) = None /\
  current (entry c) = true.
Proof.
  intros H M W.
  pose proof (parseBlock_some _ _ H) as (L & t & co & d & m & T & D & S).
  rewrite (parseBlock_found block _ _ _ _ L T D S) in H. injection H as <-.
  unfold matchedDate in M. rewrite D, S in M. injection M as ->.
  pose proof (groups_of_whole _ _ _ dateRe_present _ _ S W) as G.
  unfold entryOf, group. rewrite G. simpl. rewrite orb_true_r. auto.
Qed.

(** *** Blocks of a title line and a date line *)

Lemma splitChar_nonempty sep s : splitChar sep s <> [].
Proof.
  destruct s as [|c s]; simpl; [discriminate|].
  destruct (c =? sep)%char; [discriminate|].
  destruct (splitChar sep s); discriminate.
Qed.

(** The first line of a text, when it is known up to its line break. *)
Lemma splitChar_first_line a b :
  allChars notNl a = true ->
  splitChar nl (a ++ newline ++ b) = a :: splitChar nl b.
Proof.
  intros H. induction a as [|c a IH].
  - reflexivity.
  - simpl in H. apply andb_true_iff in H. destruct H as [Hc H].
    apply negb_true_iff in Hc. simpl append. cbn [splitChar]. rewrite Hc.
    change (a ++ String nl b) with (a ++ newline ++ b).
    rewrite (IH H). reflexivity.
Qed.

(** The first line of a text, when only its beginning is known. *)
Lemma splitChar_line_start a b :
  allChars notNl a = true ->
  exists h t, splitChar nl (a ++ b) = (a ++ h) :: t.
Proof.
  intros H. induction a as [|c a IH].
  - destruct (splitChar nl b) as [|h t] eqn:E;
      [destruct (splitChar_nonempty _ _ E)|]. exists h, t. exact E.
  - simpl in H. apply andb_true_iff in H. destruct H as [Hc H].
    apply negb_true_iff in Hc. destruct (IH H) as (h & t & E).
    exists h, t. simpl append. cbn [splitChar]. rewrite Hc, E. reflexivity.
Qed.

Lemma trim_truthy_solid c s : isSpace c = false -> truthy (trim (String c s)) = true.
Proof.
  intros H. unfold trim. cbn [trimStart]. rewrite H. cbn [trimEnd].
  destruct (trimEnd s); [rewrite H|]; reflexivity.
Qed.

Lemma searchFrom_hit r p s y caps :
  exec r p s = Some (y, caps) ->
  searchFrom r p s =
  Some {| before := ""; whole := take (idx y) s; groups := caps;
          after := rest y |}.
Proof. intros H. destruct s; simpl; rewrite H; reflexivity. Qed.

(** A block made of a title line and a line that begins with a date range
    [range], of which [caps] are the groups. *)
Lemma parseBlock_title_then_range
  (range : string) (caps : captures) (y0 : string -> cursor)
  (firstLine tail title company : string) :
  (forall p t, exec dateRe p (range ++ t) = Some (y0 t, caps)) ->
  startsSolid range = true -> allChars notNl range = true ->
  startsSolid firstLine = true -> allChars notNl firstLine = true ->
  parseTitle firstLine = Normal (Some (title, company)) ->
  test dateTestRe firstLine = false ->
  exists dateMatch,
    groups dateMatch = caps /\
    matchedDate (firstLine ++ newline ++ range ++ tail) = Some dateMatch /\
    parseBlock (firstLine ++ newline ++ range ++ tail) =
    Normal (Some
      {| entry := entryOf firstLine title company dateMatch;
         entryStart :=
           {| year := parseInt (orEmpty (group 2 dateMatch));
              month := monthMap (orEmpty (group 1 dateMatch)) |} |}).
Proof.
  intros Hx Sr Nr Sf Nf Ht Hd.
  destruct (splitChar_line_start range tail Nr) as (h & t & E).
  pose proof (searchFrom_hit _ _ _ _ _ (Hx None h)) as Hm.
  fold (search dateRe (range ++ h)) in Hm.
  assert (Hdate : test dateTestRe (range ++ h) = true).
  { rewrite test_strip, dateRe_same, <- test_strip. unfold test.
    rewrite Hm. reflexivity. }
  assert (Hlines : blockLines (firstLine ++ newline ++ range ++ tail) =
                   firstLine :: (range ++ h)
                     :: filter (fun l => truthy (trim l)) t).
  { unfold blockLines. rewrite (splitChar_first_line _ _ Nf), E.
    cbn [filter].
    destruct firstLine as [|c f]; [discriminate|].
    destruct range as [|d r]; [discriminate|].
    simpl in Sf, Sr. apply negb_true_iff in Sf, Sr.
    rewrite (trim_truthy_solid _ _ Sf).
    change (String d r ++ h) with (String d (r ++ h)).
    rewrite (trim_truthy_solid _ _ Sr). reflexivity. }
  assert (Hfind : findDateLine (blockLines (firstLine ++ newline ++ range ++ tail))
                  = Some (range ++ h)).
  { rewrite Hlines. unfold findDateLine. cbn [find]. rewrite Hd, Hdate.
    reflexivity. }
  match type of Hm with _ = Some ?m => set (dateMatch := m) in * end.
  exists dateMatch. split; [|split].
  - reflexivity.
  - unfold matchedDate. rewrite Hfind. exact Hm.
  - assert (P := parseBlock_found (firstLine ++ newline ++ range ++ tail)
                   title company (range ++ h) dateMatch).
    rewrite Hlines in P. cbn [hd] in P.
    apply P; [simpl; lia | exact Ht | | exact Hm].
    rewrite <- Hlines. exact Hfind.
Qed.

(** For every title line without a date range, followed by a line that
    begins with "Jan 2018 - Dec 2020": the entry starts in 2018 and ends in
    2020, and is current exactly when the title line holds the marker. *)
Lemma closed_range_block (firstLine tail title company : string) :
  startsSolid firstLine = true -> allChars notNl firstLine = true ->
  parseTitle firstLine = Normal (Some (title, company)) ->
  test dateTestRe firstLine = false ->
  option_map entry
    (match parseBlock (firstLine ++ newline ++ "Jan 2018 - Dec 2020" ++ tail) with
     | Normal r => r | TypeError => None end) =
  Some {| company := Some company; title := Some title;
          start := Some 2018%Z; end_ := Some 2020%Z;
          current := includes "(Current)" firstLine |}.
Proof.
  intros Sf Nf Ht Hd.
  destruct (parseBlock_title_then_range _ _ _ firstLine tail title company
              dateRe_closed_range eq_refl eq_refl Sf Nf Ht Hd)
    as (m & G & _ & E).
  rewrite E. cbn [option_map entry]. unfold entryOf, group. rewrite G.
  simpl. rewrite !orb_false_r. reflexivity.
Qed.

(** And followed by a line that begins with "Jun 2021 - Present": the
    entry starts in 2021, has no end year and is current, with the marker
    or without it. *)
Lemma open_range_block (firstLine tail title company : string) :
  startsSolid firstLine = true -> allChars notNl firstLine = true ->
  parseTitle firstLine = Normal (Some (title, company)) ->
  test dateTestRe firstLine = false ->
  option_map entry
    (match parseBlock (firstLine ++ newline ++ "Jun 2021 - Present" ++ tail) with
     | Normal r => r | TypeError => None end) =
  Some {| company := Some company; title := Some title;
          start := Some 2021%Z; end_ := None; current := true |}.
Proof.
  intros Sf Nf Ht Hd.
  destruct (parseBlock_title_then_range _ _ _ firstLine tail title company
              dateRe_present eq_refl eq_refl Sf Nf Ht Hd)
    as (m & G & _ & E).
  rewrite E. cbn [option_map entry]. unfold entryOf, group. rewrite G.
  simpl. rewrite orb_true_r. reflexivity.
Qed.

End ExaRanges.

(* ------------------------------------------------------------------ *)
(** ** The designated current company *)
(* ------------------------------------------------------------------ *)

Module CurrentCompany.

(** C5, at [founderThenAcme]: both entries are current, and it is the second
    one that ends up as the current company and supplies the start of the
    position, on the structured path and on the free-text path; [main]
    takes the first. *)
Theorem unnamed_current_entry_is_replaced :
  (let st := Voyager.mapPositions founderThenAcme in
   map current (Voyager.experiences st) = [true; true] /\
   Voyager.currentCompany st = Some "Acme" /\
   Voyager.currentPositionStart st =
     Some {| year := Some 2021%Z; month := Some 6%Z |}) /\
  Exa.parseProfile founderThenAcmeText =
    Normal {| Exa.education := [];
              Exa.profile_experiences :=
                [{| company := Some ""; title := Some "Founder";
                    start := Some 2022%Z; end_ := None; current := true |};
                 {| company := Some "Acme"; title := Some "Engineer";
                    start := Some 2021%Z; end_ := None; current := true |}];
              Exa.current_company_name := Some "Acme";
              Exa.position_start :=
                Some {| year := Some 2021%Z; month := Some 6%Z |} |} /\
  option_map Cli.title (Cli.current founderThenAcmeCli) = Some (Some "Founder").
Proof.
  split; [|split]; vm_compute; auto.
Qed.

(** [main] designates the first entry without an end date, whatever its
    company name. *)
Lemma cli_first_current_wins pre e post :
  Forall (fun q => absent (chain (Cli.timePeriod q) Cli.endDate) = false) pre ->
  absent (chain (Cli.timePeriod e) Cli.endDate) = true ->
  Cli.current (pre ++ e :: post) = Some e.
Proof.
  intros Hpre He. unfold Cli.current.
  induction Hpre as [|q l Hq _ IH]; simpl.
  - rewrite He. reflexivity.
  - rewrite Hq. exact IH.
Qed.

(** On the free-text path too, a designated company with a name stays. *)
Lemma exa_designated_stays blocks : forall st st' name,
  Exa.parseBlocks blocks st = Normal st' ->
  Exa.currentCompany st = Some name -> truthy name = true ->
  Exa.currentCompany st' = Some name /\
  Exa.currentPositionStart st' = Exa.currentPositionStart st.
Proof.
  induction blocks as [|b bs IH]; intros st st' name H Hc Ht; simpl in H.
  - injection H as <-. auto.
  - destruct (Exa.parseBlock b) as [[c|]|]; simpl in H; try discriminate.
    + assert (E : Exa.pushContribution st c =
                {| Exa.experiences := (Exa.experiences st ++ [Exa.entry c])%list;
                   Exa.currentCompany := Exa.currentCompany st;
                   Exa.currentPositionStart := Exa.currentPositionStart st |}).
      { unfold Exa.pushContribution, falsyString. rewrite Hc. simpl.
        rewrite Ht, andb_false_r. reflexivity. }
      rewrite E in H. exact (IH _ _ name H Hc Ht).
    + exact (IH _ _ name H Hc Ht).
Qed.

End CurrentCompany.

(* ------------------------------------------------------------------ *)
(** ** Strings: append, prefixes, runs of characters *)
(* ------------------------------------------------------------------ *)

Lemma append_empty_r s : s ++ "" = s.
Proof. induction s as [|c s IH]; simpl; [|rewrite IH]; reflexivity. Qed.

Lemma append_assoc a b c : (a ++ b) ++ c = a ++ (b ++ c).
Proof. induction a as [|x a IH]; simpl; [|rewrite IH]; reflexivity. Qed.

Lemma length_append a b :
  String.length (a ++ b) = (String.length a + String.length b)%nat.
Proof. induction a as [|x a IH]; simpl; [|rewrite IH]; reflexivity. Qed.

Lemma startsWith_append n a b :
  startsWith n a = true -> startsWith n (a ++ b) = true.
Proof.
  revert a; induction n as [|x n IH]; intros a H; [reflexivity|].
  destruct a as [|y a]; [discriminate|]. simpl in *.
  apply andb_true_iff in H. destruct H as [-> H]. simpl. apply IH, H.
Qed.

Lemma startsWith_same w n s : startsWith (w ++ n) (w ++ s) = startsWith n s.
Proof.
  induction w as [|x w IH]; simpl; [reflexivity|].
  rewrite Ascii.eqb_refl. exact IH.
Qed.

Lemma startsWith_split w : forall s,
  startsWith w s = true -> exists t, s = w ++ t.
Proof.
  induction w as [|x w IH]; intros s H; [exists s; reflexivity|].
  destruct s as [|y s]; [discriminate|]. simpl in H.
  apply andb_true_iff in H. destruct H as [E H].
  apply Ascii.eqb_eq in E. subst y. destruct (IH _ H) as [t ->].
  exists t. reflexivity.
Qed.

Module ExaSections.
Import Exa ExaTotal.

Lemma exec_section_some p s :
  bol p = true ->
  exec sectionRe p ("## " ++ s) =
  Some ({| idx := 3; prev := Some " "%char; rest := s |}, []).
Proof.
  intros H. unfold exec, sectionRe. simpl.
  destruct p as [c|]; simpl in H; [rewrite H|]; reflexivity.
Qed.

Lemma exec_section_none p s :
  (bol p && startsWith "## " s)%bool = false -> exec sectionRe p s = None.
Proof.
  intros H.
  assert (G : match s with
    | String a (String b (String d s')) =>
        ((a =? "#")%char && (b =? "#")%char && (d =? " ")%char)%bool
    | _ => false end = startsWith "## " s).
  { destruct s as [|a [|b [|d s]]]; cbn -[Ascii.eqb];
      rewrite ?(Ascii.eqb_sym "#"), ?(Ascii.eqb_sym " "), ?andb_false_r,
              ?andb_true_r; try reflexivity.
    rewrite andb_assoc. reflexivity. }
  rewrite <- G in H. clear G. unfold exec, sectionRe.
  destruct p as [c|]; cbn -[Ascii.eqb isLineTerminator] in *.
  - destruct (isLineTerminator c); [|reflexivity].
    destruct s as [|a [|b [|d s]]]; cbn -[Ascii.eqb]; try reflexivity;
    destruct (a =? "#")%char; try reflexivity;
    destruct (b =? "#")%char; try reflexivity;
    destruct (d =? " ")%char; try reflexivity; discriminate.
  - destruct s as [|a [|b [|d s]]]; cbn -[Ascii.eqb]; try reflexivity;
    destruct (a =? "#")%char; try reflexivity;
    destruct (b =? "#")%char; try reflexivity;
    destruct (d =? " ")%char; try reflexivity; discriminate.
Qed.

(** The pieces of [split]: the first one is a prefix of the text, and each
    later one comes right after a header. *)
Lemma splitFrom_pieces name n : forall s, (String.length s <= n)%nat ->
  forall p cur, exists a rest b,
    splitFrom sectionRe 0 p cur s = (cur ++ a) :: rest /\ s = a ++ b /\
    (forall q, In q rest -> startsWith name q = true ->
               hasHeader name p s = true).
Proof.
  induction n as [|n IH]; intros s L p cur.
  - destruct s; [|simpl in L; lia].
    exists "", [], "". rewrite append_empty_r. simpl. intuition.
  - destruct s as [|c s1].
    { exists "", [], "". rewrite append_empty_r. simpl. intuition. }
    destruct (bol p && startsWith "## " (String c s1))%bool eqn:B.
    + apply andb_true_iff in B. destruct B as [Bp Bs].
      destruct (startsWith_split _ _ Bs) as [t Et].
      assert (Lt : (String.length t <= n)%nat).
      { rewrite Et in L. simpl in L. lia. }
      destruct (IH t Lt (Some " "%char) "") as (a' & rest' & b' & E & Eb & Hq).
      simpl in Et. injection Et as -> ->.
      exists "", (a' :: rest'), ("## " ++ t).
      rewrite append_empty_r. split; [|split; [reflexivity|]].
      * cbn [splitFrom].
        change (String "#" (String "#" (String " " t))) with ("## " ++ t).
        rewrite (exec_section_some _ _ Bp). cbn [idx]. simpl in E. rewrite E.
        reflexivity.
      * intros q [<- | Hin] Sq.
        -- cbn [hasHeader]. rewrite Bp.
           change (String "#" (String "#" (String " " t))) with ("## " ++ t).
           rewrite startsWith_same. rewrite Eb.
           rewrite (startsWith_append _ _ _ Sq). reflexivity.
        -- pose proof (Hq q Hin Sq) as Hh.
           cbn [hasHeader]. rewrite Hh. rewrite !orb_true_r. reflexivity.
    + assert (L1 : (String.length s1 <= n)%nat) by (simpl in L; lia).
      destruct (IH s1 L1 (Some c) (cur ++ String c "")) as (a' & rest' & b' & E & Eb & Hq).
      exists (String c a'), rest', b'.
      split; [|split].
      * cbn [splitFrom]. rewrite (exec_section_none _ _ B). rewrite E.
        rewrite append_assoc. reflexivity.
      * simpl. rewrite <- Eb. reflexivity.
      * intros q Hin Sq. cbn [hasHeader]. rewrite (Hq q Hin Sq).
        apply orb_true_r.
Qed.

Lemma sections_headers name text q :
  In q (sections text) -> startsWith name q = true ->
  startsWith name text = true \/ hasHeader name None text = true.
Proof.
  unfold sections, split. destruct text as [|c s].
  - simpl. intros [<- | []] H. left. exact H.
  - intros Hin H.
    destruct (splitFrom_pieces name _ (String c s) (le_n _) None "")
      as (a & rest & b & E & Eb & Hq).
    rewrite E in Hin. destruct Hin as [<- | Hin].
    + left. rewrite Eb. apply startsWith_append. exact H.
    + right. apply (Hq q Hin H).
Qed.

Lemma findSection_missing name text :
  startsWith name text = false -> hasHeader name None text = false ->
  findSection name (sections text) = "".
Proof.
  intros Hs Hh. unfold findSection.
  destruct (find (startsWith name) (sections text)) as [q|] eqn:F;
    [|reflexivity].
  apply find_some in F. destruct F as [Hin Hq].
  destruct (sections_headers name text q Hin Hq); congruence.
Qed.

(** C9 as stated fails: a text that begins with "Education" and has no
    header at all is read as its own Education section. *)
Lemma headerless_education_is_read :
  let text := "Education
### MBA at MIT" in
  hasHeader "Education" None text = false /\
  includes "## Education" text = false /\
  parseProfile text =
    Normal {| education := [{| school := Some "MIT"; degree := Some "MBA";
                               field := None; estart := None; eend := None |}];
              profile_experiences := [];
              current_company_name := None;
              position_start := None |}.
Proof. repeat split; vm_compute; reflexivity. Qed.

(** C9, amended.  The parser returns a profile for every text, without
    raising.  When the text has no header line "## Education..." and does
    not itself begin with "Education", the education list is empty; when it
    has no header line "## Experience..." and does not itself begin with
    "Experience", the experience list is empty and no current company is
    designated. *)
Theorem missing_section_gives_empty_list (text : string) :
  exists p, parseProfile text = Normal p /\
    (startsWith "Education" text = false ->
     hasHeader "Education" None text = false ->
     education p = []) /\
    (startsWith "Experience" text = false ->
     hasHeader "Experience" None text = false ->
     profile_experiences p = [] /\ current_company_name p = None /\
     position_start p = None).
Proof.
  unfold parseProfile, parseEducation, parseExperience.
  destruct (parseEducationLines_total
              (eduLines (findSection "Education" (sections text))) [])
    as [e He].
  destruct (parseBlocks_total
              (expBlocks (findSection "Experience" (sections text))) expInit)
    as [st Hst].
  rewrite He, Hst. cbn [bind]. eexists. split; [reflexivity|].
  cbn [education profile_experiences current_company_name position_start].
  split.
  - intros Hs Hh. rewrite (findSection_missing _ _ Hs Hh) in He.
    injection He as <-. reflexivity.
  - intros Hs Hh. rewrite (findSection_missing _ _ Hs Hh) in Hst.
    injection Hst as <-. auto.
Qed.

Lemma missing_section_gives_empty_list_witness :
  exists p, parseProfile "Jane Doe | Engineer
## About
Builds things." = Normal p /\ education p = [] /\ profile_experiences p = [].
Proof.
  destruct (missing_section_gives_empty_list "Jane Doe | Engineer
## About
Builds things.") as (p & E & H1 & H2).
  exists p. split; [exact E|]. split.
  - apply H1; reflexivity.
  - apply H2; reflexivity.
Defined.

End ExaSections.

(* ------------------------------------------------------------------ *)
(** ** The matcher along a known text *)
(* ------------------------------------------------------------------ *)

Module Run.

Lemma rmatch_Seq r1 r2 x caps k :
  rmatch (Seq r1 r2) x caps k = rmatch r1 x caps (fun y c => rmatch r2 y c k).
Proof. reflexivity. Qed.

Lemma rmatch_Grp n r x caps k :
  rmatch (Grp n r) x caps k =
  rmatch r x caps (fun y c => k y ((n, take (idx y - idx x) (rest x)) :: c)).
Proof. reflexivity. Qed.

Lemma rmatch_Star g r x caps k :
  rmatch (Star g r) x caps k =
  repeatMatcher g (rmatch r) (String.length (rest x)) x caps k.
Proof. reflexivity. Qed.

Lemma rmatch_Cls p i q c s caps k :
  p c = true ->
  rmatch (Cls p) (at_ i q (String c s)) caps k = k (at_ (S i) (Some c) s) caps.
Proof. intros H. simpl. rewrite H. reflexivity. Qed.

Lemma rmatch_Cls_fail p i q s caps k :
  stops p s = true -> rmatch (Cls p) (at_ i q s) caps k = None.
Proof.
  intros H. destruct s as [|c s]; simpl in *; [reflexivity|].
  destruct (p c); [discriminate | reflexivity].
Qed.

Lemma rmatch_Lit w : forall i q t caps k,
  rmatch (Lit w) (at_ i q (w ++ t)) caps k =
  k (at_ (i + String.length w) (lastChar q w) t) caps.
Proof.
  induction w as [|c w IH]; intros i q t caps k.
  - simpl. rewrite Nat.add_0_r. reflexivity.
  - cbn [Lit]. rewrite rmatch_Seq. simpl append. simpl.
    rewrite Ascii.eqb_refl. unfold step. simpl.
    change {| idx := S i; prev := Some c; rest := w ++ t |}
      with (at_ (S i) (Some c) (w ++ t)).
    rewrite IH. rewrite Nat.add_succ_r. reflexivity.
Qed.

Lemma rmatch_Lit_fail w : forall i q s caps k,
  startsWith w s = false -> rmatch (Lit w) (at_ i q s) caps k = None.
Proof.
  induction w as [|c w IH]; intros i q s caps k H; [discriminate|].
  cbn [Lit]. rewrite rmatch_Seq. destruct s as [|a s]; [reflexivity|].
  simpl in H. simpl. rewrite (Ascii.eqb_sym a c).
  destruct (c =? a)%char; [|reflexivity]. simpl in H.
  apply (IH (S i) (Some a) s). exact H.
Qed.

Lemma succ_neq i : Nat.eqb (S i) i = false.
Proof. apply Nat.eqb_neq. lia. Qed.

(** A quantified class whose text does not go on: only the continuation. *)
Lemma repeat_stop g p n i q s caps k :
  stops p s = true ->
  repeatMatcher g (rmatch (Cls p)) n (at_ i q s) caps k = k (at_ i q s) caps.
Proof.
  intros H. destruct n as [|n]; [reflexivity|]. cbn [repeatMatcher].
  rewrite (rmatch_Cls_fail _ _ _ _ _ _ H).
  destruct g; destruct (k (at_ i q s) caps); reflexivity.
Qed.

(** A greedy class reads the whole run when the continuation takes it. *)
Lemma repeat_greedy_all p a : forall t i q n caps k z,
  allChars p a = true -> stops p t = true ->
  (String.length (a ++ t) <= n)%nat ->
  k (at_ (i + String.length a) (lastChar q a) t) caps = Some z ->
  repeatMatcher true (rmatch (Cls p)) n (at_ i q (a ++ t)) caps k = Some z.
Proof.
  induction a as [|c a IH]; intros t i q n caps k z Ha Ht Hn Hk.
  - simpl. rewrite (repeat_stop _ _ _ _ _ _ _ _ Ht).
    simpl in Hk. rewrite Nat.add_0_r in Hk. exact Hk.
  - destruct n as [|n]; [simpl in Hn; lia|].
    simpl in Ha. apply andb_true_iff in Ha. destruct Ha as [Hc Ha].
    cbn [repeatMatcher]. simpl append. rewrite (rmatch_Cls _ _ _ _ _ _ _ Hc).
    cbn [idx at_]. rewrite succ_neq.
    rewrite (IH t (S i) (Some c) n caps k z Ha Ht); [reflexivity| |].
    + simpl in Hn. lia.
    + simpl in Hk. rewrite Nat.add_succ_r in Hk. exact Hk.
Qed.

(** A lazy class reads on while the continuation refuses, and stops at the
    first place where it accepts. *)
Lemma repeat_lazy_scan p a : forall t i q n caps k z,
  allChars p a = true ->
  (forall a1 a2, a = a1 ++ a2 -> a2 <> "" ->
     k (at_ (i + String.length a1) (lastChar q a1) (a2 ++ t)) caps = None) ->
  (String.length (a ++ t) <= n)%nat ->
  k (at_ (i + String.length a) (lastChar q a) t) caps = Some z ->
  repeatMatcher false (rmatch (Cls p)) n (at_ i q (a ++ t)) caps k = Some z.
Proof.
  induction a as [|c a IH]; intros t i q n caps k z Ha Hf Hn Hk.
  - simpl in *. rewrite Nat.add_0_r in Hk.
    destruct n as [|n]; cbn [repeatMatcher]; rewrite Hk; reflexivity.
  - destruct n as [|n]; [simpl in Hn; lia|].
    simpl in Ha. apply andb_true_iff in Ha. destruct Ha as [Hc Ha].
    cbn [repeatMatcher].
    pose proof (Hf "" (String c a) eq_refl ltac:(discriminate)) as H0.
    simpl in H0. rewrite Nat.add_0_r in H0. simpl append. rewrite H0.
    rewrite (rmatch_Cls _ _ _ _ _ _ _ Hc). cbn [idx at_]. rewrite succ_neq.
    apply IH; [exact Ha | | simpl in Hn; lia
              | simpl in Hk; rewrite Nat.add_succ_r in Hk; exact Hk].
    intros a1 a2 E N. specialize (Hf (String c a1) a2).
    simpl in Hf. rewrite Nat.add_succ_r in Hf. apply Hf; [rewrite E; reflexivity | exact N].
Qed.

(** *** Text without a separator *)

Lemma unbroken_cons c s :
  unbroken (String c s) = (negb (isSpace c && atWord s) && unbroken s)%bool.
Proof. reflexivity. Qed.

Lemma endsSolid_cons c s : s <> "" -> endsSolid (String c s) = endsSolid s.
Proof. destruct s; [congruence | reflexivity]. Qed.

Lemma endsSolid_suffix a : forall b,
  b <> "" -> endsSolid (a ++ b) = true -> endsSolid b = true.
Proof.
  induction a as [|c a IH]; intros b N H; [exact H|].
  simpl append in H. rewrite endsSolid_cons in H; [apply IH; assumption|].
  destruct a; simpl; [exact N | discriminate].
Qed.

Lemma unbroken_suffix a : forall b,
  unbroken (a ++ b) = true -> unbroken b = true.
Proof.
  induction a as [|c a IH]; intros b H; [exact H|].
  cbn [append] in H. rewrite unbroken_cons in H.
  apply andb_true_iff in H. apply IH, H.
Qed.

(** Where the text does not go on with the word "at", before white space,
    the pattern ["at\s+..."] fails. *)
Lemma word_fail R w u i q caps k :
  startsSolid w = false -> w <> "" -> atWord u = false ->
  rmatch (Seq (Lit "at") (Seq (Plus true (Cls isSpace)) R))
         (at_ i q (u ++ w)) caps k = None.
Proof.
  intros Hw Nw Hu. rewrite rmatch_Seq.
  destruct (startsWith "at" (u ++ w)) eqn:E; [|apply rmatch_Lit_fail; exact E].
  destruct (startsWith_split _ _ E) as [t Et]. rewrite Et, rmatch_Lit.
  unfold Plus. rewrite rmatch_Seq. apply rmatch_Cls_fail.
  destruct w as [|x w]; [congruence|]. cbn [startsSolid] in Hw.
  apply negb_false_iff in Hw.
  clear E. destruct u as [|a [|b [|c u]]]; cbn [append] in Et.
  - injection Et as -> _. discriminate Hw.
  - injection Et as _ -> _. discriminate Hw.
  - injection Et as -> -> _. discriminate Hu.
  - injection Et as -> -> <-. unfold atWord in Hu. cbn in Hu.
    cbn [stops]. rewrite Hu. reflexivity.
Qed.

(** After white space, a text in which no white space is followed by the
    word "at", and which does not begin with it, never reaches the second
    white space of the pattern. *)
Lemma spaces_then_word_fail R w u : forall i q n caps k,
  startsSolid w = false -> w <> "" ->
  endsSolid u = true -> unbroken u = true -> atWord u = false ->
  repeatMatcher true (rmatch (Cls isSpace)) n (at_ i q (u ++ w)) caps
    (fun y c => rmatch (Seq (Lit "at") (Seq (Plus true (Cls isSpace)) R)) y c k)
  = None.
Proof.
  induction u as [|c u IH]; intros i q n caps k Hw Nw He Hn Hs; [discriminate|].
  assert (Hk : rmatch (Seq (Lit "at") (Seq (Plus true (Cls isSpace)) R))
                 (at_ i q (String c u ++ w)) caps k = None)
    by (apply word_fail; assumption).
  destruct (isSpace c) eqn:Hc.
  - destruct n as [|n]; [exact Hk|].
    cbn [repeatMatcher].
    change (String c u ++ w) with (String c (u ++ w)) in *.
    rewrite (rmatch_Cls _ _ _ _ _ _ _ Hc). cbn [idx at_]. rewrite succ_neq.
    assert (Nu : u <> "").
    { intros ->. simpl in He. rewrite Hc in He. discriminate. }
    rewrite unbroken_cons, Hc, andb_true_l in Hn.
    apply andb_true_iff in Hn. destruct Hn as [Hn1 Hn2].
    apply negb_true_iff in Hn1.
    change {| idx := S i; prev := Some c; rest := u ++ w |}
      with (at_ (S i) (Some c) (u ++ w)).
    rewrite (IH (S i) (Some c) n caps k); try assumption.
    rewrite endsSolid_cons in He; assumption.
  - rewrite repeat_stop; [exact Hk|]. simpl. rewrite Hc. reflexivity.
Qed.

Lemma separator_fail R w u i q caps k :
  startsSolid w = false -> w <> "" ->
  endsSolid u = true -> unbroken u = true ->
  rmatch (Seq (Plus true (Cls isSpace))
              (Seq (Lit "at") (Seq (Plus true (Cls isSpace)) R)))
         (at_ i q (u ++ w)) caps k = None.
Proof.
  intros Hw Nw He Hn. destruct u as [|c u]; [discriminate|].
  rewrite rmatch_Seq. unfold Plus at 1. rewrite rmatch_Seq.
  change (String c u ++ w) with (String c (u ++ w)).
  destruct (isSpace c) eqn:Hc.
  - rewrite (rmatch_Cls _ _ _ _ _ _ _ Hc). rewrite rmatch_Star.
    assert (Nu : u <> "").
    { intros ->. simpl in He. rewrite Hc in He. discriminate. }
    rewrite unbroken_cons, Hc, andb_true_l in Hn.
    apply andb_true_iff in Hn. destruct Hn as [Hn1 Hn2].
    apply negb_true_iff in Hn1.
    apply spaces_then_word_fail; try assumption.
    rewrite endsSolid_cons in He; assumption.
  - apply rmatch_Cls_fail. simpl. rewrite Hc. reflexivity.
Qed.

Lemma repeat_greedy_rest p a i q n caps k z :
  allChars p a = true -> (String.length a <= n)%nat ->
  k (at_ (i + String.length a) (lastChar q a) "") caps = Some z ->
  repeatMatcher true (rmatch (Cls p)) n (at_ i q a) caps k = Some z.
Proof.
  intros Ha Hn Hk.
  replace (at_ i q a) with (at_ i q (a ++ ""))
    by (rewrite append_empty_r; reflexivity).
  apply repeat_greedy_all; try assumption; [reflexivity|].
  rewrite append_empty_r. exact Hn.
Qed.

Lemma take_append a : forall b, take (String.length a) (a ++ b) = a.
Proof.
  induction a as [|c a IH]; intros b; simpl; [|rewrite IH]; reflexivity.
Qed.

Lemma take_all a : take (String.length a) a = a.
Proof.
  induction a as [|c a IH]; simpl; [|rewrite IH]; reflexivity.
Qed.

End Run.

Module EduLine.
Import Exa Run.

Lemma blank_parts g :
  blank g = true ->
  g <> "" /\ allChars isSpace g = true /\ allChars notNl g = true /\
  startsSolid g = false.
Proof.
  unfold blank. intros H. apply andb_true_iff in H. destruct H as [T H].
  destruct g as [|c g]; [discriminate|]. split; [discriminate|].
  assert (A : forall t, allChars gapChar t = true ->
                        allChars isSpace t = true /\ allChars notNl t = true).
  { induction t as [|x t IH]; [split; reflexivity|]. cbn [allChars].
    intros K. apply andb_true_iff in K. destruct K as [K1 K2].
    unfold gapChar in K1. apply andb_true_iff in K1. destruct K1 as [K1 K3].
    destruct (IH K2) as [I1 I2]. unfold notNl at 1. rewrite K1, K3, I1, I2.
    split; reflexivity. }
  destruct (A _ H) as [A1 A2]. split; [exact A1|]. split; [exact A2|].
  cbn [allChars] in A1. apply andb_true_iff in A1. destruct A1 as [A1 _].
  cbn [startsSolid]. rewrite A1. reflexivity.
Qed.

Lemma eduLine_exec q d g1 g2 s :
  allChars dot d = true -> startsSolid d = true -> endsSolid d = true ->
  unbroken d = true ->
  g1 <> "" -> allChars isSpace g1 = true ->
  g2 <> "" -> allChars isSpace g2 = true ->
  allChars dot s = true -> startsSolid s = true ->
  exists z, exec eduLineRe q ("### " ++ d ++ g1 ++ "at" ++ g2 ++ s) = Some z /\
            snd z = [(2, s); (1, d)].
Proof.
  intros Hd Sd Ed Nd N1 H1 N2 H2 Hs Ss.
  destruct d as [|c0 d']; [discriminate|].
  destruct s as [|c1 s']; [discriminate|].
  destruct g1 as [|x1 g1']; [congruence|].
  destruct g2 as [|x2 g2']; [congruence|].
  simpl in Hd, Sd, Hs, Ss, H1, H2.
  apply andb_true_iff in Hd. destruct Hd as [Hc0 Hd].
  apply andb_true_iff in Hs. destruct Hs as [Hc1 Hs].
  apply andb_true_iff in H1. destruct H1 as [Hx1 H1].
  apply andb_true_iff in H2. destruct H2 as [Hx2 H2].
  eexists. split.
  - unfold exec, eduLineRe, ws.
    change {| idx := 0; prev := q;
              rest := "### " ++ String c0 d' ++ String x1 g1' ++ "at" ++
                      String x2 g2' ++ String c1 s' |}
      with (at_ 0 q ("###" ++ (" " ++ (String c0 (d' ++
              String x1 (g1' ++ ("at" ++ String x2 (g2' ++ String c1 s')))))))).
    rewrite rmatch_Seq, rmatch_Lit, rmatch_Seq, rmatch_Star.
    apply (repeat_greedy_all isSpace " "); [reflexivity | exact Sd | apply le_n |].
    rewrite rmatch_Seq, rmatch_Grp. unfold Plus at 1. rewrite rmatch_Seq.
    rewrite (rmatch_Cls _ _ _ _ _ _ _ Hc0), rmatch_Star.
    apply (repeat_lazy_scan dot d'); [exact Hd | | apply le_n |].
    + intros a1 a2 E N. apply separator_fail.
      * cbn [startsSolid]. rewrite Hx1. reflexivity.
      * discriminate.
      * apply (endsSolid_suffix (String c0 a1)); [exact N|].
        simpl append. rewrite <- E. exact Ed.
      * apply (unbroken_suffix (String c0 a1)).
        simpl append. rewrite <- E. exact Nd.
    + rewrite rmatch_Seq. unfold Plus at 1. rewrite rmatch_Seq.
      rewrite (rmatch_Cls isSpace _ _ x1 _ _ _ Hx1), rmatch_Star.
      apply (repeat_greedy_all isSpace g1');
        [exact H1 | reflexivity | apply le_n |].
      rewrite rmatch_Seq, rmatch_Lit, rmatch_Seq. unfold Plus at 1.
      rewrite rmatch_Seq.
      rewrite (rmatch_Cls isSpace _ _ x2 _ _ _ Hx2), rmatch_Star.
      apply (repeat_greedy_all isSpace g2');
        [exact H2 | cbn [stops]; exact Ss | apply le_n |].
      rewrite rmatch_Grp. unfold Plus. rewrite rmatch_Seq.
      rewrite (rmatch_Cls _ _ _ _ _ _ _ Hc1), rmatch_Star.
      apply repeat_greedy_rest; [exact Hs | apply le_n |].
      unfold accept. reflexivity.
  - cbn [snd idx rest at_].
    match goal with |- [(2, take ?n _); (1, take ?m _)] = _ =>
      replace n with (String.length (String c1 s')) by (cbn [String.length]; lia);
      replace m with (String.length (String c0 d')) by (cbn [String.length]; lia)
    end.
    rewrite take_all.
    match goal with |- [_; (1, take _ ?t)] = _ =>
      change t with (String c0 d' ++
        String x1 (g1' ++ ("at" ++ String x2 (g2' ++ String c1 s'))))
    end.
    rewrite take_append. reflexivity.
Qed.
Lemma trimEnd_solid s : endsSolid s = true -> trimEnd s = s.
Proof.
  induction s as [|c s IH]; intros H; [discriminate|].
  destruct s as [|d s].
  - simpl in *. apply negb_true_iff in H. rewrite H. reflexivity.
  - rewrite endsSolid_cons in H by discriminate.
    change (trimEnd (String c (String d s)))
      with (match trimEnd (String d s) with
            | EmptyString => if isSpace c then EmptyString else String c EmptyString
            | t => String c t
            end).
    rewrite (IH H). reflexivity.
Qed.

Lemma trim_solid s : startsSolid s = true -> endsSolid s = true -> trim s = s.
Proof.
  intros Hs He. unfold trim.
  replace (trimStart s) with s; [apply trimEnd_solid, He|].
  destruct s as [|c s]; [reflexivity|]. simpl in *.
  apply negb_true_iff in Hs. rewrite Hs. reflexivity.
Qed.

Lemma eduLine_search d g1 g2 s :
  allChars dot d = true -> startsSolid d = true -> endsSolid d = true ->
  unbroken d = true ->
  g1 <> "" -> allChars isSpace g1 = true ->
  g2 <> "" -> allChars isSpace g2 = true ->
  allChars dot s = true -> startsSolid s = true ->
  exists m, search eduLineRe ("### " ++ d ++ g1 ++ "at" ++ g2 ++ s) = Some m /\
            group 1 m = Some d /\ group 2 m = Some s.
Proof.
  intros Hd Sd Ed Nd N1 H1 N2 H2 Hs Ss.
  destruct (eduLine_exec None d g1 g2 s Hd Sd Ed Nd N1 H1 N2 H2 Hs Ss)
    as ([y caps] & E & G).
  simpl in G. subst caps. unfold search.
  change ("### " ++ d ++ g1 ++ "at" ++ g2 ++ s)
    with (String "#" ("## " ++ d ++ g1 ++ "at" ++ g2 ++ s)) in *.
  cbn [searchFrom]. rewrite E. eexists. split; [reflexivity|].
  split; reflexivity.
Qed.

(** *** Link markup *)

Lemma linkRe_exec_other p s :
  stops (fun c => (c =? "[")%char) s = true -> exec linkRe p s = None.
Proof.
  intros H. unfold exec, linkRe. rewrite rmatch_Seq.
  destruct s as [|c s]; [reflexivity|]. simpl in H. simpl.
  apply negb_true_iff in H. rewrite H. reflexivity.
Qed.

Lemma replace_no_match r f s : forall p,
  searchFrom r p s = None -> replaceFrom r f 0 p s = s.
Proof.
  induction s as [|c s IH]; intros p H; cbn [searchFrom] in H;
    destruct (exec r p _) as [[y caps]|] eqn:E; try discriminate;
    cbn [replaceFrom]; rewrite E; [reflexivity|].
  destruct (searchFrom r (Some c) s) eqn:F; [discriminate|].
  rewrite (IH _ F). reflexivity.
Qed.

Lemma replace_unlinked s :
  test linkRe s = false -> replaceAll linkRe firstGroup s = s.
Proof.
  unfold test, search, replaceAll. intros H. apply replace_no_match.
  destruct (searchFrom linkRe None s); [discriminate | reflexivity].
Qed.

Lemma replace_skip_all f s : forall p,
  replaceFrom linkRe f (String.length s) p s = "".
Proof.
  induction s as [|c s IH]; intros p.
  - cbn [replaceFrom String.length]. rewrite linkRe_exec_other; reflexivity.
  - cbn [replaceFrom String.length]. apply IH.
Qed.

Lemma linkRe_exec_link p name :
  name <> "" -> allChars (isNot ["]"%char]) name = true ->
  exists y, exec linkRe p ("[" ++ name ++ "]<web_link>") = Some (y, [(1, name)]) /\
            idx y = S (String.length (name ++ "]<web_link>")).
Proof.
  intros N H. destruct name as [|c n']; [congruence|].
  simpl in H. apply andb_true_iff in H. destruct H as [Hc H].
  unfold exec, linkRe.
  change {| idx := 0; prev := p; rest := "[" ++ String c n' ++ "]<web_link>" |}
    with (at_ 0 p (String "[" (String c (n' ++ ("]<web_link>" ++ ""))))).
  rewrite rmatch_Seq.
  assert (Hchr : forall i q a s caps k,
    rmatch (Chr a) (at_ i q (String a s)) caps k = k (at_ (S i) (Some a) s) caps).
  { intros. simpl. rewrite Ascii.eqb_refl. reflexivity. }
  rewrite Hchr, rmatch_Seq, rmatch_Grp. unfold Plus. rewrite rmatch_Seq.
  rewrite (rmatch_Cls _ _ _ _ _ _ _ Hc), rmatch_Star.
  eexists. split.
  - apply (repeat_greedy_all _ n'); [exact H | reflexivity | apply le_n |].
    rewrite rmatch_Lit. unfold accept. cbn [idx rest at_].
    match goal with |- Some (_, [(1, take ?n _)]) = _ =>
      replace n with (String.length (String c n')) by (cbn [String.length]; lia)
    end.
    change (String c (n' ++ "]<web_link>" ++ ""))
      with (String c n' ++ ("]<web_link>" ++ "")).
    rewrite take_append. reflexivity.
  - cbn [idx at_]. rewrite length_append. cbn [String.length]. lia.
Qed.

Lemma replace_link name :
  name <> "" -> allChars (isNot ["]"%char]) name = true ->
  replaceAll linkRe firstGroup
             ("[" ++ name ++ "]<web_link>") = name.
Proof.
  intros N H. unfold replaceAll.
  destruct (linkRe_exec_link None name N H) as (y & E & I).
  change ("[" ++ name ++ "]<web_link>")
    with (String "[" (name ++ "]<web_link>")) in *.
  cbn [replaceFrom]. rewrite E, I. rewrite replace_skip_all.
  simpl. apply append_empty_r.
Qed.

Lemma allChars_append p a b :
  allChars p (a ++ b) = (allChars p a && allChars p b)%bool.
Proof.
  induction a as [|c a IH]; simpl; [reflexivity|].
  rewrite IH, andb_assoc. reflexivity.
Qed.

Lemma endsSolid_append a b : endsSolid b = true -> endsSolid (a ++ b) = true.
Proof.
  intros H. induction a as [|c a IH]; [exact H|].
  simpl append. rewrite endsSolid_cons; [exact IH|].
  destruct a; [destruct b; [discriminate H | discriminate] | discriminate].
Qed.

Lemma plain_parts s :
  plain s = true ->
  allChars dot s = true /\ startsSolid s = true /\ endsSolid s = true.
Proof.
  unfold plain. intros H. apply andb_true_iff in H. destruct H as [H H3].
  apply andb_true_iff in H. tauto.
Qed.

Lemma dot_notNl s : allChars dot s = true -> allChars notNl s = true.
Proof.
  induction s as [|c s IH]; [reflexivity|]. cbn [allChars]. intros H.
  apply andb_true_iff in H. destruct H as [Hc H]. rewrite (IH H), andb_true_r.
  unfold dot, isLineTerminator in Hc. unfold notNl.
  destruct (c =? nl)%char; [discriminate Hc | reflexivity].
Qed.

Lemma parseEducationLine_of d g1 g2 s :
  allChars dot d = true -> startsSolid d = true -> endsSolid d = true ->
  unbroken d = true ->
  g1 <> "" -> allChars isSpace g1 = true ->
  g2 <> "" -> allChars isSpace g2 = true ->
  plain s = true ->
  parseEducationLine ("### " ++ d ++ g1 ++ "at" ++ g2 ++ s) =
  Normal (Some (edu (replaceAll linkRe firstGroup s) d)).
Proof.
  intros Hd Sd Ed Nd N1 H1 N2 H2 Ps.
  destruct (plain_parts _ Ps) as (Hs & Ss & Es).
  destruct (eduLine_search d g1 g2 s Hd Sd Ed Nd N1 H1 N2 H2 Hs Ss)
    as (m & E & G1 & G2).
  unfold parseEducationLine. rewrite E, G1, G2. cbn [defined bind].
  rewrite (trim_solid _ Sd Ed), (trim_solid _ Ss Es). reflexivity.
Qed.

(** *** The list of the entries *)

Lemma parseEducationLines_fold lines : forall acc,
  parseEducationLines lines acc = Normal (acc ++ flat_map recorded lines)%list.
Proof.
  induction lines as [|l ls IH]; intros acc; cbn [parseEducationLines flat_map].
  - rewrite app_nil_r. reflexivity.
  - unfold recorded at 1.
    destruct (ExaTotal.parseEducationLine_total l) as [r E]. rewrite E.
    cbn [bind]. rewrite IH. destruct r as [e|].
    + rewrite <- app_assoc. reflexivity.
    + reflexivity.
Qed.

Lemma splitChar_line l : allChars notNl l = true -> splitChar nl l = [l].
Proof.
  induction l as [|c l IH]; [reflexivity|]. cbn [allChars]. intros H.
  apply andb_true_iff in H. destruct H as [Hc H]. apply negb_true_iff in Hc.
  cbn [splitChar]. rewrite Hc, (IH H). reflexivity.
Qed.

Lemma splitChar_joinLines ls :
  ls <> [] -> Forall (fun l => allChars notNl l = true) ls ->
  splitChar nl (joinLines ls) = ls.
Proof.
  induction ls as [|l ls IH]; intros N F; [congruence|].
  inversion F as [|? ? Hl Hls]; subst. destruct ls as [|l' ls].
  - apply splitChar_line, Hl.
  - change (joinLines (l :: l' :: ls))
      with (l ++ newline ++ joinLines (l' :: ls)).
    rewrite (ExaRanges.splitChar_first_line _ _ Hl), IH;
      [reflexivity | discriminate | exact Hls].
Qed.

(** *** A degree that holds a separator *)

Lemma atWord_parts u :
  atWord u = true -> exists t, u = "at" ++ t /\ startsSolid t = false.
Proof.
  unfold atWord. intros H. apply andb_true_iff in H. destruct H as [S H].
  destruct (startsWith_split _ _ S) as [t ->]. exists t. split; [reflexivity|].
  destruct t as [|c t]; [reflexivity|]. cbn in H. cbn [startsSolid].
  rewrite H. reflexivity.
Qed.

Lemma atWord_of t : startsSolid t = false -> atWord ("at" ++ t) = true.
Proof.
  intros H. destruct t as [|c t]; [reflexivity|]. cbn [startsSolid] in H.
  apply negb_false_iff in H. cbn. exact H.
Qed.

Lemma atWord_more u w :
  atWord u = true -> startsSolid w = false -> atWord (u ++ w) = true.
Proof.
  intros H Hw. destruct (atWord_parts _ H) as (t & -> & Ht).
  rewrite append_assoc. apply atWord_of.
  destruct t as [|c t]; [exact Hw | exact Ht].
Qed.

(** A text in which some white space is followed by the word "at" is cut
    before the first such white space. *)
Lemma broken_parts D :
  unbroken D = false ->
  exists d g r, D = d ++ g ++ "at" ++ r /\ unbroken d = true /\
    (d = "" \/ endsSolid d = true) /\
    g <> "" /\ allChars isSpace g = true /\ startsSolid r = false.
Proof.
  induction D as [|c D IH]; [discriminate|]. rewrite unbroken_cons.
  destruct (isSpace c && atWord D)%bool eqn:A.
  - intros _. apply andb_true_iff in A. destruct A as [Hc A].
    destruct (atWord_parts _ A) as (r & -> & Hr).
    exists "", (String c ""), r. cbn [allChars]. rewrite Hc.
    repeat split; try reflexivity; [left; reflexivity | discriminate | exact Hr].
  - cbn [negb andb]. intros U.
    destruct (IH U) as (d & g & r & -> & Ud & Ed & Ng & Hg & Hr).
    assert (Sw : startsSolid (g ++ "at" ++ r) = false).
    { destruct g as [|x g]; [congruence|]. cbn [allChars] in Hg.
      apply andb_true_iff in Hg. destruct Hg as [Hx _].
      cbn [append startsSolid]. rewrite Hx. reflexivity. }
    destruct d as [|y d].
    + cbn [append] in *. destruct (isSpace c) eqn:Hc.
      * exists "", (String c g), r. cbn [allChars append]. rewrite Hc, Hg.
        repeat split; try reflexivity; [left; reflexivity | discriminate | exact Hr].
      * exists (String c ""), g, r. cbn [unbroken endsSolid]. rewrite Hc.
        repeat split; try reflexivity; try assumption. right. reflexivity.
    + destruct Ed as [Ed|Ed]; [discriminate|].
      exists (String c (String y d)), g, r.
      rewrite unbroken_cons, Ud, endsSolid_cons by discriminate.
      assert (K : (isSpace c && atWord (String y d))%bool = false).
      { destruct (isSpace c); [|reflexivity]. cbn [andb] in *.
        destruct (atWord (String y d)) eqn:W; [|reflexivity].
        rewrite (atWord_more _ _ W Sw) in A. discriminate. }
      rewrite K. repeat split; try reflexivity; try assumption.
      right. exact Ed.
Qed.

(** The white space at the head of a text that ends with something else. *)
Lemma leading_spaces r :
  endsSolid r = true ->
  exists g m, r = g ++ m /\ allChars isSpace g = true /\ startsSolid m = true.
Proof.
  induction r as [|c r IH]; [discriminate|]. intros E.
  destruct (isSpace c) eqn:Hc.
  - destruct r as [|x r]; [cbn in E; rewrite Hc in E; discriminate|].
    rewrite endsSolid_cons in E by discriminate.
    destruct (IH E) as (g & m & -> & Hg & Hm).
    exists (String c g), m. cbn [allChars]. rewrite Hc, Hg.
    repeat split. exact Hm.
  - exists "", (String c r). cbn [startsSolid]. rewrite Hc. repeat split.
Qed.

Lemma blank_of g :
  g <> "" -> allChars isSpace g = true -> allChars dot g = true ->
  blank g = true.
Proof.
  intros N Hs Hd. unfold blank. destruct g as [|c g]; [congruence|].
  cbn [truthy andb]. revert Hs Hd. generalize (String c g). clear.
  induction s as [|x s IH]; [reflexivity|]. cbn [allChars]. intros Hs Hd.
  apply andb_true_iff in Hs. destruct Hs as [Hx Hs].
  apply andb_true_iff in Hd. destruct Hd as [Dx Hd].
  rewrite (IH Hs Hd), andb_true_r. unfold gapChar. rewrite Hx.
  unfold dot, isLineTerminator in Dx.
  destruct (x =? nl)%char; [discriminate Dx | reflexivity].
Qed.

Lemma broken_degree D S :
  plain D = true -> plain S = true -> unbroken D = false ->
  exists d gap more s,
    D = d ++ gap ++ "at" ++ more /\ plain d = true /\ unbroken d = true /\
    blank gap = true /\ startsSolid more = false /\
    parseEducationLine ("### " ++ D ++ " at " ++ S) = Normal (Some (edu s d)).
Proof.
  intros PD PS U.
  destruct (plain_parts _ PD) as (HD & SD & ED).
  destruct (plain_parts _ PS) as (HS & SS & ES).
  destruct (broken_parts D U) as (d & g & r & -> & Ud & Ed & Ng & Hg & Hr).
  assert (Nd : d <> "").
  { intros ->. destruct g as [|x g]; [congruence|]. cbn [allChars] in Hg.
    apply andb_true_iff in Hg. destruct Hg as [Hx _].
    cbn [append startsSolid] in SD. rewrite Hx in SD. discriminate. }
  destruct Ed as [Ed|Ed]; [congruence|].
  assert (Sd : startsSolid d = true).
  { destruct d as [|y d]; [congruence|]. exact SD. }
  rewrite !allChars_append in HD.
  apply andb_true_iff in HD. destruct HD as [Hd HD].
  apply andb_true_iff in HD. destruct HD as [Hg' HD].
  apply andb_true_iff in HD. destruct HD as [_ Hr'].
  set (tail := r ++ " at " ++ S).
  assert (Et : endsSolid tail = true) by (apply endsSolid_append, endsSolid_append, ES).
  assert (St : startsSolid tail = false).
  { unfold tail. destruct r as [|x r]; [reflexivity | exact Hr]. }
  assert (Ht : allChars dot tail = true).
  { unfold tail. rewrite !allChars_append, Hr', HS. reflexivity. }
  destruct (leading_spaces tail Et) as (g2 & m & Em & Hg2 & Sm).
  assert (Ng2 : g2 <> "").
  { intros ->. cbn [append] in Em. rewrite Em, Sm in St. discriminate. }
  assert (Pm : plain m = true).
  { unfold plain. rewrite Sm. rewrite Em, allChars_append in Ht.
    apply andb_true_iff in Ht. destruct Ht as [_ Ht]. rewrite Ht. cbn [andb].
    apply (endsSolid_suffix g2); [|rewrite <- Em; exact Et].
    intros ->. discriminate. }
  exists d, g, r, (replaceAll linkRe firstGroup m).
  split; [reflexivity|].
  split; [unfold plain; rewrite Hd, Sd, Ed; reflexivity|].
  split; [exact Ud|]. split; [apply blank_of; assumption|].
  split; [exact Hr|].
  replace ("### " ++ (d ++ g ++ "at" ++ r) ++ " at " ++ S)
    with ("### " ++ d ++ g ++ "at" ++ g2 ++ m).
  - apply parseEducationLine_of; assumption.
  - rewrite <- Em. unfold tail. rewrite !append_assoc. reflexivity.
Qed.

Lemma educationLine_headed degree gap1 gap2 school :
  endsSolid school = true ->
  headed (educationLine degree gap1 gap2 school) = true.
Proof.
  intros Es. unfold headed, educationLine. rewrite trim_solid; [reflexivity..|].
  rewrite <- !append_assoc. apply endsSolid_append, Es.
Qed.

Lemma educationLine_notNl degree gap1 gap2 school :
  allChars dot degree = true -> allChars notNl gap1 = true ->
  allChars notNl gap2 = true -> allChars dot school = true ->
  allChars notNl (educationLine degree gap1 gap2 school) = true.
Proof.
  intros Hd H1 H2 Hs. unfold educationLine.
  rewrite !allChars_append, (dot_notNl _ Hd), (dot_notNl _ Hs), H1, H2.
  reflexivity.
Qed.

(** C4 as stated fails: the line "### Scholar at Large at MIT" has the form
    "### degree at school" for the degree "Scholar at Large" and the school
    "MIT", and the entry read from it has neither: the degree ends at the
    first " at ". *)
Lemma degree_is_cut_at_first_separator :
  "### Scholar at Large at MIT" = "### " ++ "Scholar at Large" ++ " at " ++ "MIT" /\
  plain "Scholar at Large" = true /\ plain "MIT" = true /\
  parseEducationLine "### Scholar at Large at MIT" =
    Normal (Some (edu "Large at MIT" "Scholar")) /\
  parseEducationLine "### Scholar at Large at MIT" <>
    Normal (Some (edu "MIT" "Scholar at Large")) /\
  (exists p, parseProfile scholarText = Normal p /\
             education p = [edu "Large at MIT" "Scholar"]).
Proof.
  split; [reflexivity|]. split; [reflexivity|]. split; [reflexivity|].
  split; [vm_compute; reflexivity|]. split; [vm_compute; discriminate|].
  eexists. split; [vm_compute; reflexivity | reflexivity].
Qed.

(** C4, amended.  Take a degree and a school that are plain texts with no
    white space outside ASCII, the degree holding no white space followed by
    the word "at", and two gaps of white space.  The line "### degree at
    school", with the gaps around "at", gives the entry of the degree and
    the school, link markup replaced by its text: the school itself when it
    holds no markup, and the same school when it is written
    "[school]<web_link>".  In an Education section the entry is recorded in
    the place of its line, whatever the lines above and below (without
    white space outside ASCII), which add what they record themselves; a
    line that the pattern does not match records nothing and raises no
    error; the list of a run of lines is what the lines record, in their
    order.  A degree that does hold white space followed by the word "at"
    is not read whole: the degree of the entry is its part before the first
    such white space.  The line of the specification gives MBA and Stanford
    University, and [educationText] gives its two entries. *)
Theorem education_line_is_recorded (degree gap1 gap2 school : string) :
  plain degree = true -> unbroken degree = true -> narrow degree = true ->
  blank gap1 = true -> blank gap2 = true ->
  plain school = true -> narrow school = true ->
  parseEducationLine (educationLine degree gap1 gap2 school) =
    Normal (Some (edu (replaceAll linkRe firstGroup school) degree)) /\
  (test linkRe school = false ->
   parseEducationLine (educationLine degree gap1 gap2 school) =
     Normal (Some (edu school degree))) /\
  (allChars (isNot ["]"%char]) school = true ->
   parseEducationLine
     (educationLine degree gap1 gap2 ("[" ++ school ++ "]<web_link>")) =
     Normal (Some (edu school degree))) /\
  (forall secs above below,
     find (startsWith "Education") secs =
       Some (joinLines (above ++ educationLine degree gap1 gap2 school :: below)) ->
     Forall (fun l => oneLine l = true) above ->
     Forall (fun l => oneLine l = true) below ->
     parseEducation secs =
     Normal (flat_map recorded (filter headed above) ++
             edu (replaceAll linkRe firstGroup school) degree ::
             flat_map recorded (filter headed below))%list) /\
  (forall line, narrow line = true -> test eduLineRe line = false ->
     parseEducationLine line = Normal None /\ recorded line = []) /\
  (forall lines acc,
     parseEducationLines lines acc =
     Normal (acc ++ flat_map recorded lines)%list) /\
  (forall whole, plain whole = true -> narrow whole = true ->
     unbroken whole = false ->
     exists d gap more s,
       whole = d ++ gap ++ "at" ++ more /\
       plain d = true /\ unbroken d = true /\
       blank gap = true /\ startsSolid more = false /\
       parseEducationLine ("### " ++ whole ++ " at " ++ school) =
         Normal (Some (edu s d))) /\
  parseEducationLine "### MBA at [Stanford University]<web_link>" =
    Normal (Some (edu "Stanford University" "MBA")) /\
  (exists p, parseProfile educationText = Normal p /\
     education p = [edu "MIT" "Diploma in atmospheric science";
                    edu "Stanford University" "MBA"]).
Proof.
  intros Pd Ud _ B1 B2 Ps _.
  destruct (plain_parts _ Pd) as (Hd & Sd & Ed).
  destruct (plain_parts _ Ps) as (Hs & Ss & Es).
  destruct (blank_parts _ B1) as (N1 & H1 & L1 & _).
  destruct (blank_parts _ B2) as (N2 & H2 & L2 & _).
  assert (Line : forall s, plain s = true ->
            parseEducationLine (educationLine degree gap1 gap2 s) =
            Normal (Some (edu (replaceAll linkRe firstGroup s) degree))).
  { intros s P. apply parseEducationLine_of; assumption. }
  split; [apply Line, Ps|]. split; [|split; [|split; [|split; [|split; [|split; [|split]]]]]].
  - intros T. rewrite (Line _ Ps), (replace_unlinked _ T). reflexivity.
  - intros Hc.
    assert (Ns : school <> "") by (destruct school; [discriminate|congruence]).
    rewrite Line, (replace_link _ Ns Hc); [reflexivity|].
    unfold plain. apply andb_true_iff. split; [apply andb_true_iff; split|].
    + change ("[" ++ school ++ "]<web_link>")
        with (String "[" (school ++ "]<web_link>")).
      cbn [allChars]. rewrite allChars_append, Hs. reflexivity.
    + reflexivity.
    + change ("[" ++ school ++ "]<web_link>")
        with (("[" ++ school) ++ "]<web_link>").
      apply endsSolid_append. reflexivity.
  - intros secs above below F Fa Fb.
    assert (Lines : forall ls, Forall (fun l => oneLine l = true) ls ->
                               Forall (fun l => allChars notNl l = true) ls).
    { intros ls. apply Forall_impl. intros l O. unfold oneLine in O.
      apply andb_true_iff in O. apply O. }
    apply Lines in Fa, Fb.
    unfold parseEducation, findSection, eduLines. rewrite F. cbn [orEmpty].
    rewrite splitChar_joinLines.
    + change (fun l => startsWith "###" (trim l)) with headed.
      rewrite filter_app. cbn [filter].
      rewrite (educationLine_headed _ _ _ _ Es), parseEducationLines_fold.
      cbn [app]. rewrite flat_map_app. cbn [flat_map].
      unfold recorded at 2. rewrite (Line _ Ps). reflexivity.
    + destruct above; discriminate.
    + apply Forall_app. split; [exact Fa|]. constructor; [|exact Fb].
      apply educationLine_notNl; assumption.
  - intros line _ T. unfold test in T.
    assert (E : parseEducationLine line = Normal None).
    { unfold parseEducationLine.
      destruct (search eduLineRe line); [discriminate | reflexivity]. }
    split; [exact E|]. unfold recorded. rewrite E. reflexivity.
  - apply parseEducationLines_fold.
  - intros whole Pw _ Uw. apply broken_degree; assumption.
  - vm_compute. reflexivity.
  - eexists. split; [vm_compute; reflexivity | reflexivity].
Qed.

Lemma education_line_is_recorded_witness :
  parseEducationLine "### Diploma in atmospheric science at MIT" =
    Normal (Some (edu "MIT" "Diploma in atmospheric science")) /\
  parseEducationLine "### Diploma in atmospheric science at [MIT]<web_link>" =
    Normal (Some (edu "MIT" "Diploma in atmospheric science")) /\
  parseEducation
    [""; joinLines ["Education"; "### no entry";
                    "### Diploma in atmospheric science at MIT";
                    "### MBA at [Stanford University]<web_link>"]] =
    Normal [edu "MIT" "Diploma in atmospheric science";
            edu "Stanford University" "MBA"].
Proof.
  destruct (education_line_is_recorded
              "Diploma in atmospheric science" " " " " "MIT")
    as (_ & H1 & H2 & H3 & _); try reflexivity.
  split; [apply H1; reflexivity|]. split; [apply H2; reflexivity|].
  apply (H3 [""; joinLines ["Education"; "### no entry";
                    "### Diploma in atmospheric science at MIT";
                    "### MBA at [Stanford University]<web_link>"]]
            ["Education"; "### no entry"]
            ["### MBA at [Stanford University]<web_link>"]);
    [reflexivity | repeat constructor | repeat constructor].
Defined.

End EduLine.

(* ------------------------------------------------------------------ *)
(** ** Numbers as text *)
(* ------------------------------------------------------------------ *)

Module Numbers.
Import Values.

Lemma digit_char d : (d < 10)%N ->
  isDigit (ascii_of_N (48 + d)) = true /\
  (N_of_ascii (ascii_of_N (48 + d)) - 48 = d)%N.
Proof.
  intro H. unfold isDigit, between.
  rewrite N_ascii_embedding by lia.
  split; [apply andb_true_intro; split; apply N.leb_le; lia | lia].
Qed.

(** What [digitsFrom] puts before [acc]: the decimal digits of [n]. *)
Lemma digitsFrom_digits count : forall n acc,
  (n < 2 ^ N.of_nat count)%N -> (0 < count)%nat ->
  exists d, digitsFrom count n acc = d ++ acc /\
            allChars isDigit d = true /\ d <> "" /\
            (forall k, (0 < k)%nat -> (n < 10 ^ N.of_nat k)%N ->
                       (String.length d <= k)%nat) /\
            (forall a t, digitsValue a (d ++ t) =
                         digitsValue (10 ^ Z.of_nat (String.length d) * a + Z.of_N n) t).
Proof.
  induction count as [|count IH]; intros n acc Hn Hc; [lia|].
  cbn [digitsFrom].
  assert (Hmod : (n mod 10 < 10)%N) by (apply N.mod_lt; discriminate).
  destruct (digit_char _ Hmod) as [Hd Hv].
  assert (Hdm : n = (10 * (n / 10) + n mod 10)%N) by (apply N.div_mod; discriminate).
  set (c := ascii_of_N (48 + n mod 10)) in *.
  set (q := (n / 10)%N) in *. set (r := (n mod 10)%N) in *.
  clearbody c q r.
  destruct (N.eqb_spec q 0) as [E|E].
  - exists (String c ""). repeat split.
    + simpl. rewrite Hd. reflexivity.
    + discriminate.
    + intros k Hk _. simpl. lia.
    + intros a t. simpl. rewrite Hd, Hv. f_equal. lia.
  - replace (N.of_nat (S count)) with (N.succ (N.of_nat count)) in Hn by lia.
    rewrite N.pow_succ_r' in Hn.
    assert (Hq : (q < 2 ^ N.of_nat count)%N) by lia.
    assert (Hc' : (0 < count)%nat).
    { destruct count; [|lia]. change (2 ^ N.of_nat 0)%N with 1%N in Hq. lia. }
    destruct (IH q (String c acc) Hq Hc') as (d & E1 & E2 & E3 & E4 & E5).
    exists (d ++ String c ""). repeat split.
    + rewrite E1. rewrite append_assoc. reflexivity.
    + rewrite EduLine.allChars_append, E2. simpl. rewrite Hd. reflexivity.
    + destruct d; discriminate.
    + intros k Hk Hlt. rewrite length_append. simpl.
      destruct k as [|k]; [lia|].
      destruct k as [|k].
      { change (10 ^ N.of_nat 1)%N with 10%N in Hlt. lia. }
      assert (String.length d <= S k)%nat; [|lia].
      apply E4; [lia|].
      replace (N.of_nat (S (S k))) with (N.succ (N.of_nat (S k))) in Hlt by lia.
      rewrite N.pow_succ_r' in Hlt. lia.
    + intros a t. rewrite append_assoc, E5. cbn [append digitsValue]. rewrite Hd, Hv.
      f_equal. rewrite length_append. cbn [String.length].
      replace (Z.of_nat (String.length d + 1)) with (Z.succ (Z.of_nat (String.length d))) by lia.
      rewrite Z.pow_succ_r by lia. lia.
Qed.

Lemma naturalToString_digits n :
  exists d, naturalToString n = d /\ allChars isDigit d = true /\ d <> "" /\
            (forall k, (0 < k)%nat -> (n < 10 ^ N.of_nat k)%N ->
                       (String.length d <= k)%nat) /\
            digitsValue 0 d = Z.of_N n.
Proof.
  unfold naturalToString.
  destruct (digitsFrom_digits (S (N.to_nat (N.log2 n))) n "") as (d & E1 & E2 & E3 & E4 & E5).
  - destruct n as [|p]; [reflexivity|].
    replace (N.of_nat (S (N.to_nat (N.log2 (N.pos p))))) with (N.succ (N.log2 (N.pos p))) by lia.
    apply N.log2_spec. lia.
  - lia.
  - exists d. rewrite E1, append_empty_r. repeat split; auto.
    specialize (E5 0%Z ""). rewrite append_empty_r in E5. rewrite E5.
    simpl. lia.
Qed.

Lemma parseDigits_digits d :
  allChars isDigit d = true -> d <> "" -> parseDigits d = Some (digitsValue 0 d).
Proof.
  intros H Hne. destruct d as [|c d]; [congruence|].
  cbn [allChars] in H. apply andb_prop in H as [Hc _].
  unfold parseDigits. rewrite Hc. reflexivity.
Qed.

Lemma parseInt_digits d :
  allChars isDigit d = true -> d <> "" -> parseInt d = Some (digitsValue 0 d).
Proof.
  intros H Hne. rewrite <- (parseDigits_digits d H Hne).
  destruct d as [|c d]; [congruence|].
  cbn [allChars] in H. apply andb_prop in H as [Hc _].
  unfold parseInt.
  assert (Hs : isSpace c = false).
  { destruct c as [[] [] [] [] [] [] [] []]; try discriminate Hc; reflexivity. }
  cbn [trimStart]. rewrite Hs.
  destruct c as [[] [] [] [] [] [] [] []]; try discriminate Hc; reflexivity.
Qed.

Lemma take_short n : forall s, (String.length s <= n)%nat -> take n s = s.
Proof.
  induction n as [|n IH]; intros [|c s] H; cbn [String.length] in H;
    try reflexivity; [lia|].
  cbn [take]. rewrite IH by lia. reflexivity.
Qed.



(** X2. The age of the company is the year of the request less the year of
    foundation, for a year of foundation of at most four characters; a year
    [0] gives no age. *)
Theorem company_age_of_founding_year (thisYear founded : Z) :
  (-999 <= founded <= 9999)%Z ->
  Server.companyAge thisYear (Some founded) =
    if (founded =? 0)%Z then None else Some (thisYear - founded)%Z.
Proof.
  intro H. unfold Server.companyAge. cbn [falsyNumber].
  destruct founded as [|p|p]; cbn [Z.eqb].
  - reflexivity.
  - unfold numberToString.
    destruct (naturalToString_digits (N.pos p)) as (d & -> & Hd & Hne & Hl & Hv).
    rewrite take_short by (apply Hl; [lia|change (10 ^ N.of_nat 4)%N with 10000%N; lia]).
    rewrite (parseInt_digits d Hd Hne), Hv. reflexivity.
  - unfold numberToString.
    destruct (naturalToString_digits (N.pos p)) as (d & -> & Hd & Hne & Hl & Hv).
    rewrite take_short.
    + unfold parseInt. cbn [trimStart].
      change (isSpace "-") with false. cbv iota.
      rewrite (parseDigits_digits d Hd Hne), Hv. cbn [option_map].
      f_equal.
    + cbn [String.length].
      assert (String.length d <= 3)%nat; [|lia].
      apply Hl; [lia|change (10 ^ N.of_nat 3)%N with 1000%N; lia].
Qed.

Lemma company_age_of_founding_year_witness :
  Server.companyAge 2026 (Some 1998%Z) = Some 28%Z.
Proof. apply (company_age_of_founding_year 2026 1998). lia. Defined.

End Numbers.

(* ------------------------------------------------------------------ *)
(** ** The address of the profile *)
(* ------------------------------------------------------------------ *)

Module UrlFacts.
Import Values Url.

Lemma startsWith_refl w s : startsWith w (w ++ s) = true.
Proof.
  induction w as [|c w IH]; [reflexivity|].
  simpl. rewrite Ascii.eqb_refl. exact IH.
Qed.

Lemma includes_here m s : includes m (m ++ s) = true.
Proof.
  destruct (m ++ s) as [|c t] eqn:E; cbn [includes];
    rewrite <- E, startsWith_refl; reflexivity.
Qed.

Lemma includes_later m a : forall s, includes m s = true -> includes m (a ++ s) = true.
Proof.
  induction a as [|c a IH]; intros s H; [exact H|].
  cbn [append includes]. rewrite (IH s H). apply orb_true_r.
Qed.

Lemma includes_split m : forall s,
  includes m s = true -> exists a b, s = a ++ m ++ b.
Proof.
  induction s as [|c s IH]; intro H.
  - destruct m; [|discriminate]. exists "", "". reflexivity.
  - cbn [includes] in H. apply orb_true_iff in H as [H|H].
    + destruct (startsWith_split m _ H) as [t E]. exists "", t. exact E.
    + destruct (IH H) as (a & b & E). exists (String c a), b. rewrite E. reflexivity.
Qed.

(** The pieces of a split. *)
Lemma splitChar_pieces sep s :
  Forall (fun q => allChars (isNot [sep]) q = true) (splitChar sep s).
Proof.
  induction s as [|c s IH]; [repeat constructor|].
  cbn [splitChar]. destruct (Ascii.eqb_spec c sep) as [E|E].
  - constructor; [reflexivity|exact IH].
  - assert (Hc : isNot [sep] c = true).
    { unfold isNot. cbn [existsb]. apply Ascii.eqb_neq in E. rewrite E. reflexivity. }
    destruct (splitChar sep s) as [|l ls].
    + constructor; [|constructor]. cbn [allChars]. rewrite Hc. reflexivity.
    + inversion IH as [|? ? Hl Hls]; subst.
      constructor; [|assumption]. cbn [allChars]. rewrite Hc. exact Hl.
Qed.

Lemma splitChar_keeps P sep s :
  allChars P s = true ->
  Forall (fun q => allChars P q = true) (splitChar sep s).
Proof.
  induction s as [|c s IH]; intro H; [repeat constructor|].
  cbn [allChars] in H. apply andb_prop in H as [Hc Hs].
  specialize (IH Hs). cbn [splitChar]. destruct (c =? sep)%char.
  - constructor; [reflexivity|exact IH].
  - destruct (splitChar sep s) as [|l ls].
    + constructor; [|constructor]. cbn [allChars]. rewrite Hc. reflexivity.
    + inversion IH as [|? ? Hl Hls]; subst.
      constructor; [|assumption]. cbn [allChars]. rewrite Hc. exact Hl.
Qed.

Lemma splitChar_whole sep x :
  allChars (isNot [sep]) x = true -> splitChar sep x = [x].
Proof.
  induction x as [|c x IH]; intro H; [reflexivity|].
  cbn [allChars] in H. apply andb_prop in H as [Hc Hx].
  cbn [splitChar]. unfold isNot in Hc. cbn [existsb] in Hc.
  rewrite orb_false_r in Hc. apply negb_true_iff in Hc. rewrite Hc.
  rewrite (IH Hx). reflexivity.
Qed.

Lemma splitChar_first sep a b :
  allChars (isNot [sep]) a = true ->
  splitChar sep (a ++ String sep b) = a :: splitChar sep b.
Proof.
  induction a as [|c a IH]; intro H.
  - cbn [append splitChar]. rewrite Ascii.eqb_refl. reflexivity.
  - cbn [allChars] in H. apply andb_prop in H as [Hc Ha].
    cbn [append splitChar]. unfold isNot in Hc. cbn [existsb] in Hc.
    rewrite orb_false_r in Hc. apply negb_true_iff in Hc. rewrite Hc.
    rewrite (IH Ha). reflexivity.
Qed.

Lemma pop_In l x : pop l = Some x -> In x l.
Proof.
  induction l as [|a l IH]; [discriminate|].
  cbn [pop]. destruct l as [|b l].
  - intro E. injection E as ->. left; reflexivity.
  - intro E. right. exact (IH E).
Qed.

Lemma pop_cons a l : l <> [] -> pop (a :: l) = pop l.
Proof. destruct l; [congruence|reflexivity]. Qed.

Lemma splitChar_two sep x a :
  exists l l' ls, splitChar sep (a ++ String sep x) = l :: l' :: ls.
Proof.
  induction a as [|c a (l & l' & ls & IH)].
  - cbn [append splitChar]. rewrite Ascii.eqb_refl.
    destruct (splitChar sep x) as [|l' ls] eqn:E.
    + destruct (ExaRanges.splitChar_nonempty _ _ E).
    + exists "", l', ls. reflexivity.
  - cbn [append splitChar]. rewrite IH. destruct (c =? sep)%char.
    + exists "", l, (l' :: ls). reflexivity.
    + exists (String c l), l', ls. reflexivity.
Qed.

Lemma splitChar_last sep x a :
  allChars (isNot [sep]) x = true ->
  pop (splitChar sep (a ++ String sep x)) = Some x.
Proof.
  intro H. induction a as [|c a IH].
  - cbn [append splitChar]. rewrite Ascii.eqb_refl.
    rewrite (splitChar_whole sep x H). reflexivity.
  - cbn [append splitChar].
    destruct (splitChar_two sep x a) as (l & l' & ls & E).
    rewrite E in *. destruct (c =? sep)%char; exact IH.
Qed.

Lemma execEnd_slash p s :
  failed (execEnd trailingSlash p s) = negb (s =? "/").
Proof.
  unfold execEnd, trailingSlash. cbn [rmatch rest].
  destruct s as [|c s]; [reflexivity|].
  destruct (Ascii.eqb_spec c "/") as [->|E].
  - unfold atEnd, step. cbn [rest]. destruct s; reflexivity.
  - cbn [String.eqb]. apply Ascii.eqb_neq in E. rewrite E. reflexivity.
Qed.

Lemma replaceEnd_drop a : forall p,
  replaceEnd trailingSlash "" p (a ++ "/") = a.
Proof.
  induction a as [|c a IH]; intro p.
  - cbn [append replaceEnd].
    pose proof (execEnd_slash p "/") as H.
    destruct (execEnd trailingSlash p "/"); [reflexivity|discriminate].
  - cbn [append replaceEnd].
    pose proof (execEnd_slash p (String c (a ++ "/"))) as H.
    destruct (execEnd trailingSlash p (String c (a ++ "/"))).
    + exfalso. cbn [failed String.eqb] in H.
      destruct (c =? "/")%char; [|discriminate].
      destruct a; discriminate.
    + rewrite IH. reflexivity.
Qed.

Lemma replaceEnd_keep s : forall p q,
  lastChar q s <> Some "/"%char ->
  replaceEnd trailingSlash "" p s = s.
Proof.
  induction s as [|c s IH]; intros p q H.
  - cbn [replaceEnd].
    pose proof (execEnd_slash p "") as E.
    destruct (execEnd trailingSlash p ""); [discriminate|reflexivity].
  - cbn [replaceEnd].
    pose proof (execEnd_slash p (String c s)) as E.
    destruct (execEnd trailingSlash p (String c s)).
    + exfalso. cbn [failed] in E. symmetry in E. apply negb_false_iff in E.
      apply String.eqb_eq in E. injection E as -> ->. apply H. reflexivity.
    + rewrite (IH (Some c) (Some c)); [reflexivity|exact H].
Qed.

Lemma lastChar_append a : forall p b,
  lastChar p (a ++ b) = lastChar (lastChar p a) b.
Proof. induction a as [|c a IH]; intros p b; [reflexivity|apply IH]. Qed.

Lemma lastChar_among P s : forall p,
  allChars P s = true -> s <> "" ->
  exists c, lastChar p s = Some c /\ P c = true.
Proof.
  induction s as [|c s IH]; intros p H Hne; [congruence|].
  cbn [allChars] in H. apply andb_prop in H as [Hc Hs].
  destruct s as [|d s].
  - exists c. split; [reflexivity|exact Hc].
  - apply (IH (Some c) Hs). discriminate.
Qed.

Lemma allChars_both P Q s :
  allChars P s = true -> allChars Q s = true ->
  allChars (fun c => (P c && Q c)%bool) s = true.
Proof.
  induction s as [|c s IH]; [reflexivity|].
  cbn [allChars]. intros H1 H2.
  apply andb_prop in H1 as [-> H1]. apply andb_prop in H2 as [-> H2].
  exact (IH H1 H2).
Qed.

Lemma allChars_weaken (P Q : ascii -> bool) s :
  (forall c, P c = true -> Q c = true) ->
  allChars P s = true -> allChars Q s = true.
Proof.
  intro PQ. induction s as [|c s IH]; [reflexivity|].
  cbn [allChars]. intro H. apply andb_prop in H as [Hc Hs].
  rewrite (PQ c Hc). exact (IH Hs).
Qed.

Lemma isNot_two a b c :
  isNot [a; b] c = (isNot [a] c && isNot [b] c)%bool.
Proof. unfold isNot. cbn [existsb]. rewrite !orb_false_r, negb_orb. reflexivity. Qed.

Lemma validate_decomposed url :
  validateLinkedInUrl url = true ->
  (String.length url <= 500)%nat /\
  exists scheme a marker b,
    url = scheme ++ a ++ marker ++ b /\
    (scheme = "http://" \/ scheme = "https://") /\
    (marker = "linkedin.com/in/" \/ marker = "linkedin.com/company/").
Proof.
  unfold validateLinkedInUrl. intro H.
  destruct (truthy url) eqn:Ht; [|discriminate].
  destruct (500 <? String.length url)%nat eqn:Hl; [discriminate|].
  cbn [negb orb] in H.
  apply Nat.ltb_ge in Hl. split; [exact Hl|].
  assert (Hs : exists scheme rest, url = scheme ++ rest /\
                 (scheme = "http://" \/ scheme = "https://")).
  { destruct (startsWith "http://" url) eqn:E1.
    - destruct (startsWith_split _ _ E1) as [t E]. eauto.
    - destruct (startsWith "https://" url) eqn:E2.
      + destruct (startsWith_split _ _ E2) as [t E]. eauto.
      + destruct (negb (includes "linkedin.com/in/" url) &&
                  negb (includes "linkedin.com/company/" url))%bool; discriminate. }
  destruct Hs as (scheme & rest & E & Hscheme).
  assert (Hm : exists marker, includes marker url = true /\
                 (marker = "linkedin.com/in/" \/ marker = "linkedin.com/company/")).
  { destruct (includes "linkedin.com/in/" url) eqn:E1; [eauto|].
    destruct (includes "linkedin.com/company/" url) eqn:E2; [eauto|].
    discriminate. }
  destruct Hm as (marker & Hi & Hmarker).
  assert (Hr : includes marker rest = true).
  { subst url. destruct Hscheme as [-> | ->], Hmarker as [-> | ->]; exact Hi. }
  destruct (includes_split _ _ Hr) as (a & b & Er).
  exists scheme, a, marker, b. subst. auto.
Qed.

(** X3. [validateLinkedInUrl] accepts exactly the texts of at most 500
    characters that begin with [http://] or [https://] and hold, anywhere
    after it, [linkedin.com/in/] or [linkedin.com/company/]: where the
    marker stands (host, path or query) is not looked at. *)
Theorem valid_url_shape (url : string) :
  validateLinkedInUrl url = true <->
  (String.length url <= 500)%nat /\
  exists scheme a marker b,
    url = scheme ++ a ++ marker ++ b /\
    (scheme = "http://" \/ scheme = "https://") /\
    (marker = "linkedin.com/in/" \/ marker = "linkedin.com/company/").
Proof.
  split; [apply validate_decomposed|].
  intros (Hl & scheme & a & marker & b & -> & Hscheme & Hmarker).
  unfold validateLinkedInUrl.
  assert (Ht : truthy (scheme ++ a ++ marker ++ b) = true).
  { destruct Hscheme as [-> | ->]; reflexivity. }
  rewrite Ht. apply Nat.ltb_ge in Hl. rewrite Hl. cbn [negb orb].
  assert (Hi : includes marker (scheme ++ a ++ marker ++ b) = true).
  { apply includes_later, includes_later, includes_here. }
  assert (Hs : startsWith scheme (scheme ++ a ++ marker ++ b) = true)
    by apply startsWith_refl.
  destruct Hmarker as [-> | ->]; rewrite Hi;
    [|rewrite orb_true_r, andb_false_r || idtac];
    destruct Hscheme as [-> | ->]; rewrite Hs;
    try reflexivity.
  - destruct (negb (includes "linkedin.com/in/"
                      ("http://" ++ a ++ "linkedin.com/company/" ++ b))); reflexivity.
  - destruct (negb (includes "linkedin.com/in/"
                      ("https://" ++ a ++ "linkedin.com/company/" ++ b)));
      destruct (startsWith "http://" ("https://" ++ a ++ "linkedin.com/company/" ++ b));
      reflexivity.
Qed.

(** X4. An address that [validateLinkedInUrl] accepts has 23 to 500
    characters. *)
Theorem valid_url_length (url : string) :
  validateLinkedInUrl url = true ->
  (23 <= String.length url <= 500)%nat.
Proof.
  intro H. apply validate_decomposed in H
    as (Hl & scheme & a & marker & b & -> & Hscheme & Hmarker).
  split; [|exact Hl].
  rewrite !length_append.
  destruct Hscheme as [-> | ->], Hmarker as [-> | ->]; cbn [String.length]; lia.
Qed.

Lemma valid_url_length_witness :
  validateLinkedInUrl "https://www.linkedin.com/in/jane-doe" = true /\
  (23 <= String.length "https://www.linkedin.com/in/jane-doe" <= 500)%nat.
Proof.
  split; [reflexivity|].
  apply (valid_url_length "https://www.linkedin.com/in/jane-doe"). reflexivity.
Defined.

(** X5. The identifier that [extractPublicId] reads from an address never
    holds a slash or a question mark. *)
Theorem public_id_has_no_separator (url : string) :
  allChars (isNot ["/"%char; "?"%char]) (extractPublicId url) = true.
Proof.
  unfold extractPublicId.
  set (u := replaceEnd trailingSlash "" None url).
  destruct (pop (splitChar "/" u)) as [last|] eqn:E; [|reflexivity].
  cbn [chain].
  assert (Hl : allChars (isNot ["/"%char]) last = true).
  { pose proof (splitChar_pieces "/" u) as F.
    rewrite Forall_forall in F. apply F. apply pop_In. exact E. }
  destruct (splitChar "?" last) as [|x xs] eqn:Ex; [reflexivity|].
  cbn [nth_error orEmpty].
  pose proof (splitChar_pieces "?" last) as F1.
  pose proof (splitChar_keeps _ "?" last Hl) as F2.
  rewrite Ex in F1, F2.
  inversion F1 as [|? ? H1 _]; inversion F2 as [|? ? H2 _]; subst.
  apply (allChars_weaken (fun c => (isNot ["/"%char] c && isNot ["?"%char] c)%bool)).
  - intros c Hc. rewrite isNot_two. exact Hc.
  - apply allChars_both; assumption.
Qed.

(** X6. An identifier without slash and question mark is read back from the
    address it ends, with or without a closing slash, and with or without a
    query that holds no slash. *)
Theorem public_id_round_trip (base id q : string) :
  allChars (isNot ["/"%char; "?"%char]) id = true -> id <> "" ->
  allChars (isNot ["/"%char]) q = true ->
  extractPublicId (base ++ "/" ++ id) = id /\
  extractPublicId (base ++ "/" ++ id ++ "/") = id /\
  extractPublicId (base ++ "/" ++ id ++ "?" ++ q) = id.
Proof.
  intros Hid Hne Hq.
  assert (H1 : allChars (isNot ["/"%char]) id = true).
  { apply (allChars_weaken (isNot ["/"%char; "?"%char])); [|exact Hid].
    intros c Hc. rewrite isNot_two in Hc. apply andb_prop in Hc. tauto. }
  assert (H2 : allChars (isNot ["?"%char]) id = true).
  { apply (allChars_weaken (isNot ["/"%char; "?"%char])); [|exact Hid].
    intros c Hc. rewrite isNot_two in Hc. apply andb_prop in Hc. tauto. }
  assert (Hlast : forall p, lastChar p id <> Some "/"%char).
  { intro p. destruct (lastChar_among _ id p H1 Hne) as (c & -> & Hc).
    intro E. injection E as ->. discriminate Hc. }
  assert (R : forall s, allChars (isNot ["/"%char]) s = true ->
              nth_error (splitChar "?" s) 0 = Some id ->
              orEmpty (chain (pop (splitChar "/" (base ++ "/" ++ s)))
                             (fun last => nth_error (splitChar "?" last) 0)) = id).
  { intros s Hs E. change (base ++ "/" ++ s) with (base ++ String "/" s).
    rewrite (splitChar_last "/" s base Hs). cbn [chain]. rewrite E. reflexivity. }
  unfold extractPublicId. repeat split.
  - rewrite (replaceEnd_keep _ None None).
    + apply R; [exact H1|]. rewrite (splitChar_whole "?" id H2). reflexivity.
    + rewrite !lastChar_append. apply Hlast.
  - replace (base ++ "/" ++ id ++ "/") with ((base ++ "/" ++ id) ++ "/")
      by (rewrite !append_assoc; reflexivity).
    rewrite replaceEnd_drop.
    apply R; [exact H1|]. rewrite (splitChar_whole "?" id H2). reflexivity.
  - rewrite (replaceEnd_keep _ None None).
    + apply R.
      * rewrite EduLine.allChars_append, H1. cbn [append allChars]. rewrite Hq. reflexivity.
      * change (id ++ "?" ++ q) with (id ++ String "?" q).
        rewrite (splitChar_first "?" id q H2). reflexivity.
    + rewrite !lastChar_append.
      destruct q as [|c q].
      * cbn. discriminate.
      * destruct (lastChar_among _ (String c q) None Hq ltac:(discriminate))
          as (d & Ed & Hd).
        cbn [append lastChar] in *. rewrite Ed.
        intro X. injection X as ->. discriminate Hd.
Qed.

Lemma public_id_round_trip_witness :
  extractPublicId ("https://www.linkedin.com/in" ++ "/" ++ "jane-doe") = "jane-doe" /\
  extractPublicId ("https://www.linkedin.com/in" ++ "/" ++ "jane-doe" ++ "/") = "jane-doe" /\
  extractPublicId ("https://www.linkedin.com/in" ++ "/" ++ "jane-doe" ++ "?" ++ "trk=x") = "jane-doe".
Proof.
  apply (public_id_round_trip "https://www.linkedin.com/in" "jane-doe" "trk=x");
    [reflexivity|discriminate|reflexivity].
Defined.

End UrlFacts.

(* ------------------------------------------------------------------ *)
(** ** The matcher: what a successful match has consumed *)
(* ------------------------------------------------------------------ *)

Module Span.
Import Values.

Lemma repeatMatcher_spans P g mr :
  spans P mr -> forall n, spans P (repeatMatcher g mr n).
Proof.
  intros Hmr n. induction n as [|n IH]; intros x caps k z H.
  - exists "", x, caps. cbn [repeatMatcher] in H.
    repeat split; auto.
  - cbn [repeatMatcher] in H.
    assert (Stop : k x caps = Some z ->
      exists w y caps', k y caps' = Some z /\ rest x = w ++ rest y /\
        idx y = (idx x + String.length w)%nat /\ allChars P w = true).
    { intro E. exists "", x, caps. repeat split; auto. }
    assert (Go : mr x caps (fun y caps' =>
                   if Nat.eqb (idx y) (idx x) then None
                   else repeatMatcher g mr n y caps' k) = Some z ->
      exists w y caps', k y caps' = Some z /\ rest x = w ++ rest y /\
        idx y = (idx x + String.length w)%nat /\ allChars P w = true).
    { intro E. apply Hmr in E as (w1 & y1 & c1 & E1 & R1 & I1 & A1).
      destruct (Nat.eqb (idx y1) (idx x)); [discriminate|].
      apply IH in E1 as (w2 & y2 & c2 & E2 & R2 & I2 & A2).
      exists (w1 ++ w2), y2, c2. repeat split.
      - exact E2.
      - rewrite R1, R2, append_assoc. reflexivity.
      - rewrite I2, I1, length_append. lia.
      - rewrite EduLine.allChars_append, A1, A2. reflexivity. }
    destruct g.
    + destruct (mr x caps _) eqn:E; [injection H as ->; exact (Go eq_refl)|exact (Stop H)].
    + destruct (k x caps) eqn:E; [injection H as ->; exact (Stop eq_refl)|exact (Go H)].
Qed.

Lemma rmatch_spans P r : within P r -> spans P (rmatch r).
Proof.
  induction r as [|c|p|r1 IH1 r2 IH2|r1 IH1 r2 IH2|g r IH|n r IH|];
    intros W x caps k z H; cbn [rmatch] in H; cbn [within] in W.
  - exists "", x, caps. repeat split; auto.
  - destruct (rest x) as [|a s] eqn:R; [discriminate|].
    destruct (Ascii.eqb_spec a c) as [->|]; [|discriminate].
    exists (String c ""), (step c s x), caps. repeat split; auto.
    + cbn [step idx String.length]. lia.
    + cbn [allChars]. rewrite W. reflexivity.
  - destruct (rest x) as [|a s] eqn:R; [discriminate|].
    destruct (p a) eqn:Pa; [|discriminate].
    exists (String a ""), (step a s x), caps. repeat split; auto.
    + cbn [step idx String.length]. lia.
    + cbn [allChars]. rewrite (W a Pa). reflexivity.
  - destruct W as [W1 W2].
    apply (IH1 W1) in H as (w1 & y1 & c1 & E1 & R1 & I1 & A1).
    apply (IH2 W2) in E1 as (w2 & y2 & c2 & E2 & R2 & I2 & A2).
    exists (w1 ++ w2), y2, c2. repeat split.
    + exact E2.
    + rewrite R1, R2, append_assoc. reflexivity.
    + rewrite I2, I1, length_append. lia.
    + rewrite EduLine.allChars_append, A1, A2. reflexivity.
  - destruct W as [W1 W2].
    destruct (rmatch r1 x caps k) eqn:E.
    + injection H as ->. exact (IH1 W1 _ _ _ _ E).
    + exact (IH2 W2 _ _ _ _ H).
  - exact (repeatMatcher_spans P g _ (IH W) _ _ _ _ _ H).
  - apply (IH W) in H as (w & y & c & E & R & I & A).
    exists w, y, ((n, take (idx y - idx x) (rest x)) :: c). auto.
  - exists "", x, caps. repeat split; auto.
    destruct (prev x) as [c|]; [destruct (isLineTerminator c); [exact H|discriminate]|exact H].
Qed.

Lemma rmatch_Alt r1 r2 x caps k :
  rmatch (Alt r1 r2) x caps k =
  match rmatch r1 x caps k with Some z => Some z | None => rmatch r2 x caps k end.
Proof. reflexivity. Qed.

Lemma rmatch_Eps x caps k : rmatch Eps x caps k = k x caps.
Proof. reflexivity. Qed.

Lemma rmatch_Chr c i q s caps k :
  rmatch (Chr c) (at_ i q (String c s)) caps k = k (at_ (S i) (Some c) s) caps.
Proof. cbn [rmatch at_ rest]. rewrite Ascii.eqb_refl. reflexivity. Qed.

Lemma rmatch_Chr_fail c i q s caps k :
  stops (Ascii.eqb c) s = true -> rmatch (Chr c) (at_ i q s) caps k = None.
Proof.
  cbn [rmatch at_ rest]. destruct s as [|a s]; [reflexivity|].
  cbn [stops]. rewrite Ascii.eqb_sym. intro H. apply negb_true_iff in H.
  rewrite H. reflexivity.
Qed.

(** What a group has captured is what its pattern has consumed. *)
Lemma rmatch_Grp_spans P n r x caps k z :
  within P r -> rmatch (Grp n r) x caps k = Some z ->
  exists w y caps', k y ((n, w) :: caps') = Some z /\ rest x = w ++ rest y /\
                    idx y = (idx x + String.length w)%nat /\ allChars P w = true.
Proof.
  intros W H. cbn [rmatch] in H.
  apply (rmatch_spans P r W) in H as (w & y & c & E & R & I & A).
  exists w, y, c. repeat split; auto.
  rewrite R, I in E.
  replace (idx x + String.length w - idx x)%nat with (String.length w) in E by lia.
  rewrite Run.take_append in E. exact E.
Qed.

(** [s.replace(/c/g, '')] takes every [c] out of [s]. *)
Lemma replaceFrom_Chr c s : forall p,
  replaceFrom (Chr c) (fun _ => "") 0 p s = discard c s.
Proof.
  induction s as [|a s IH]; intro p; [reflexivity|].
  cbn [replaceFrom discard]. unfold exec. cbn [rmatch rest].
  destruct (a =? c)%char.
  - unfold accept, step. cbn [idx append]. apply IH.
  - rewrite IH. reflexivity.
Qed.

Lemma discard_chars P c s :
  allChars P s = true ->
  allChars (fun a => (negb (a =? c)%char && P a)%bool) (discard c s) = true.
Proof.
  induction s as [|a s IH]; [reflexivity|].
  cbn [allChars discard]. intro H. apply andb_prop in H as [Ha Hs].
  destruct (a =? c)%char eqn:E; [exact (IH Hs)|].
  cbn [allChars]. rewrite E, Ha. exact (IH Hs).
Qed.

Lemma discard_absent c s :
  allChars (isNot [c]) s = true -> discard c s = s.
Proof.
  induction s as [|a s IH]; [reflexivity|].
  cbn [allChars discard]. intro H. apply andb_prop in H as [Ha Hs].
  unfold isNot in Ha. cbn [existsb] in Ha. rewrite orb_false_r in Ha.
  apply negb_true_iff in Ha. rewrite Ha, (IH Hs). reflexivity.
Qed.

Lemma discard_append c a b : discard c (a ++ b) = discard c a ++ discard c b.
Proof.
  induction a as [|d a IH]; [reflexivity|].
  cbn [append discard]. destruct (d =? c)%char; [exact IH|].
  cbn [append]. rewrite IH. reflexivity.
Qed.

End Span.

(* ------------------------------------------------------------------ *)
(** ** The education of the structured path *)
(* ------------------------------------------------------------------ *)

Module EducationFacts.
Import Values Server.

Lemma testWhole_Plus_Cls p s :
  testWhole (Plus true (Cls p)) s = (truthy s && allChars p s)%bool.
Proof.
  unfold testWhole, execEnd.
  destruct (rmatch (Plus true (Cls p)) _ [] atEnd) as [z|] eqn:E.
  - pose proof E as E0.
    apply (Span.rmatch_spans p) in E as (w & y & c & E & R & _ & A);
      [|split; intros a Ha; exact Ha].
    unfold atEnd in E. destruct (rest y) eqn:Ry; [|discriminate].
    cbn [rest] in R. rewrite append_empty_r in R. subst w. rewrite A.
    destruct s; [discriminate E0|reflexivity].
  - destruct s as [|a s]; [reflexivity|]. cbn [truthy allChars andb].
    destruct (p a) eqn:Pa; [|reflexivity].
    destruct (allChars p s) eqn:Ps; [|reflexivity].
    exfalso. unfold Plus in E.
    change {| idx := 0; prev := None; rest := String a s |}
      with (at_ 0 None (String a s)) in E.
    rewrite Run.rmatch_Seq, (Run.rmatch_Cls p 0 None a s [] _ Pa) in E.
    rewrite Run.rmatch_Star in E. cbn [at_ rest] in E.
    rewrite (Run.repeat_greedy_rest p s 1 (Some a) (String.length s) []
               atEnd (at_ (1 + String.length s) (lastChar (Some a) s) "", [])) in E;
      [discriminate|exact Ps|lia|reflexivity].
Qed.

(** X7. The pattern [/^[\d.]+$/] holds of a text exactly when it is not empty
    and made of digits and dots. *)
Theorem grade_pattern (s : string) :
  testWhole gradeRe s = (truthy s && allChars gradeChar s)%bool.
Proof. apply testWhole_Plus_Cls. Qed.

Lemma falsyString_orEmpty o : falsyString o = false -> orEmpty o <> "".
Proof.
  unfold falsyString. destruct (orEmpty o); [discriminate|discriminate].
Qed.

Lemma falsyString_Some o : falsyString o = false -> o = Some (orEmpty o).
Proof. destruct o as [s|]; [reflexivity|discriminate]. Qed.

(** X8. The degree of a mapped education is never [null] and never empty:
    it is the degree sent, the field of study, both, or the dash. *)
Theorem education_degree_never_empty (edu : Wire.LinkedInEducation) :
  exists d, degree (educationOf edu) = Some d /\ d <> "".
Proof.
  unfold educationOf. cbn [degree].
  set (raw := nullish (Wire.degreeName edu) (Wire.degree edu)).
  set (f := Wire.fieldOfStudy edu).
  set (kept := if (negb (falsyString raw) && testWhole gradeRe (trim (orEmpty raw)))%bool
               then None else raw).
  destruct (falsyString kept) eqn:Hk; destruct (falsyString f) eqn:Hf;
    cbn [negb andb].
  - exists "—". rewrite Hk. split; [reflexivity|discriminate].
  - rewrite Hf. exists (orEmpty f). split.
    + apply falsyString_Some. exact Hf.
    + apply falsyString_orEmpty. exact Hf.
  - rewrite Hk. exists (orEmpty kept). split.
    + apply falsyString_Some. exact Hk.
    + apply falsyString_orEmpty. exact Hk.
  - destruct (orEmpty kept =? orEmpty f) eqn:E; cbn [negb].
    + rewrite Hk. exists (orEmpty kept). split.
      * apply falsyString_Some. exact Hk.
      * apply falsyString_orEmpty. exact Hk.
    + exists (orEmpty kept ++ ", " ++ orEmpty f).
      apply falsyString_orEmpty in Hk.
      destruct (orEmpty kept); [congruence|]. split; [reflexivity|discriminate].
Qed.

(** X9. A degree that, trimmed, is made of digits and dots is taken for a
    grade and does not reach the answer: the degree is then the field of
    study, or the dash without one. *)
Theorem grade_is_not_a_degree (edu : Wire.LinkedInEducation) (g : string) :
  nullish (Wire.degreeName edu) (Wire.degree edu) = Some g ->
  trim g <> "" -> allChars gradeChar (trim g) = true ->
  degree (educationOf edu) =
    if falsyString (Wire.fieldOfStudy edu) then Some "—"
    else Wire.fieldOfStudy edu.
Proof.
  intros Hraw Hne Hg. unfold educationOf. cbn [degree]. rewrite Hraw.
  cbn [orEmpty]. unfold gradeRe. rewrite testWhole_Plus_Cls, Hg.
  assert (Ht : truthy (trim g) = true) by (destruct (trim g); [congruence|reflexivity]).
  rewrite Ht.
  assert (Hf : falsyString (Some g) = false).
  { unfold falsyString. cbn [orEmpty]. rewrite (ExaBlocks.trim_truthy g Ht). reflexivity. }
  rewrite Hf. cbn [negb andb].
  change (falsyString None) with true. cbn [negb andb].
  destruct (falsyString (Wire.fieldOfStudy edu)) eqn:E; cbn [negb]; [reflexivity|].
  rewrite E. reflexivity.
Qed.

Lemma grade_is_not_a_degree_witness :
  let edu := {| Wire.schoolName := Some "MIT"; Wire.school := None;
                Wire.degreeName := Some " 3.85 "; Wire.degree := None;
                Wire.fieldOfStudy := Some "Physics";
                Wire.timePeriod := None; Wire.dateRange := None |} in
  degree (educationOf edu) = Some "Physics".
Proof.
  intro edu.
  apply (grade_is_not_a_degree edu " 3.85 "); [reflexivity|discriminate|reflexivity].
Defined.

Lemma dash_is_high_school e :
  degree e = Some "—" ->
  isHighSchool degreeKeywordsVoyager e = true /\
  getEducationRank degreeKeywordsVoyager e = 0%Z.
Proof.
  intro H. unfold getEducationRank, isHighSchool. rewrite H.
  destruct (anyIncludes schoolKeywords (toLowerCase (orEmpty (school e))));
    split; reflexivity.
Qed.

(** X10. An education sent without degree and field of study gets the dash,
    counts as high school with rank 0, and is left out of the answer as soon
    as another entry is not high school. *)
Theorem education_without_degree_is_dropped
  (educations : list Wire.LinkedInEducation) (edu : Wire.LinkedInEducation) :
  nullish (Wire.degreeName edu) (Wire.degree edu) = None ->
  Wire.fieldOfStudy edu = None ->
  degree (educationOf edu) = Some "—" /\
  getEducationRank degreeKeywordsVoyager (educationOf edu) = 0%Z /\
  (Exists (fun e => isHighSchool degreeKeywordsVoyager (educationOf e) = false)
          educations ->
   ~ In (educationOf edu)
        (rankEducation degreeKeywordsVoyager (map educationOf educations))).
Proof.
  intros Hd Hf.
  assert (E : degree (educationOf edu) = Some "—").
  { unfold educationOf. cbn [degree]. rewrite Hd, Hf. reflexivity. }
  destruct (dash_is_high_school _ E) as [Hh Hr].
  repeat split; auto.
  intros Hex Hin.
  unfold rankEducation in Hin.
  apply (Permutation_in _ (Permutation_sym (sortBy_perm _ _ _))) in Hin.
  assert (Hex' : Exists (fun e => isHighSchool degreeKeywordsVoyager e = false)
                        (map educationOf educations)).
  { apply Exists_exists in Hex as (e & He & Hc).
    apply Exists_exists. exists (educationOf e). split; [apply in_map; exact He|exact Hc]. }
  unfold filteredEducation in Hin.
  rewrite (collegeEducation_some _ _ Hex') in Hin.
  unfold collegeEducation in Hin. apply filter_In in Hin as [_ Hn].
  rewrite Hh in Hn. discriminate.
Qed.

Lemma education_without_degree_is_dropped_witness :
  let bare := {| Wire.schoolName := Some "Somewhere"; Wire.school := None;
                 Wire.degreeName := None; Wire.degree := None;
                 Wire.fieldOfStudy := None;
                 Wire.timePeriod := None; Wire.dateRange := None |} in
  let bsc := {| Wire.schoolName := Some "MIT"; Wire.school := None;
                Wire.degreeName := Some "BSc"; Wire.degree := None;
                Wire.fieldOfStudy := Some "Physics";
                Wire.timePeriod := None; Wire.dateRange := None |} in
  degree (educationOf bare) = Some "—" /\
  ~ In (educationOf bare)
       (rankEducation degreeKeywordsVoyager (map educationOf [bare; bsc])).
Proof.
  intros bare bsc.
  destruct (education_without_degree_is_dropped [bare; bsc] bare eq_refl eq_refl)
    as (H1 & _ & H3).
  split; [exact H1|]. apply H3.
  apply Exists_cons_tl, Exists_cons_hd. vm_compute. reflexivity.
Defined.

End EducationFacts.

(* ------------------------------------------------------------------ *)
(** ** The session *)
(* ------------------------------------------------------------------ *)

Module SessionFacts.
Import Values Session.

Lemma within_Lit P w : within P (Lit w) <-> allChars P w = true.
Proof.
  induction w as [|c w IH]; cbn [Lit within allChars]; [tauto|].
  rewrite andb_true_iff, IH. tauto.
Qed.

Lemma jsession_exec p s y caps :
  exec jsessionRe p s = Some (y, caps) ->
  exists w, cap 1 caps = Some w /\ allChars tokenChar w = true.
Proof.
  unfold exec, jsessionRe. rewrite Run.rmatch_Seq. intro H.
  apply (Span.rmatch_spans (fun _ => true)) in H as (w0 & y0 & c0 & H & _);
    [|apply within_Lit; reflexivity].
  apply (Span.rmatch_Grp_spans tokenChar) in H as (w & y1 & c1 & H & _ & _ & A).
  - exists w. unfold accept in H. injection H as _ <-. split; [reflexivity|exact A].
  - cbn. repeat split; auto.
Qed.

Lemma sessionToken_total setCookie : exists t, sessionToken setCookie = Normal t.
Proof.
  unfold sessionToken.
  destruct (find _ _) as [raw|]; cbn [chain]; [|eexists; reflexivity].
  destruct (search jsessionRe raw) as [m|] eqn:E; [|eexists; reflexivity].
  destruct (search_binds jsessionRe 1 _ m ltac:(simpl; tauto) E) as [t ->].
  eexists. reflexivity.
Qed.

(** X11. Whatever cookies the response sets, the token of the session is
    there, and holds no double quote, semicolon or comma: the [Cookie]
    header built from it cannot be broken by it. *)
Theorem session_token_is_clean (setCookie : option (list string)) :
  exists t, sessionToken setCookie = Normal t /\
            allChars (isNot [dq; ";"%char; ","%char]) t = true.
Proof.
  unfold sessionToken.
  destruct (find _ _) as [raw|]; cbn [chain]; [|exists "ajax:0"; split; reflexivity].
  destruct (search jsessionRe raw) as [m|] eqn:E; [|exists "ajax:0"; split; reflexivity].
  destruct (ExaRanges.searchFrom_exec _ _ _ _ E) as (p' & s' & y & X & _).
  destruct (jsession_exec _ _ _ _ X) as (w & C & A).
  unfold group. rewrite C. cbn [defined bind].
  exists (replaceAll quoteRe (fun _ => "") w). split; [reflexivity|].
  unfold replaceAll, quoteRe. rewrite Span.replaceFrom_Chr.
  apply (UrlFacts.allChars_weaken (fun a => (negb (a =? dq)%char && tokenChar a)%bool)).
  - intros c Hc. apply andb_prop in Hc as [H1 H2].
    unfold tokenChar, isNot in *. cbn [existsb] in *.
    apply negb_true_iff in H1. rewrite H1. exact H2.
  - apply Span.discard_chars. exact A.
Qed.

Lemma find_skip (A : Type) (f : A -> bool) (l : list A) x l' :
  Forall (fun a => f a = false) l -> f x = true -> find f (l ++ x :: l') = Some x.
Proof.
  intros H Hx. induction H as [|a l Ha _ IH]; cbn [app find].
  - rewrite Hx. reflexivity.
  - rewrite Ha. exact IH.
Qed.

Lemma isNot_cons a l c : isNot (a :: l) c = (isNot [a] c && isNot l c)%bool.
Proof. unfold isNot. cbn [existsb]. rewrite orb_false_r, negb_orb. reflexivity. Qed.

Lemma token_parts tok :
  allChars (isNot [dq; ";"%char; ","%char]) tok = true ->
  allChars tokenChar tok = true /\ allChars (isNot [dq]) tok = true.
Proof.
  intro H. split; apply (UrlFacts.allChars_weaken (isNot [dq; ";"%char; ","%char]));
    try exact H; intros c Hc; rewrite isNot_cons in Hc;
    apply andb_prop in Hc as [H1 H2]; assumption.
Qed.

Lemma jsession_search (quoted : bool) (tok attrs : string) :
  allChars (isNot [dq; ";"%char; ","%char]) tok = true -> tok <> "" ->
  stops tokenChar attrs = true ->
  let value := if quoted then String dq (tok ++ String dq "") else tok in
  exists m, search jsessionRe ("JSESSIONID=" ++ value ++ attrs) = Some m /\
            group 1 m = Some value.
Proof.
  intros Htok Hne Hstop value.
  destruct (token_parts tok Htok) as [Ht Hq].
  destruct tok as [|c0 tok]; [congruence|].
  cbn [allChars] in Ht, Hq. apply andb_prop in Ht as [Hc0 Ht].
  apply andb_prop in Hq as [Hq0 _].
  assert (Hdq : (c0 =? dq)%char = false).
  { unfold isNot in Hq0. cbn [existsb] in Hq0. rewrite orb_false_r in Hq0.
    apply negb_true_iff in Hq0. exact Hq0. }
  set (k1 := fun (y : cursor) (c : captures) =>
               accept y ((1, take (idx y - 11) (value ++ attrs)) :: c)).
  assert (K : forall n q, n = String.length value ->
            k1 (at_ (11 + n) q attrs) [] = Some (at_ (11 + n) q attrs, [(1, value)])).
  { intros n q ->. unfold k1, accept. cbn [at_ idx].
    replace (11 + String.length value - 11)%nat with (String.length value) by lia.
    rewrite Run.take_append. reflexivity. }
  assert (X : exists y, exec jsessionRe None ("JSESSIONID=" ++ value ++ attrs) =
                        Some (y, [(1, value)])).
  { unfold exec, jsessionRe.
    change {| idx := 0; prev := None; rest := "JSESSIONID=" ++ value ++ attrs |}
      with (at_ 0 None ("JSESSIONID=" ++ value ++ attrs)).
    rewrite Run.rmatch_Seq, Run.rmatch_Lit, Run.rmatch_Grp.
    cbn [plus String.length lastChar at_ idx rest].
    fold (at_ 11 (Some "="%char) (value ++ attrs)). fold k1.
    rewrite Run.rmatch_Seq. unfold Opt, Plus.
    clearbody k1. destruct quoted; subst value.
    - eexists.
      cbn [append]. rewrite Span.rmatch_Alt, Span.rmatch_Chr.
      rewrite Run.rmatch_Seq, (Run.rmatch_Cls tokenChar 12 (Some dq) c0 _ [] _ Hc0).
      rewrite Run.rmatch_Star. cbn [at_ rest].
      replace (tok ++ String dq attrs) with ((tok ++ String dq "") ++ attrs)
        by (rewrite append_assoc; reflexivity).
      rewrite (Run.repeat_greedy_all tokenChar (tok ++ String dq "") attrs 13 (Some c0)
                 _ [] k1 (at_ (11 + (2 + String.length (tok ++ String dq ""))) 
                              (lastChar (Some c0) (tok ++ String dq "")) attrs,
                          [(1, String dq (String c0 tok ++ String dq ""))])).
      + reflexivity.
      + rewrite EduLine.allChars_append, Ht. reflexivity.
      + exact Hstop.
      + apply Nat.le_refl.
      + rewrite <- K by (cbn [append String.length]; reflexivity).
        f_equal.
    - eexists.
      cbn [append]. rewrite Span.rmatch_Alt, Span.rmatch_Chr_fail, Span.rmatch_Eps
        by (cbn [stops]; rewrite Ascii.eqb_sym, Hdq; reflexivity).
      rewrite Run.rmatch_Seq, (Run.rmatch_Cls tokenChar 11 (Some "="%char) c0 _ [] _ Hc0).
      rewrite Run.rmatch_Star. cbn [at_ rest].
      rewrite (Run.repeat_greedy_all tokenChar tok attrs 12 (Some c0)
                 _ [] k1 (at_ (11 + (1 + String.length tok)) (lastChar (Some c0) tok) attrs,
                          [(1, String c0 tok)])).
      + reflexivity.
      + exact Ht.
      + exact Hstop.
      + apply Nat.le_refl.
      + rewrite <- K by reflexivity. f_equal. }
  destruct X as (y & E).
  unfold search. rewrite (ExaRanges.searchFrom_hit _ _ _ _ _ E).
  eexists. split; reflexivity.
Qed.

(** X12. The token is read from the first cookie that mentions
    [JSESSIONID]: for a cookie [JSESSIONID=<token>], quoted or not, followed
    by nothing, a semicolon or a comma, the token of the session is
    [<token>] without the quotes. *)
Theorem session_token_round_trip
  (others more : list string) (quoted : bool) (tok attrs : string) :
  Forall (fun c => includes "JSESSIONID" c = false) others ->
  allChars (isNot [dq; ";"%char; ","%char]) tok = true -> tok <> "" ->
  stops (isNot [";"%char; ","%char]) attrs = true ->
  let value := if quoted then String dq (tok ++ String dq "") else tok in
  sessionToken (Some (others ++ ("JSESSIONID=" ++ value ++ attrs)%string :: more)%list) =
  Normal tok.
Proof.
  intros Ho Htok Hne Hstop value. unfold sessionToken.
  rewrite (find_skip _ _ others _ more Ho)
    by (apply (UrlFacts.includes_here "JSESSIONID" ("=" ++ value ++ attrs))).
  cbn [chain].
  destruct (jsession_search quoted tok attrs Htok Hne Hstop) as (m & Em & Eg).
  fold value in Em, Eg. rewrite Em, Eg.
  cbn [defined bind]. f_equal.
  unfold replaceAll, quoteRe. rewrite Span.replaceFrom_Chr.
  destruct (token_parts tok Htok) as [_ Hq].
  subst value. destruct quoted.
  - cbn [discard]. rewrite Ascii.eqb_refl, Span.discard_append.
    cbn [discard]. rewrite Ascii.eqb_refl, (Span.discard_absent dq tok Hq).
    apply append_empty_r.
  - apply Span.discard_absent. exact Hq.
Qed.

Lemma session_token_round_trip_witness :
  sessionToken (Some ["lang=v=2&lang=en-us; Path=/";
                      "JSESSIONID=" ++ String dq ("ajax:0123456789" ++ String dq "")
                        ++ "; Path=/; Secure"]) =
  Normal "ajax:0123456789".
Proof.
  apply (session_token_round_trip ["lang=v=2&lang=en-us; Path=/"] [] true
           "ajax:0123456789" "; Path=/; Secure").
  - repeat constructor.
  - reflexivity.
  - discriminate.
  - reflexivity.
Defined.

End SessionFacts.

(* ------------------------------------------------------------------ *)
(** ** [buildSession] and the cache *)
(* ------------------------------------------------------------------ *)

Module CacheFacts.
Import Values Session Effects Server.

Lemma cacheGet_set liAt client cache :
  cacheGet liAt (cacheSet liAt client cache) = Some client.
Proof.
  induction cache as [|[k v] cache IH]; cbn [cacheSet cacheGet].
  - rewrite String.eqb_refl. reflexivity.
  - destruct (k =? liAt) eqn:E; cbn [cacheGet]; rewrite E; [reflexivity|exact IH].
Qed.

Lemma buildSession_cached world liAt st client :
  cacheGet liAt (sessionCache st) = Some client ->
  buildSession world liAt st = (Ok client, st).
Proof.
  intro H. unfold buildSession, bindM, getCached. rewrite H. reflexivity.
Qed.

Lemma buildSession_fresh world liAt st :
  cacheGet liAt (sessionCache st) = None ->
  buildSession world liAt st =
  match readReply (me world liAt) with
  | Ok jsession =>
      (Ok (clientOf liAt jsession),
       {| sessionCache := cacheSet liAt (clientOf liAt jsession) (sessionCache st);
          calls := (calls st ++ [GetMe liAt])%list |})
  | Thrown e => (Thrown (rethrow e), afterCall st (GetMe liAt))
  end.
Proof.
  intro H. unfold buildSession, bindM, getCached, catch, request, lift, throw,
    setCached, ret. rewrite H. cbn.
  destruct (readReply (me world liAt)); reflexivity.
Qed.

(** X13. A session that [buildSession] has returned is returned again for the
    same cookie, without a request and without a change of the store,
    whatever LinkedIn would answer by then: a cached session is never
    checked again. *)
Theorem session_is_reused
  (world world' : World) (liAt : string) (st st' : Store) (client : Client) :
  buildSession world liAt st = (Ok client, st') ->
  buildSession world' liAt st' = (Ok client, st').
Proof.
  intro H. destruct (cacheGet liAt (sessionCache st)) as [cached|] eqn:E.
  - rewrite (buildSession_cached _ _ _ _ E) in H. injection H as <- <-.
    apply buildSession_cached. exact E.
  - rewrite (buildSession_fresh _ _ _ E) in H.
    destruct (readReply (me world liAt)); [|discriminate].
    injection H as <- <-. apply buildSession_cached. apply cacheGet_set.
Qed.

Lemma session_is_reused_witness :
  let world := {| getContents := fun _ => Ok None;
                  me := fun _ => Wire.Reply 200 None;
                  profiles := fun _ _ => Ok None;
                  companies := fun _ _ => Ok None;
                  getFullYear := 2026 |} in
  let offline := {| getContents := fun _ => Ok None;
                    me := fun _ => Wire.NoReply "socket hang up";
                    profiles := fun _ _ => Ok None;
                    companies := fun _ _ => Ok None;
                    getFullYear := 2026 |} in
  let st' := {| sessionCache := [("AQED", clientOf "AQED" "ajax:0")];
                calls := [GetMe "AQED"] |} in
  buildSession offline "AQED" st' = (Ok (clientOf "AQED" "ajax:0"), st').
Proof.
  intros world offline st'.
  apply (session_is_reused world offline "AQED" freshStore st'). reflexivity.
Defined.

Lemma readReply_ok r :
  (exists jsession, readReply r = Ok jsession) <->
  exists status setCookie,
    r = Wire.Reply status setCookie /\
    (200 <= status < 400)%Z /\ status <> 301%Z /\ status <> 302%Z.
Proof.
  unfold readReply, settle, validateStatus. split.
  - intros [j H]. destruct r as [status setCookie|m]; [|discriminate].
    exists status, setCookie.
    destruct (Z.leb_spec 200 status); [|discriminate].
    destruct (Z.ltb_spec status 400); [|discriminate].
    cbn [andb] in H.
    destruct (Z.eqb_spec status 302); [discriminate|].
    destruct (Z.eqb_spec status 301); [discriminate|].
    repeat split; auto.
  - intros (status & setCookie & -> & [H1 H2] & H3 & H4).
    destruct (Z.leb_spec 200 status); [|lia].
    destruct (Z.ltb_spec status 400); [|lia].
    cbn [andb].
    destruct (Z.eqb_spec status 302); [contradiction|].
    destruct (Z.eqb_spec status 301); [contradiction|].
    cbn [orb].
    destruct (SessionFacts.sessionToken_total setCookie) as (t & ->).
    exists t. reflexivity.
Qed.

(** X14. Without a cached session, [buildSession] returns one exactly when
    [/voyager/api/me] answers with a status from 200 to 399 other than 301
    and 302, whatever cookies the answer sets; the session is then cached
    afterCall one request. *)
Theorem session_opens_exactly_when (world : World) (liAt : string) (st : Store) :
  cacheGet liAt (sessionCache st) = None ->
  ((exists client st', buildSession world liAt st = (Ok client, st')) <->
   exists status setCookie,
     me world liAt = Wire.Reply status setCookie /\
     (200 <= status < 400)%Z /\ status <> 301%Z /\ status <> 302%Z) /\
  (forall client st', buildSession world liAt st = (Ok client, st') ->
     cacheGet liAt (sessionCache st') = Some client /\
     calls st' = (calls st ++ [GetMe liAt])%list).
Proof.
  intro H. rewrite (buildSession_fresh _ _ _ H). split.
  - rewrite <- readReply_ok. split.
    + intros (client & st' & E).
      destruct (readReply (me world liAt)) as [j|]; [eauto|discriminate].
    + intros [j ->]. eauto.
  - intros client st' E.
    destruct (readReply (me world liAt)) as [j|]; [|discriminate].
    injection E as <- <-. cbn [sessionCache calls]. split; [apply cacheGet_set|reflexivity].
Qed.

Lemma session_opens_exactly_when_witness :
  let world := {| getContents := fun _ => Ok None;
                  me := fun _ => Wire.Reply 302 None;
                  profiles := fun _ _ => Ok None;
                  companies := fun _ _ => Ok None;
                  getFullYear := 2026 |} in
  ~ exists client st', buildSession world "AQED" freshStore = (Ok client, st').
Proof.
  intros world H.
  apply (proj1 (session_opens_exactly_when world "AQED" freshStore eq_refl)) in H
    as (status & setCookie & E & _ & _ & N).
  injection E as <- _. apply N. reflexivity.
Defined.

(** X15. When [buildSession] throws, it has made its one request and has
    left the cache as it was; the error is never the one of axios for a
    status 401 or 403, which are worded anew. *)
Theorem session_failure_keeps_cache
  (world : World) (liAt : string) (st st' : Store) (e : error) :
  buildSession world liAt st = (Thrown e, st') ->
  st' = afterCall st (GetMe liAt) /\
  e <> AxiosError (Some 401%Z) (messageOf e) /\
  e <> AxiosError (Some 403%Z) (messageOf e).
Proof.
  intro H. destruct (cacheGet liAt (sessionCache st)) as [cached|] eqn:E.
  - rewrite (buildSession_cached _ _ _ _ E) in H. discriminate.
  - rewrite (buildSession_fresh _ _ _ E) in H.
    destruct (readReply (me world liAt)) as [j|e0]; [discriminate|].
    injection H as <- <-. split; [reflexivity|].
    unfold rethrow. destruct e0 as [m|[s|] m]; cbn [messageOf].
    + split; discriminate.
    + destruct (Z.eqb_spec s 403); [split; discriminate|].
      destruct (Z.eqb_spec s 401); [split; discriminate|].
      destruct (includes "redirects" m); [split; discriminate|].
      split; intro X; injection X; congruence.
    + destruct (includes "redirects" m); split; discriminate.
Qed.

Lemma session_failure_keeps_cache_witness :
  let world := {| getContents := fun _ => Ok None;
                  me := fun _ => Wire.Reply 403 None;
                  profiles := fun _ _ => Ok None;
                  companies := fun _ _ => Ok None;
                  getFullYear := 2026 |} in
  exists st', buildSession world "AQED" freshStore = (Thrown (Error forbidden), st') /\
              st' = afterCall freshStore (GetMe "AQED").
Proof.
  intro world. eexists. split; [reflexivity|].
  apply (session_failure_keeps_cache world "AQED" freshStore _ (Error forbidden)).
  reflexivity.
Defined.

End CacheFacts.

(* ------------------------------------------------------------------ *)
(** ** [/screen] *)
(* ------------------------------------------------------------------ *)

Module ScreenFacts.
Import Values Effects Server.

(** *** The education as it arrives *)

(** On an education that is as the interface declares it, the mapping of
    what arrives is the mapping of the interface, and nothing throws. *)
Lemma educationOf_untyped edu :
  exists e, Untyped.educationOf (untyped edu) = Normal e /\
            typedEducation e = Some (educationOf edu) /\
            exists p, Untyped.isHighSchool e = Normal p.
Proof.
  destruct edu as [sn sc dn dg f tp dr].
  unfold Untyped.educationOf, educationOf, untyped, falsyString,
    Untyped.periodOfEducation, periodOfEducation.
  destruct sn as [sn|]; [|destruct sc as [[[sc|]]|]];
  (destruct dn as [[|c t]|]; [| |destruct dg as [[|c t]|]]);
  destruct f as [[|a x]|];
  cbn -[testWhole trim String.eqb append gradeRe toLowerCase];
  repeat (match goal with
          | |- context [testWhole gradeRe ?u] => destruct (testWhole gradeRe u)
          | |- context [(?u =? ?v)%string] => destruct (u =? v)%string
          end;
          cbn -[testWhole trim String.eqb append gradeRe toLowerCase]);
  (eexists; split; [reflexivity|]; split;
   [reflexivity | unfold Untyped.isHighSchool, Untyped.lowerOf; cbn;
                  repeat match goal with
                  | |- context [truthy ?u] => destruct (truthy u)
                  end; cbn; eexists; reflexivity]).
Qed.

(** What [readable] says: the mapping and the test of high school go
    through. *)
Lemma readable_reads edu :
  readable edu =
  match (e <- Untyped.educationOf edu ;; Untyped.isHighSchool e) with
  | Normal _ => true
  | TypeError => false
  end.
Proof.
  destruct edu as [sn sc dn dg f tp dr].
  unfold readable, unfit, isText, gradeSent, Untyped.educationOf,
    Untyped.isHighSchool, Untyped.lowerOf.
  cbn [Wire.Untyped.degreeName Wire.Untyped.degree Wire.Untyped.fieldOfStudy
       Wire.Untyped.schoolName Wire.Untyped.school].
  set (s := nullish sn (chain sc Wire.Untyped.nestedSchoolName)).
  set (d := nullish dn dg). clearbody s d.
  destruct d as [[[|c t]|[|] t]|]; destruct f as [[[|a x]|[|] x]|];
    destruct s as [[[|b s]|[|] s]|];
    cbn -[testWhole trim String.eqb append gradeRe toLowerCase];
    repeat (match goal with
            | |- context [testWhole gradeRe ?u] => destruct (testWhole gradeRe u)
            | |- context [(?u =? ?v)%string] => destruct (u =? v)%string
            end;
            cbn -[testWhole trim String.eqb append gradeRe toLowerCase]);
    reflexivity.
Qed.

Lemma readable_untyped edu : readable (untyped edu) = true.
Proof.
  rewrite readable_reads.
  destruct (educationOf_untyped edu) as (e & -> & _ & p & E).
  cbn [bind]. rewrite E. reflexivity.
Qed.

(** The two loops over the education: they go through exactly when every
    education is readable. *)
Lemma educations_read l :
  match (all <- mapAll Untyped.educationOf l ;;
         _ <- mapAll Untyped.isHighSchool all ;; Normal all) with
  | Normal _ => forallb readable l = true
  | TypeError => forallb readable l = false
  end.
Proof.
  induction l as [|edu l IH]; [reflexivity|].
  cbn [mapAll forallb]. rewrite readable_reads.
  destruct (Untyped.educationOf edu) as [e|]; cbn [bind]; [|reflexivity].
  destruct (mapAll Untyped.educationOf l) as [all|]; cbn [bind] in *.
  - cbn [mapAll]. destruct (Untyped.isHighSchool e) as [p|]; cbn [bind].
    + destruct (mapAll Untyped.isHighSchool all); cbn [bind] in *; exact IH.
    + reflexivity.
  - destruct (Untyped.isHighSchool e); cbn [andb]; [exact IH | reflexivity].
Qed.


(** *** The handler *)

Lemma nameOf_total title : exists n, nameOf title = Normal n.
Proof.
  unfold nameOf.
  destruct (splitChar "|" _) as [|first l] eqn:E.
  - destruct (ExaRanges.splitChar_nonempty _ _ E).
  - exists (trim first). reflexivity.
Qed.

Lemma locationOf_total text : exists l, locationOf text = Normal l.
Proof.
  unfold locationOf.
  destruct (search cityStateRe text) as [m|] eqn:E1.
  - destruct (search_binds cityStateRe 1 _ m ltac:(simpl; tauto) E1) as [t ->].
    eexists. reflexivity.
  - destruct (search cityRe text) as [m|] eqn:E2; [|eexists; reflexivity].
    destruct (search_binds cityRe 1 _ m ltac:(simpl; tauto) E2) as [t ->].
    eexists. reflexivity.
Qed.

(** Reading the first result never throws, and leaves the company details
    empty. *)
Lemma profileOfContent_total content :
  exists p, profileOfContent content = Normal p /\
            Api.source p = Some "exa" /\ noDetails (Api.current_company p).
Proof.
  unfold profileOfContent.
  destruct (nameOf_total (Wire.title content)) as [n ->].
  destruct (locationOf_total (orEmpty (Wire.text content))) as [l ->].
  destruct (ExaTotal.parseProfile_total (orEmpty (Wire.text content))) as [p ->].
  cbn [bind]. eexists. split; [reflexivity|]. repeat split.
Qed.

Lemma getProfileWithExa_run cfg world url st :
  truthy (EXA_API_KEY cfg) = true ->
  getProfileWithExa cfg world url st =
  (match getContents world url with
   | Ok (Some (content :: _)) => thrown (profileOfContent content)
   | Ok _ => Thrown (Error "No results from Exa - profile may be private or unavailable")
   | Thrown e => Thrown e
   end, afterCall st (ExaGetContents url)).
Proof.
  intro K. unfold getProfileWithExa, exaClient. rewrite K.
  unfold catch, bindM, request, lift, throw.
  destruct (getContents world url) as [[[|content more]|]|e]; try reflexivity.
  destruct (thrown (profileOfContent content)); reflexivity.
Qed.

Lemma exa_succeeds cfg world url st content more :
  truthy (EXA_API_KEY cfg) = true ->
  getContents world url = Ok (Some (content :: more)) ->
  exists p, profileOfContent content = Normal p /\
            getProfileWithExa cfg world url st =
              (Ok p, afterCall st (ExaGetContents url)) /\
            Api.source p = Some "exa" /\ noDetails (Api.current_company p).
Proof.
  intros K G. destruct (profileOfContent_total content) as (p & E & S & D).
  exists p. rewrite (getProfileWithExa_run _ _ _ _ K), G, E. auto.
Qed.

Lemma exa_fails cfg world url st message :
  truthy (EXA_API_KEY cfg) = true ->
  exaFailure (getContents world url) = Some message ->
  exists e, getProfileWithExa cfg world url st =
              (Thrown e, afterCall st (ExaGetContents url)) /\
            messageOf e = message.
Proof.
  intros K F. rewrite (getProfileWithExa_run _ _ _ _ K).
  destruct (getContents world url) as [[[|content more]|]|e];
    try discriminate F; injection F as <-; eexists; split; reflexivity.
Qed.

Lemma exa_condition cfg :
  (truthy (EXA_API_KEY cfg) && negb (absent (exaClient cfg)))%bool =
  truthy (EXA_API_KEY cfg).
Proof. unfold exaClient. destruct (truthy (EXA_API_KEY cfg)); reflexivity. Qed.

(** A [url] that is a text, or is missing, gives the address; one that is
    no text makes the handler throw at once. *)
Lemma screen_sent cfg world url st :
  screen cfg world (sent url) st = screenAt cfg world (addressOf url) st.
Proof. destruct url; reflexivity. Qed.

Lemma screen_other cfg world truth shown st :
  screen cfg world (Some (Other truth shown)) st =
  (Thrown (Error typeErrorMessage), st).
Proof. reflexivity. Qed.

Lemma sent_text url : isText url = true -> exists u, url = sent u.
Proof.
  destruct url as [[s|b s]|]; [exists (Some s)|discriminate|exists None];
    reflexivity.
Qed.

Lemma screen_refuses cfg world u st :
  Url.validateLinkedInUrl u = false ->
  exists message,
    screenAt cfg world u st = (Ok (respond 400 (Api.ErrorBody message)), st).
Proof.
  intro H. unfold screenAt.
  destruct (truthy u); cbn [negb].
  - rewrite H. eexists. reflexivity.
  - eexists. reflexivity.
Qed.

(** [/screen] on an accepted address, by what the free-text provider
    returns or throws. *)
Lemma screen_run cfg world u st :
  Url.validateLinkedInUrl u = true ->
  screenAt cfg world u st =
  let viaCookie := fun st0 =>
    if truthy (LI_AT_ENV cfg) then screenWithCookie cfg world u st0
    else (Ok (respond 500 (Api.ErrorBody
      "Server not configured. Need either EXA_API_KEY or LI_AT_COOKIE in .env file.")),
          st0) in
  if truthy (EXA_API_KEY cfg)
  then match getProfileWithExa cfg world u st with
       | (Ok p, st1) => (Ok (respond 200 (Api.ProfileBody p)), st1)
       | (Thrown e, st1) =>
           if truthy (LI_AT_ENV cfg) then screenWithCookie cfg world u st1
           else (Ok (respond 500 (Api.ErrorBody
                   ("Exa AI failed: " ++ messageOf e ++
                    ". No LinkedIn cookie configured as fallback."))), st1)
       end
  else viaCookie st.
Proof.
  intro V. unfold screenAt.
  assert (T : truthy u = true).
  { destruct u; [discriminate V|reflexivity]. }
  rewrite T, V, exa_condition. cbn [negb]. cbv zeta.
  destruct (truthy (EXA_API_KEY cfg)) eqn:K.
  - unfold bindM at 1. unfold catch. unfold bindM at 1.
    destruct (getProfileWithExa cfg world u st) as [[p|e] st1].
    + reflexivity.
    + destruct (truthy (LI_AT_ENV cfg)); reflexivity.
  - unfold bindM, ret. destruct (truthy (LI_AT_ENV cfg)); reflexivity.
Qed.

Lemma getLinkedInProfile_run world url client st :
  getLinkedInProfile world url client st =
  (match profiles world client (Url.extractPublicId url) with
   | Ok resp => Ok (dataOf (match resp with Some l => l | None => [] end))
   | Thrown e => Thrown e
   end, afterCall st (GetProfile client (Url.extractPublicId url))).
Proof.
  unfold getLinkedInProfile, bindM, request, ret.
  destruct (profiles world client _); reflexivity.
Qed.

Lemma companyData_run world client data st :
  (if falsyString (universalNameOf data) then ret None
   else getCompanyDetails world (orEmpty (universalNameOf data)) client) st =
  (Ok (lookedUp world client data),
   if falsyString (universalNameOf data) then st
   else afterCall st (GetCompany client (orEmpty (universalNameOf data)))).
Proof.
  unfold lookedUp, falsyString.
  destruct (universalNameOf data) as [n|]; cbn [orEmpty truthy negb]; [|reflexivity].
  destruct (truthy n) eqn:T; cbn [negb].
  - unfold getCompanyDetails. rewrite T. cbn [negb].
    unfold catch, bindM, request, ret.
    destruct (companies world client n) as [[[|d l]|]|e]; reflexivity.
  - unfold ret. destruct (companies world client n) as [[[|d l]|]|e]; reflexivity.
Qed.

(** [/screen] from [buildSession] on, by what the session and the profile
    request return or throw and by what the education holds. *)
Lemma screenWithCookie_run cfg world u st :
  screenWithCookie cfg world u st =
  match buildSession world (LI_AT_ENV cfg) st with
  | (Thrown e, st1) =>
      (Ok (respond 500 (Api.ErrorBody
             ("Failed to initialize LinkedIn session: " ++ messageOf e))), st1)
  | (Ok client, st1) =>
      let st2 := afterCall st1 (GetProfile client (Url.extractPublicId u)) in
      match profiles world client (Url.extractPublicId u) with
      | Thrown e =>
          (Ok (respond 500 (Api.ErrorBody
                 ("Failed to fetch LinkedIn profile: " ++ messageOf e))), st2)
      | Ok resp =>
          let data := dataOf (match resp with Some l => l | None => [] end) in
          match (all <- mapAll Untyped.educationOf (Wire.educations data) ;;
                 _ <- mapAll Untyped.isHighSchool all ;; Normal all) with
          | TypeError => (Thrown (Error typeErrorMessage), st2)
          | Normal all =>
              (Ok (respond 200 (bodyOf (getFullYear world) data all
                                       (lookedUp world client data))),
               if falsyString (universalNameOf data) then st2
               else afterCall st2
                      (GetCompany client (orEmpty (universalNameOf data))))
          end
      end
  end.
Proof.
  unfold screenWithCookie. unfold bindM at 1. unfold catch at 1. unfold bindM at 1.
  destruct (buildSession world (LI_AT_ENV cfg) st) as [[client|e] st1]; [|reflexivity].
  cbn [ret]. unfold bindM at 1. unfold catch at 1. unfold bindM at 1.
  rewrite getLinkedInProfile_run.
  destruct (profiles world client (Url.extractPublicId u)) as [resp|e]; [|reflexivity].
  cbn [ret]. cbv zeta. unfold bindM at 1. unfold lift at 1.
  destruct (mapAll Untyped.educationOf _) as [all|]; cbn [thrown bind]; [|reflexivity].
  unfold bindM at 1. unfold lift at 1.
  destruct (mapAll Untyped.isHighSchool all) as [ps|]; cbn [thrown bind]; [|reflexivity].
  unfold bindM at 1. rewrite companyData_run. reflexivity.
Qed.

Lemma screen_cookie_only cfg world u st :
  EXA_API_KEY cfg = "" -> truthy (LI_AT_ENV cfg) = true ->
  Url.validateLinkedInUrl u = true ->
  screenAt cfg world u st = screenWithCookie cfg world u st.
Proof.
  intros K L V. rewrite (screen_run _ _ _ _ V). cbv zeta. rewrite K, L. reflexivity.
Qed.

(** X16. An address that is empty or that [validateLinkedInUrl] refuses is
    answered 400 with a message, before any request leaves the server and
    without a change of the store, however the server is configured. *)
Theorem bad_address_is_refused_at_once
  (cfg : Config) (world : World) (url : option string) (st : Store) :
  Url.validateLinkedInUrl (addressOf url) = false ->
  exists message,
    screen cfg world (sent url) st =
    (Ok (respond 400 (Api.ErrorBody message)), st).
Proof.
  intro H. rewrite screen_sent. unfold screenAt.
  destruct (truthy (addressOf url)) eqn:T; cbn [negb].
  - rewrite H. exists "Invalid LinkedIn URL. Must be a valid LinkedIn profile URL".
    reflexivity.
  - exists "No LinkedIn URL provided". reflexivity.
Qed.

Lemma bad_address_is_refused_at_once_witness :
  let cfg := {| LI_AT_ENV := "AQED"; EXA_API_KEY := "key" |} in
  let world := {| getContents := fun _ => Ok None;
                  me := fun _ => Wire.Reply 200 None;
                  profiles := fun _ _ => Ok None;
                  companies := fun _ _ => Ok None;
                  getFullYear := 2026 |} in
  exists message,
    screen cfg world (sent (Some "www.linkedin.com/in/jane-doe")) freshStore =
    (Ok (respond 400 (Api.ErrorBody message)), freshStore).
Proof.
  intros cfg world.
  apply (bad_address_is_refused_at_once cfg world
           (Some "www.linkedin.com/in/jane-doe") freshStore).
  reflexivity.
Defined.

(** X17. With a key for the free-text provider, an accepted address and an
    answer of the provider with at least one result, the handler answers 200
    with the profile read from the first result, whatever its text: reading
    it never throws.  The answer is marked [exa], its company details are
    [null], and the only request made is the one to the provider: LinkedIn
    is not contacted. *)
Theorem exa_result_is_answered
  (cfg : Config) (world : World) (url : option string) (st : Store)
  (content : Wire.ExaContent) (more : list Wire.ExaContent) :
  truthy (EXA_API_KEY cfg) = true ->
  Url.validateLinkedInUrl (addressOf url) = true ->
  getContents world (addressOf url) = Ok (Some (content :: more)) ->
  exists p,
    profileOfContent content = Normal p /\
    screen cfg world (sent url) st =
      (Ok (respond 200 (Api.ProfileBody p)),
       afterCall st (ExaGetContents (addressOf url))) /\
    Api.source p = Some "exa" /\ noDetails (Api.current_company p).
Proof.
  intros K V G.
  destruct (exa_succeeds cfg world _ st _ _ K G) as (p & E & R & S & D).
  exists p. rewrite screen_sent, (screen_run _ _ _ _ V). cbv zeta.
  rewrite K, R. auto.
Qed.

Lemma exa_result_is_answered_witness :
  let cfg := {| LI_AT_ENV := ""; EXA_API_KEY := "key" |} in
  let content := {| Wire.title := Some "Jane Doe | Engineer at Acme";
                    Wire.text := Some founderThenAcmeText |} in
  let world := {| getContents := fun _ => Ok (Some [content]);
                  me := fun _ => Wire.NoReply "unreachable";
                  profiles := fun _ _ => Ok None;
                  companies := fun _ _ => Ok None;
                  getFullYear := 2026 |} in
  exists p,
    screen cfg world (sent (Some " https://www.linkedin.com/in/jane-doe "))
           freshStore =
      (Ok (respond 200 (Api.ProfileBody p)),
       afterCall freshStore (ExaGetContents "https://www.linkedin.com/in/jane-doe")) /\
    Api.source p = Some "exa".
Proof.
  intros cfg content world.
  destruct (exa_result_is_answered cfg world
              (Some " https://www.linkedin.com/in/jane-doe ") freshStore content []
              eq_refl eq_refl eq_refl) as (p & _ & R & S & _).
  exists p. split; [exact R|exact S].
Defined.

(** X18. When the free-text provider is the only one configured and fails,
    by an error or by an answer without results, the handler answers 500
    with the message of the failure, after that one request. *)
Theorem exa_failure_without_cookie
  (cfg : Config) (world : World) (url : option string) (st : Store)
  (message : string) :
  truthy (EXA_API_KEY cfg) = true -> LI_AT_ENV cfg = "" ->
  Url.validateLinkedInUrl (addressOf url) = true ->
  exaFailure (getContents world (addressOf url)) = Some message ->
  screen cfg world (sent url) st =
    (Ok (respond 500 (Api.ErrorBody
           ("Exa AI failed: " ++ message ++
            ". No LinkedIn cookie configured as fallback."))),
     afterCall st (ExaGetContents (addressOf url))).
Proof.
  intros K L V F. rewrite screen_sent, (screen_run _ _ _ _ V). cbv zeta.
  rewrite K, L.
  destruct (exa_fails cfg world _ st _ K F) as (e & -> & <-). reflexivity.
Qed.

Lemma exa_failure_without_cookie_witness :
  let cfg := {| LI_AT_ENV := ""; EXA_API_KEY := "key" |} in
  let world := {| getContents := fun _ => Ok (Some []);
                  me := fun _ => Wire.Reply 200 None;
                  profiles := fun _ _ => Ok None;
                  companies := fun _ _ => Ok None;
                  getFullYear := 2026 |} in
  screen cfg world (sent (Some "https://www.linkedin.com/in/jane-doe")) freshStore =
    (Ok (respond 500 (Api.ErrorBody
       "Exa AI failed: No results from Exa - profile may be private or unavailable. No LinkedIn cookie configured as fallback.")),
     afterCall freshStore (ExaGetContents "https://www.linkedin.com/in/jane-doe")).
Proof.
  intros cfg world.
  apply (exa_failure_without_cookie cfg world
           (Some "https://www.linkedin.com/in/jane-doe") freshStore
           "No results from Exa - profile may be private or unavailable");
    reflexivity.
Defined.

(** X19. When the free-text provider fails and a cookie is configured, the
    handler answers what a server without the provider answers, from the
    store as the failed request has left it: the failure does not show in
    the answer. *)
Theorem exa_failure_falls_back
  (cfg : Config) (world : World) (url : option string) (st : Store)
  (message : string) :
  truthy (EXA_API_KEY cfg) = true -> truthy (LI_AT_ENV cfg) = true ->
  Url.validateLinkedInUrl (addressOf url) = true ->
  exaFailure (getContents world (addressOf url)) = Some message ->
  screen cfg world (sent url) st =
  screen (withoutExa cfg) world (sent url)
         (afterCall st (ExaGetContents (addressOf url))).
Proof.
  intros K L V F. rewrite !screen_sent.
  rewrite (screen_cookie_only (withoutExa cfg) _ _ _ eq_refl L V).
  rewrite (screen_run _ _ _ _ V). cbv zeta. rewrite K, L.
  destruct (exa_fails cfg world _ st _ K F) as (e & -> & _).
  rewrite !screenWithCookie_run. reflexivity.
Qed.

Lemma exa_failure_falls_back_witness :
  let cfg := {| LI_AT_ENV := "AQED"; EXA_API_KEY := "key" |} in
  let world := {| getContents := fun _ => Thrown (Error "timeout");
                  me := fun _ => Wire.Reply 200 None;
                  profiles := fun _ _ => Ok None;
                  companies := fun _ _ => Ok None;
                  getFullYear := 2026 |} in
  screen cfg world (sent (Some "https://www.linkedin.com/in/jane-doe")) freshStore =
  screen (withoutExa cfg) world (sent (Some "https://www.linkedin.com/in/jane-doe"))
         (afterCall freshStore (ExaGetContents "https://www.linkedin.com/in/jane-doe")).
Proof.
  intros cfg world.
  apply (exa_failure_falls_back cfg world
           (Some "https://www.linkedin.com/in/jane-doe") freshStore "timeout");
    reflexivity.
Defined.



(** X21. A cookie that LinkedIn turns away is reported in the words of
    [buildSession]: for a status 301, 302, 401 or 403 of [/voyager/api/me]
    and no cached session, the handler answers 500 with these words after
    the prefix of the session, and caches nothing. *)
Theorem refused_cookie_is_reported
  (cfg : Config) (world : World) (url : option string) (st : Store)
  (status : Z) (setCookie : option (list string)) (message : string) :
  EXA_API_KEY cfg = "" -> truthy (LI_AT_ENV cfg) = true ->
  Url.validateLinkedInUrl (addressOf url) = true ->
  Session.cacheGet (LI_AT_ENV cfg) (sessionCache st) = None ->
  me world (LI_AT_ENV cfg) = Wire.Reply status setCookie ->
  refusalMessage status = Some message ->
  screen cfg world (sent url) st =
    (Ok (respond 500 (Api.ErrorBody
           ("Failed to initialize LinkedIn session: " ++ message))),
     afterCall st (GetMe (LI_AT_ENV cfg))).
Proof.
  intros K L V C M R.
  rewrite screen_sent, (screen_cookie_only _ _ _ _ K L V), screenWithCookie_run.
  rewrite (CacheFacts.buildSession_fresh _ _ _ C), M.
  unfold refusalMessage in R. unfold Session.readReply, Session.settle, Session.validateStatus.
  destruct (Z.eqb_spec status 301) as [->|N1]; [injection R as <-; reflexivity|].
  destruct (Z.eqb_spec status 302) as [->|N2]; [injection R as <-; reflexivity|].
  destruct (Z.eqb_spec status 401) as [->|N3]; [injection R as <-; reflexivity|].
  destruct (Z.eqb_spec status 403) as [->|N4]; [injection R as <-; reflexivity|].
  discriminate R.
Qed.

Lemma refused_cookie_is_reported_witness :
  let cfg := {| LI_AT_ENV := "AQED"; EXA_API_KEY := "" |} in
  let world := {| getContents := fun _ => Ok None;
                  me := fun _ => Wire.Reply 302 None;
                  profiles := fun _ _ => Ok None;
                  companies := fun _ _ => Ok None;
                  getFullYear := 2026 |} in
  screen cfg world (sent (Some "https://www.linkedin.com/in/jane-doe")) freshStore =
    (Ok (respond 500 (Api.ErrorBody
       "Failed to initialize LinkedIn session: LinkedIn cookie expired or invalid. Please update your li_at cookie.")),
     afterCall freshStore (GetMe "AQED")).
Proof.
  intros cfg world.
  apply (refused_cookie_is_reported cfg world
           (Some "https://www.linkedin.com/in/jane-doe") freshStore 302 None
           Session.redirected); reflexivity.
Defined.

Lemma buildSession_calls world liAt st :
  exists l, calls (snd (buildSession world liAt st)) = (calls st ++ l)%list /\
            (List.length l <= 1)%nat /\ forallb toLinkedIn l = true.
Proof.
  destruct (Session.cacheGet liAt (sessionCache st)) as [c|] eqn:E.
  - rewrite (CacheFacts.buildSession_cached _ _ _ _ E). exists [].
    cbn [snd]. rewrite app_nil_r. repeat split. cbn. lia.
  - rewrite (CacheFacts.buildSession_fresh _ _ _ E). exists [GetMe liAt].
    destruct (Session.readReply (me world liAt)); repeat split; cbn; lia.
Qed.

Lemma screenWithCookie_shape cfg world u st :
  exists r st' l,
    screenWithCookie cfg world u st = (r, st') /\
    calls st' = (calls st ++ l)%list /\ (List.length l <= 3)%nat /\
    forallb toLinkedIn l = true /\ answeredOrTypeError r /\
    (readableWorld world -> exists response, r = Ok response).
Proof.
  rewrite screenWithCookie_run.
  destruct (buildSession_calls world (LI_AT_ENV cfg) st) as (l & C & Len & F).
  destruct (buildSession world (LI_AT_ENV cfg) st) as [[client|e] st1]; cbn [snd] in C.
  - cbv zeta.
    destruct (profiles world client (Url.extractPublicId u)) as [resp|e] eqn:P.
    + set (data := dataOf _).
      pose proof (educations_read (Wire.educations data)) as R.
      destruct (all <- mapAll Untyped.educationOf (Wire.educations data) ;;
                _ <- mapAll Untyped.isHighSchool all ;; Normal all) as [all|].
      * assert (W : wellFormed (respond 200 (bodyOf (getFullYear world) data all
                                   (lookedUp world client data)))).
        { unfold wellFormed, bodyOf. cbn [respond Api.body Api.status].
          destruct (typedAll all); reflexivity. }
        destruct (falsyString (universalNameOf data)).
        -- do 2 eexists. exists (l ++ [GetProfile client (Url.extractPublicId u)])%list.
           split; [reflexivity|]. cbn [afterCall calls]. rewrite C, <- app_assoc.
           split; [reflexivity|]. split; [rewrite length_app; cbn; lia|].
           split; [rewrite forallb_app, F; reflexivity|].
           split; [exact W|]. intros _. eexists. reflexivity.
        -- do 2 eexists.
           exists (l ++ [GetProfile client (Url.extractPublicId u);
                         GetCompany client (orEmpty (universalNameOf data))])%list.
           split; [reflexivity|]. cbn [afterCall calls]. rewrite C, <- !app_assoc.
           split; [reflexivity|]. split; [rewrite length_app; cbn; lia|].
           split; [rewrite forallb_app, F; reflexivity|].
           split; [exact W|]. intros _. eexists. reflexivity.
      * do 2 eexists. exists (l ++ [GetProfile client (Url.extractPublicId u)])%list.
        split; [reflexivity|]. cbn [afterCall calls]. rewrite C, <- app_assoc.
        split; [reflexivity|]. split; [rewrite length_app; cbn; lia|].
        split; [rewrite forallb_app, F; reflexivity|].
        split; [reflexivity|]. intros T. exfalso.
        unfold data in R. destruct resp as [included|].
        -- rewrite (T _ _ _ P) in R. discriminate R.
        -- discriminate R.
    + do 2 eexists. exists (l ++ [GetProfile client (Url.extractPublicId u)])%list.
      split; [reflexivity|]. cbn [afterCall calls]. rewrite C, <- app_assoc.
      split; [reflexivity|]. split; [rewrite length_app; cbn; lia|].
      split; [rewrite forallb_app, F; reflexivity|].
      split; [right; reflexivity|]. intros _. eexists. reflexivity.
  - do 2 eexists. exists l. split; [reflexivity|].
    split; [exact C|]. split; [lia|]. split; [exact F|].
    split; [right; reflexivity|]. intros _. eexists. reflexivity.
Qed.

(** What [/screen] leaves behind and which requests it makes, from the
    first test of the address on, by the configuration. *)
Lemma screenAt_shape cfg world u st :
  exists r st' l,
    screenAt cfg world u st = (r, st') /\ answeredOrTypeError r /\
    calls st' = (calls st ++ l)%list /\ (List.length l <= 4)%nat /\
    forallb toLinkedIn (tl l) = true /\
    (EXA_API_KEY cfg = "" -> forallb toLinkedIn l = true) /\
    (LI_AT_ENV cfg = "" ->
       sessionCache st' = sessionCache st /\
       forallb (fun c => negb (toLinkedIn c)) l = true) /\
    (readableWorld world -> exists response, r = Ok response).
Proof.
  destruct (Url.validateLinkedInUrl u) eqn:V.
  - rewrite (screen_run _ _ _ _ V). cbv zeta.
    destruct (truthy (EXA_API_KEY cfg)) eqn:K.
    + assert (K' : EXA_API_KEY cfg <> "") by (intros E; rewrite E in K; discriminate).
      rewrite (getProfileWithExa_run _ _ _ _ K).
      assert (Failing : forall e,
        exists r st' l,
          (if truthy (LI_AT_ENV cfg)
           then screenWithCookie cfg world u (afterCall st (ExaGetContents u))
           else (Ok (respond 500 (Api.ErrorBody
                   ("Exa AI failed: " ++ messageOf e ++
                    ". No LinkedIn cookie configured as fallback."))),
                 afterCall st (ExaGetContents u))) = (r, st') /\
          answeredOrTypeError r /\ calls st' = (calls st ++ l)%list /\
          (List.length l <= 4)%nat /\ forallb toLinkedIn (tl l) = true /\
          (EXA_API_KEY cfg = "" -> forallb toLinkedIn l = true) /\
          (LI_AT_ENV cfg = "" ->
             sessionCache st' = sessionCache st /\
             forallb (fun c => negb (toLinkedIn c)) l = true) /\
          (readableWorld world -> exists response, r = Ok response)).
      { intro e. destruct (truthy (LI_AT_ENV cfg)) eqn:L.
        - destruct (screenWithCookie_shape cfg world u (afterCall st (ExaGetContents u)))
            as (r & st' & l & E & C & Len & F & W & T).
          exists r, st', (ExaGetContents u :: l).
          split; [exact E|]. split; [exact W|].
          split; [rewrite C; cbn [afterCall calls]; rewrite <- app_assoc; reflexivity|].
          split; [cbn [List.length]; lia|]. split; [exact F|].
          split; [intro X; contradiction|].
          split; [|exact T].
          intro X. rewrite X in L. discriminate.
        - do 2 eexists. exists [ExaGetContents u]. split; [reflexivity|].
          split; [right; reflexivity|]. split; [reflexivity|].
          split; [cbn; lia|]. split; [reflexivity|].
          split; [intro X; contradiction|].
          split; [intros _; split; reflexivity|].
          intros _. eexists. reflexivity. }
      destruct (getContents world u) as [[[|content more]|]|e];
        try exact (Failing (Error "No results from Exa - profile may be private or unavailable"));
        try exact (Failing e).
      destruct (profileOfContent_total content) as (p & -> & _).
      do 2 eexists. exists [ExaGetContents u]. split; [reflexivity|].
      split; [reflexivity|]. split; [reflexivity|].
      split; [cbn; lia|]. split; [reflexivity|].
      split; [intro X; contradiction|].
      split; [intros _; split; reflexivity|].
      intros _. eexists. reflexivity.
    + destruct (truthy (LI_AT_ENV cfg)) eqn:L.
      * destruct (screenWithCookie_shape cfg world u st)
          as (r & st' & l & E & C & Len & F & W & T).
        exists r, st', l.
        split; [exact E|]. split; [exact W|]. split; [exact C|]. split; [lia|].
        split; [destruct l; [reflexivity|]; cbn [forallb] in F;
                apply andb_prop in F; apply F|].
        split; [intros _; exact F|].
        split; [|exact T].
        intro X. rewrite X in L. discriminate.
      * do 2 eexists. exists []. split; [reflexivity|].
        split; [right; reflexivity|]. split; [rewrite app_nil_r; reflexivity|].
        split; [cbn; lia|]. split; [reflexivity|].
        split; [reflexivity|]. split; [intros _; split; reflexivity|].
        intros _. eexists. reflexivity.
  - destruct (screen_refuses cfg world u st V) as [m E].
    do 2 eexists. exists []. split; [exact E|].
    split; [left; reflexivity|]. split; [rewrite app_nil_r; reflexivity|].
    split; [cbn; lia|]. split; [reflexivity|].
    split; [reflexivity|]. split; [intros _; split; reflexivity|].
    intros _. eexists. reflexivity.
Qed.

(** The same of [/screen], by what the body holds for the address. *)
Lemma screen_shape cfg world url st :
  exists r st' l,
    screen cfg world url st = (r, st') /\ answeredOrTypeError r /\
    calls st' = (calls st ++ l)%list /\ (List.length l <= 4)%nat /\
    forallb toLinkedIn (tl l) = true /\
    (EXA_API_KEY cfg = "" -> forallb toLinkedIn l = true) /\
    (LI_AT_ENV cfg = "" ->
       sessionCache st' = sessionCache st /\
       forallb (fun c => negb (toLinkedIn c)) l = true) /\
    (isText url = true -> readableWorld world -> exists response, r = Ok response) /\
    (isText url = false -> r = Thrown (Error typeErrorMessage) /\ st' = st).
Proof.
  destruct (isText url) eqn:T.
  - destruct (sent_text url T) as [u ->]. rewrite screen_sent.
    destruct (screenAt_shape cfg world (addressOf u) st)
      as (r & st' & l & E & W & C & Len & F & X & Y & Z).
    exists r, st', l. repeat (split; [assumption|]).
    split; [intros _; exact Z | discriminate].
  - destruct url as [[s|truth shown]|]; try discriminate T.
    rewrite screen_other. do 2 eexists. exists [].
    split; [reflexivity|]. split; [reflexivity|].
    split; [rewrite app_nil_r; reflexivity|]. split; [cbn; lia|].
    split; [reflexivity|]. split; [reflexivity|].
    split; [intros _; split; reflexivity|].
    split; [discriminate | intros _; split; reflexivity].
Qed.



(** X23. A provider that is not configured is not contacted: without a key
    no request goes to the free-text provider, and without a cookie none
    goes to LinkedIn and the cache of sessions stays as it was, whatever the
    body of the request holds for the address. *)
Theorem unconfigured_provider_is_not_contacted
  (cfg : Config) (world : World) (url : option value) (st st' : Store)
  (r : result Api.Response) :
  screen cfg world url st = (r, st') ->
  exists l, calls st' = (calls st ++ l)%list /\
    (EXA_API_KEY cfg = "" -> forallb toLinkedIn l = true) /\
    (LI_AT_ENV cfg = "" ->
       sessionCache st' = sessionCache st /\
       forallb (fun c => negb (toLinkedIn c)) l = true).
Proof.
  intro H.
  destruct (screen_shape cfg world url st)
    as (r0 & st0 & l & E & _ & C & _ & _ & X & Y & _).
  rewrite E in H. injection H as _ <-. exists l. auto.
Qed.

Lemma unconfigured_provider_is_not_contacted_witness :
  let cfg := {| LI_AT_ENV := ""; EXA_API_KEY := "key" |} in
  let world := {| getContents := fun _ => Thrown (Error "timeout");
                  me := fun _ => Wire.Reply 200 None;
                  profiles := fun _ _ => Ok None;
                  companies := fun _ _ => Ok None;
                  getFullYear := 2026 |} in
  let out := screen cfg world (sent (Some "https://www.linkedin.com/in/jane-doe"))
                    freshStore in
  exists l, calls (snd out) = l /\ forallb (fun c => negb (toLinkedIn c)) l = true.
Proof.
  intros cfg world out.
  destruct (unconfigured_provider_is_not_contacted cfg world
              (sent (Some "https://www.linkedin.com/in/jane-doe")) freshStore
              (snd out) (fst out)
              (surjective_pairing out)) as (l & C & _ & N).
  exists l. split; [exact C|]. apply N. reflexivity.
Defined.

End ScreenFacts.

(* ------------------------------------------------------------------ *)
(** ** The free-text path: name, headline and location *)
(* ------------------------------------------------------------------ *)

Module HeaderFacts.
Import Values Server.

Lemma trimStart_keeps P s : allChars P s = true -> allChars P (trimStart s) = true.
Proof.
  induction s as [|c s IH]; [reflexivity|].
  intro H. cbn [trimStart]. destruct (isSpace c); [|exact H].
  cbn [allChars] in H. apply andb_prop in H as [_ H]. exact (IH H).
Qed.

Lemma trimEnd_keeps P s : allChars P s = true -> allChars P (trimEnd s) = true.
Proof.
  induction s as [|c s IH]; [reflexivity|].
  intro H. cbn [allChars] in H. apply andb_prop in H as [Hc Hs].
  specialize (IH Hs). cbn [trimEnd]. destruct (trimEnd s) as [|d t].
  - destruct (isSpace c); [reflexivity|]. cbn [allChars]. rewrite Hc. reflexivity.
  - cbn [allChars] in *. rewrite Hc. exact IH.
Qed.

Lemma trim_keeps P s : allChars P s = true -> allChars P (trim s) = true.
Proof. intro H. apply trimEnd_keeps, trimStart_keeps, H. Qed.

Lemma trimStart_solid s : trimStart s = "" \/ startsSolid (trimStart s) = true.
Proof.
  induction s as [|c s IH]; [left; reflexivity|].
  cbn [trimStart]. destruct (isSpace c) eqn:E; [exact IH|].
  right. cbn [startsSolid]. rewrite E. reflexivity.
Qed.

Lemma trimEnd_ends s : trimEnd s = "" \/ endsSolid (trimEnd s) = true.
Proof.
  induction s as [|c s IH]; [left; reflexivity|].
  cbn [trimEnd]. destruct (trimEnd s) as [|d t].
  - destruct (isSpace c) eqn:E; [left; reflexivity|].
    right. cbn [endsSolid]. rewrite E. reflexivity.
  - right. destruct IH as [IH|IH]; [discriminate|].
    rewrite Run.endsSolid_cons by discriminate. exact IH.
Qed.

Lemma trimEnd_head c s : isSpace c = false -> exists t, trimEnd (String c s) = String c t.
Proof.
  intro E. cbn [trimEnd]. destruct (trimEnd s).
  - rewrite E. eauto.
  - eauto.
Qed.

Lemma trim_again s : trim (trim s) = trim s.
Proof.
  unfold trim at 2 3.
  destruct (trimStart_solid s) as [E|E].
  - rewrite E. reflexivity.
  - destruct (trimStart s) as [|c t]; [discriminate|].
    cbn [startsSolid] in E. apply negb_true_iff in E.
    destruct (trimEnd_head c t E) as [r Er].
    destruct (trimEnd_ends (String c t)) as [X|X]; [rewrite Er in X; discriminate|].
    apply EduLine.trim_solid; [|exact X].
    rewrite Er. cbn [startsSolid]. rewrite E. reflexivity.
Qed.

Lemma first_piece sep s :
  exists first l, splitChar sep s = first :: l /\
                  allChars (isNot [sep]) first = true.
Proof.
  pose proof (UrlFacts.splitChar_pieces sep s) as F.
  destruct (splitChar sep s) as [|first l] eqn:E.
  - destruct (ExaRanges.splitChar_nonempty _ _ E).
  - inversion F; subst. eauto.
Qed.

(** X24. The name of the free-text path is the title of the page up to its
    first bar, trimmed: it holds no bar and no white space around it, and is
    ["Unknown"] without a title.  The headline is never the empty text, and
    is [null] for a title without a bar. *)
Theorem exa_name_and_headline (title : option string) :
  (exists n, nameOf title = Normal n /\
             allChars (isNot ["|"%char]) n = true /\ trim n = n /\
             (falsyString title = true -> n = "Unknown")) /\
  headlineOf title <> Some "" /\
  (forall t, title = Some t -> allChars (isNot ["|"%char]) t = true ->
             headlineOf title = None).
Proof.
  split; [|split].
  - unfold nameOf.
    destruct (first_piece "|" (if falsyString title then "Unknown" else orEmpty title))
      as (first & l & E & A).
    rewrite E. cbn [nth_error defined bind]. exists (trim first).
    split; [reflexivity|]. split; [apply trim_keeps; exact A|].
    split; [apply trim_again|].
    intro F. rewrite F in E. injection E as <- _. reflexivity.
  - unfold headlineOf. set (h := chain _ _).
    destruct (falsyString h) eqn:F; [discriminate|].
    intro E. rewrite E in F. discriminate.
  - intros t -> A. unfold headlineOf. cbn [chain].
    rewrite (UrlFacts.splitChar_whole "|" t A). reflexivity.
Qed.

Lemma exa_name_and_headline_witness :
  nameOf None = Normal "Unknown" /\ headlineOf (Some "Jane Doe") = None.
Proof.
  destruct (exa_name_and_headline None) as ((n & E & _ & _ & U) & _ & _).
  destruct (exa_name_and_headline (Some "Jane Doe")) as (_ & _ & H).
  split.
  - rewrite E. f_equal. apply U. reflexivity.
  - apply (H "Jane Doe"); reflexivity.
Defined.

Lemma within_any r : within (fun _ => true) r.
Proof. induction r; cbn [within]; auto. Qed.

Lemma cursor_at x : x = at_ (idx x) (prev x) (rest x).
Proof. destruct x; reflexivity. Qed.

Lemma includes_starts w s : startsWith w s = true -> includes w s = true.
Proof. intro H. destruct s; cbn [includes]; rewrite H; reflexivity. Qed.

Lemma ends_Lit w x caps k z :
  rmatch (Lit w) x caps k = Some z -> includes w (rest x) = true.
Proof.
  intro H. apply includes_starts.
  destruct (startsWith w (rest x)) eqn:E; [reflexivity|].
  rewrite (cursor_at x), (Run.rmatch_Lit_fail w _ _ _ _ _ E) in H. discriminate.
Qed.

Lemma ends_Seq w A B x caps k z :
  (forall y c, rmatch B y c k = Some z -> includes w (rest y) = true) ->
  rmatch (Seq A B) x caps k = Some z -> includes w (rest x) = true.
Proof.
  intros HB H. rewrite Run.rmatch_Seq in H.
  apply (Span.rmatch_spans (fun _ => true) A (within_any A)) in H
    as (w0 & y & c & H & R & _).
  rewrite R. apply UrlFacts.includes_later. exact (HB y c H).
Qed.

Lemma searchFrom_where r s : forall p m,
  searchFrom r p s = Some m ->
  exists pre s' p' z, s = pre ++ s' /\ exec r p' s' = Some z.
Proof.
  induction s as [|c s IH]; intros p m H; cbn [searchFrom] in H.
  - destruct (exec r p "") as [z|] eqn:E; [|discriminate].
    exists "", "", p, z. auto.
  - destruct (exec r p (String c s)) as [z|] eqn:E.
    + exists "", (String c s), p, z. auto.
    + destruct (searchFrom r (Some c) s) as [m'|] eqn:E'; [|discriminate].
      destruct (IH _ _ E') as (pre & s' & p' & z & -> & X).
      exists (String c pre), s', p', z. auto.
Qed.

Lemma location_pattern_needs r text m :
  search (Chr nl >> Grp 1 r >> beforeConnections)%re text = Some m ->
  includes "connections" text = true.
Proof.
  intro H. destruct (searchFrom_where _ _ _ _ H) as (pre & s' & p' & z & -> & X).
  apply UrlFacts.includes_later. unfold exec in X.
  change s' with (rest {| idx := 0; prev := p'; rest := s' |}).
  revert X. apply ends_Seq. intros y1 c1. apply ends_Seq. intros y2 c2.
  unfold beforeConnections.
  apply ends_Seq. intros y3 c3. apply ends_Seq. intros y4 c4.
  apply ends_Seq. intros y5 c5. apply ends_Lit.
Qed.

(** X25. No location is read from a text that does not hold the word
    [connections]. *)
Theorem location_needs_connections (text : string) :
  includes "connections" text = false -> locationOf text = Normal None.
Proof.
  intro H. unfold locationOf.
  destruct (search cityStateRe text) as [m|] eqn:E1.
  - apply location_pattern_needs in E1. congruence.
  - destruct (search cityRe text) as [m|] eqn:E2; [|reflexivity].
    apply location_pattern_needs in E2. congruence.
Qed.

Lemma location_needs_connections_witness :
  locationOf "Jane Doe
Berlin, Germany
500 followers" = Normal None.
Proof.
  apply (location_needs_connections "Jane Doe
Berlin, Germany
500 followers"). reflexivity.
Defined.

End HeaderFacts.

(* ------------------------------------------------------------------ *)
(** ** The structured path: which entities are read *)
(* ------------------------------------------------------------------ *)

Module EntityFacts.
Import Values Server.

(** X26. The entities are told apart by a part of their [$type], not by the
    whole: an entity whose type goes on after [identity.profile.Position],
    as a group of positions does, is read as a position; an entity without
    a type is read as nothing. *)
Theorem entity_is_read_by_part_of_type
  (included : list Wire.Entity) (e : Wire.Entity) (a b : string) :
  In e included ->
  (Wire.etype e = Some (a ++ "identity.profile.Position" ++ b) ->
   In (Wire.asPosition e) (Wire.positions (dataOf included))) /\
  (Wire.etype e = None ->
   dataOf [e] = {| Wire.profile := Wire.noProfile; Wire.positions := [];
                   Wire.educations := [] |}).
Proof.
  intro H. split.
  - intro T. unfold dataOf. cbn [Wire.positions].
    apply in_map, filter_In. split; [exact H|].
    rewrite T. cbn [orEmpty].
    apply UrlFacts.includes_later, (UrlFacts.includes_here "identity.profile.Position" b).
  - intro T. unfold dataOf. cbn [filter]. rewrite T. reflexivity.
Qed.

Lemma entity_is_read_by_part_of_type_witness :
  let group := {| Wire.etype :=
                    Some "com.linkedin.voyager.dash.identity.profile.PositionGroup";
                  Wire.asProfile := Wire.noProfile;
                  Wire.asPosition := position2019;
                  Wire.asEducation := noEducation |} in
  In position2019 (Wire.positions (dataOf [group])).
Proof.
  intro group.
  apply (proj1 (entity_is_read_by_part_of_type [group] group
                  "com.linkedin.voyager.dash." "Group" (or_introl eq_refl))).
  reflexivity.
Defined.

End EntityFacts.

(* ------------------------------------------------------------------ *)
(** ** The command-line variant: the experience line *)
(* ------------------------------------------------------------------ *)

Module CliFacts.
Import Values CliLines.

Lemma numberToString_truthy z : truthy (numberToString z) = true.
Proof.
  destruct z as [|p|p]; [reflexivity| |reflexivity].
  unfold numberToString.
  destruct (Numbers.naturalToString_digits (N.pos p)) as (d & -> & _ & Hne & _).
  destruct d; [congruence|reflexivity].
Qed.

(** X27. An experience with a start year and an end date that has no year
    (or the year 0) is printed with the word [null] for its end, and without
    the mark of the current position. *)
Theorem end_without_year_prints_null
  (exp : Cli.Experience) (period : Cli.Period) (first last : DateObj) (y : Z) :
  Cli.timePeriod exp = Some period ->
  Cli.startDate period = Some first -> year first = Some y -> y <> 0%Z ->
  Cli.endDate period = Some last -> falsyNumber (year last) = true ->
  experienceLine exp =
    "  • " ++ orElse (Cli.title exp) "—" ++ " @ " ++
    orElse (Cli.companyName exp) "—" ++ "  [" ++ numberToString y ++ " – null]".
Proof.
  intros P S Y N E F. unfold experienceLine, formatYear.
  rewrite P. cbn [chain]. rewrite S, E. cbn [chain absent]. rewrite Y, F.
  cbn [falsyNumber]. apply Z.eqb_neq in N. rewrite N. cbn [option_map].
  unfold falsyString. cbn [orEmpty]. rewrite numberToString_truthy.
  cbn [negb shown]. rewrite !append_assoc. reflexivity.
Qed.

Lemma end_without_year_prints_null_witness :
  experienceLine
    {| Cli.companyName := Some "Acme"; Cli.title := Some "Engineer";
       Cli.timePeriod :=
         Some {| Cli.startDate := Some {| year := Some 2019%Z; month := None |};
                 Cli.endDate := Some {| year := None; month := Some 6%Z |} |} |} =
  "  • Engineer @ Acme  [2019 – null]".
Proof.
  exact (end_without_year_prints_null
           {| Cli.companyName := Some "Acme"; Cli.title := Some "Engineer";
              Cli.timePeriod :=
                Some {| Cli.startDate := Some {| year := Some 2019%Z; month := None |};
                        Cli.endDate := Some {| year := None; month := Some 6%Z |} |} |}
           {| Cli.startDate := Some {| year := Some 2019%Z; month := None |};
              Cli.endDate := Some {| year := None; month := Some 6%Z |} |}
           {| year := Some 2019%Z; month := None |}
           {| year := None; month := Some 6%Z |} 2019%Z
           eq_refl eq_refl eq_refl ltac:(discriminate) eq_refl eq_refl).
Defined.

End CliFacts.
